(** * claude-dash: session analytics core

    A shallow embedding of the analytics code of claude-dash

      - [claude_dash/core/adaptive_bounds.py]   (module [AdaptiveBounds])
      - [claude_dash/core/bayesian_limits.py]   (module [BayesianLimits])
      - [claude_dash/providers/claude_code_reader.py] (module [Reader])

    Conventions of the embedding.

    - Python [float] and [numpy.float64] values are exact rationals [Q]:
      the model does not round.  A double can differ from the exact value
      in its last place, which matters where a result is truncated or
      compared with a value it can reach (the quotients of
      [calculate_bounds], the mean of a belief, sums of durations): there
      the statements are made on values that rounding cannot change, or for
      every value a rounded operation may return, and the definitions say
      where they are exact.
    - A naive [datetime] is a number of microseconds ([Z]); a [timedelta]
      is a difference of such numbers.  The range limits of [datetime]
      (years 1 to 9999) are not modelled.
    - A Python exception is a value of [exn]; a function that can raise
      returns [result].
    - [datetime.now()] and the file system are inputs: every function that
      reads the clock takes [now], and the reader takes the parsed lines. *)

From Stdlib Require Import String Ascii ZArith QArith Qround List Bool Lia Lqa.
From Stdlib Require Import Sorted Permutation.
Import ListNotations.

Open Scope Z_scope.

(** ** Exceptions and results *)

Inductive exn : Set :=
| ZeroDivisionError
| OverflowError
| ValueError.

Inductive result (A : Type) : Type :=
| Ok (a : A)
| Raise (e : exn).

Arguments Ok {A} a.
Arguments Raise {A} e.

Definition bind {A B : Type} (r : result A) (k : A -> result B) : result B :=
  match r with
  | Ok a => k a
  | Raise e => Raise e
  end.

Notation "x <- r ;; k" := (bind r (fun x => k))
  (at level 61, r at next level, right associativity).

(** ** Python and numpy helpers *)

(** [l[-n:]] for [n > 0]. *)
Definition last_n {A : Type} (n : nat) (l : list A) : list A :=
  skipn (length l - n) l.

(** [deque(maxlen=n).append(x)]: append on the right, drop on the left. *)
Definition deque_append {A : Type} (maxlen : nat) (d : list A) (x : A) : list A :=
  last_n maxlen (d ++ [x]).

(** Two-argument [max(a, b)] of Python: [b] when [b > a], else [a]. *)
Definition py_max (a b : Q) : Q :=
  if Qlt_le_dec a b then b else a.

Definition Zpy_max (a b : Z) : Z :=
  if a <? b then b else a.

(** [int(x)] on a finite float: truncation toward zero. *)
Definition Qtruncate (q : Q) : Z :=
  Z.quot (Qnum q) (Zpos (Qden q)).

Definition Qltb (a b : Q) : bool := negb (Qle_bool b a).

Fixpoint Qinsert (x : Q) (l : list Q) : list Q :=
  match l with
  | [] => [x]
  | y :: l' => if Qle_bool x y then x :: l else y :: Qinsert x l'
  end.

Definition Qsort (l : list Q) : list Q :=
  fold_right Qinsert [] l.

Definition Qsum (l : list Q) : Q :=
  fold_right Qplus 0%Q l.

Definition Qlen (l : list Q) : Q :=
  inject_Z (Z.of_nat (length l)).

(** [np.mean]. *)
Definition np_mean (l : list Q) : Q :=
  (Qsum l / Qlen l)%Q.

(** [np.percentile(l, p)] with the default linear interpolation: the
    virtual index [p/100 * (n-1)] into the sorted data. *)
Definition np_percentile (l : list Q) (p : Q) : Q :=
  let s := Qsort l in
  let idx := (p / 100 * inject_Z (Z.of_nat (length l - 1)))%Q in
  let lo := Qfloor idx in
  let g := (idx - inject_Z lo)%Q in
  let a := nth (Z.to_nat lo) s 0%Q in
  let b := nth (Nat.min (Z.to_nat lo + 1) (length l - 1)) s 0%Q in
  (a + g * (b - a))%Q.

(** [np.median]: the middle element, or the mean of the two middle ones. *)
Definition np_median (l : list Q) : Q :=
  let s := Qsort l in
  let n := length l in
  if Nat.even n
  then ((nth (n / 2 - 1) s 0%Q + nth (n / 2) s 0%Q) / 2)%Q
  else nth (n / 2) s 0%Q.

(** ** adaptive_bounds.py *)

Module AdaptiveBounds.

Section Calculator.

(** [np.sqrt], the one operation of [np.std] that leaves the rationals.
    Its result only feeds multipliers that [calculate_bounds] overwrites. *)
Variable np_sqrt : Q -> Q.

Definition np_std (l : list Q) : Q :=
  let mu := np_mean l in
  np_sqrt (np_mean (map (fun x => (x - mu) * (x - mu))%Q l)).

(** The labels stored in [pattern_history] by [add_prompt]. *)
Inductive category : Set := simple | moderate | complex.

(** The label of [get_current_pattern] and [PromptBounds.pattern]. *)
Inductive pattern : Set :=
| dominant (c : category)
| mixed.

Record PromptBounds : Set := {
  lower : Z;
  expected : Z;
  upper : Z;
  confidence_level : Q;
  bounds_pattern : pattern
}.

Record AdaptiveBoundsCalculator : Set := {
  window_size : nat;
  recent_multipliers : list Z;
  pattern_history : list category
}.

(** [__init__] *)
Definition init (window_size : nat) : AdaptiveBoundsCalculator :=
  {| window_size := window_size;
     recent_multipliers := [];
     pattern_history := [] |}.

Definition SIMPLE_THRESHOLD : Z := 3.
Definition COMPLEX_THRESHOLD : Z := 9.

Definition pattern_defaults (p : pattern) : Q :=
  match p with
  | dominant simple => 3
  | dominant moderate => 7
  | dominant complex => 18
  | mixed => 10
  end.

Definition categorize (message_count : Z) : category :=
  if message_count <=? SIMPLE_THRESHOLD then simple
  else if message_count >=? COMPLEX_THRESHOLD then complex
  else moderate.

Definition add_prompt (c : AdaptiveBoundsCalculator) (message_count : Z)
  : AdaptiveBoundsCalculator :=
  {| window_size := window_size c;
     recent_multipliers :=
       deque_append (window_size c) (recent_multipliers c) message_count;
     pattern_history :=
       deque_append (window_size c) (pattern_history c) (categorize message_count) |}.

Definition category_eqb (a b : category) : bool :=
  match a, b with
  | simple, simple | moderate, moderate | complex, complex => true
  | _, _ => false
  end.

Definition count_category (c : category) (l : list category) : nat :=
  length (filter (category_eqb c) l).

(** [count / total >= 0.6] *)
Definition is_dominant (count total : nat) : bool :=
  Qle_bool 0.6 (inject_Z (Z.of_nat count) / inject_Z (Z.of_nat total)).

Definition get_current_pattern (c : AdaptiveBoundsCalculator) : pattern :=
  if (length (pattern_history c) <? 3)%nat then mixed
  else
    let recent := last_n 10 (pattern_history c) in
    let n_simple := count_category simple recent in
    let n_moderate := count_category moderate recent in
    let n_complex := count_category complex recent in
    let total := (n_simple + n_moderate + n_complex)%nat in
    if (total =? 0)%nat then mixed
    else if is_dominant n_simple total then dominant simple
    else if is_dominant n_moderate total then dominant moderate
    else if is_dominant n_complex total then dominant complex
    else mixed.

(** The IQR filter of [calculate_bounds], with its fallback to the
    unfiltered data. *)
Definition iqr_filter (recent : list Q) : list Q :=
  let q1 := np_percentile recent 25 in
  let q3 := np_percentile recent 75 in
  let iqr := (q3 - q1)%Q in
  let filtered :=
    filter (fun x => Qle_bool (q1 - 1.5 * iqr) x && Qle_bool x (q3 + 1.5 * iqr)) recent in
  match filtered with
  | [] => recent
  | _ => filtered
  end.

Definition low_variability (p : pattern) : bool :=
  match p with
  | dominant simple | dominant moderate => true
  | _ => false
  end.

(** Lines 92-148: the point estimate and the spread derived from the
    pattern defaults, from median and standard deviation, or from the
    percentiles selected by [confidence]. *)
Definition derive_multipliers (c : AdaptiveBoundsCalculator) (confidence : Q)
  : Q * Q * Q :=
  let pattern := get_current_pattern c in
  if (length (recent_multipliers c) <? 5)%nat then
    let multiplier := pattern_defaults pattern in
    match pattern with
    | mixed => (multiplier, 4, 10)%Q
    | _ => (multiplier, multiplier * 0.7, multiplier * 1.4)%Q
    end
  else
    let recent := map inject_Z (last_n 10 (recent_multipliers c)) in
    let filtered := iqr_filter recent in
    let median := np_median filtered in
    let multiplier := median in
    if low_variability pattern && (5 <=? length filtered)%nat then
      let std := np_std filtered in
      (multiplier, py_max (median - std) 1, median + std)%Q
    else if Qeq_bool confidence 0.8 then
      (multiplier, np_percentile filtered 10, np_percentile filtered 90)
    else if Qeq_bool confidence 0.5 then
      (multiplier, np_percentile filtered 25, np_percentile filtered 75)
    else
      (multiplier, np_percentile filtered 2.5, np_percentile filtered 97.5).

(** Lines 92-160 of [calculate_bounds]: the point estimate and the two
    multipliers the limit is divided by, after the final clamp and the
    swap guard. *)
Definition final_multipliers (c : AdaptiveBoundsCalculator) (confidence : Q)
  : Q * Q * Q :=
  let '(multiplier, lower_mult, upper_mult) := derive_multipliers c confidence in
  (* Apply very tight bounds for practical usefulness *)
  let lower_mult := py_max 1 (multiplier * 0.9) in
  let upper_mult := (multiplier * 1.1)%Q in
  (* Ensure bounds make sense *)
  if Qltb upper_mult lower_mult then (multiplier, upper_mult, lower_mult)
  else (multiplier, lower_mult, upper_mult).

(** [int(message_limit / mult)].  A zero [mult] is a [numpy.float64] here
    (the Python floats reaching a division are at least 1), so the quotient
    is [inf] or [nan] and it is [int()] that raises.  The quotient is the
    exact one: the code truncates the nearest double, which can lie just
    below a whole number that the exact quotient reaches (990 / 1.1), so
    a result here may exceed the one of the code by 1.  A limit beyond the
    range of doubles, for which the division itself raises, is not
    modelled. *)
Definition int_div (message_limit : Z) (mult : Q) : result Z :=
  if Qeq_bool mult 0 then
    if message_limit =? 0 then Raise ValueError else Raise OverflowError
  else Ok (Qtruncate (inject_Z message_limit / mult)).

(** [calculate_bounds]: the multipliers, then lines 162-179. *)
Definition calculate_bounds (c : AdaptiveBoundsCalculator)
    (message_limit prompts_used : Z) (confidence : Q) : result PromptBounds :=
  let pattern := get_current_pattern c in
  let '(multiplier, lower_mult, upper_mult) := final_multipliers c confidence in
  prompts_total_upper <- int_div message_limit lower_mult ;;
  prompts_total_expected <-
    (if Qltb 0 multiplier then int_div message_limit multiplier else Ok 0) ;;
  prompts_total_lower <- int_div message_limit upper_mult ;;
  Ok {| lower := Zpy_max 0 (prompts_total_lower - prompts_used);
        expected := Zpy_max 0 (prompts_total_expected - prompts_used);
        upper := Zpy_max 0 (prompts_total_upper - prompts_used);
        confidence_level := confidence;
        bounds_pattern := pattern |}.

(** The point estimate in the words of the specification: the pattern
    default with fewer than five observations, otherwise the median of the
    last ten observations after the IQR filter. *)
Definition point_estimate (c : AdaptiveBoundsCalculator) : Q :=
  if (length (recent_multipliers c) <? 5)%nat
  then pattern_defaults (get_current_pattern c)
  else np_median (iqr_filter (map inject_Z (last_n 10 (recent_multipliers c)))).

(** The remaining-prompt bounds obtained by dividing the limit by a lower
    and an upper multiplier around the point estimate [m]. *)
Definition bounds_with (m lower_mult upper_mult : Q) (message_limit prompts_used : Z)
    (confidence : Q) (p : pattern) : PromptBounds :=
  {| lower := Zpy_max 0 (Qtruncate (inject_Z message_limit / upper_mult) - prompts_used);
     expected :=
       Zpy_max 0 ((if Qltb 0 m then Qtruncate (inject_Z message_limit / m) else 0)
                  - prompts_used);
     upper := Zpy_max 0 (Qtruncate (inject_Z message_limit / lower_mult) - prompts_used);
     confidence_level := confidence;
     bounds_pattern := p |}.

(** The two multipliers of the final clamp. *)
Definition clamp_lower (m : Q) : Q := py_max 1 (m * 0.9).
Definition clamp_upper (m : Q) : Q := (m * 1.1)%Q.

(** One value of the dictionary returned by [get_pattern_stats]. *)
Record PatternStats : Set := {
  stats_mean : Q;
  stats_median : Q;
  stats_std : Q;
  stats_count : nat;
  stats_percentage : Q
}.

(** The message counts that [get_pattern_stats] puts in the group of a
    category. *)
Definition pattern_group (cat : category) (l : list Z) : list Z :=
  filter (fun msg_count => category_eqb (categorize msg_count) cat) l.

(** [get_pattern_stats]: the groups in the order simple, moderate,
    complex; an empty group has no key. *)
Definition get_pattern_stats (c : AdaptiveBoundsCalculator) : list (category * PatternStats) :=
  match recent_multipliers c with
  | [] => []
  | _ =>
      flat_map
        (fun cat =>
           let values := pattern_group cat (recent_multipliers c) in
           match values with
           | [] => []
           | _ =>
               let vs := map inject_Z values in
               [(cat,
                 {| stats_mean := np_mean vs;
                    stats_median := np_median vs;
                    stats_std := if (1 <? length values)%nat then np_std vs else 0;
                    stats_count := length values;
                    stats_percentage :=
                      (inject_Z (Z.of_nat (length values))
                       / inject_Z (Z.of_nat (length (recent_multipliers c))) * 100)%Q |})]
           end)
        [simple; moderate; complex]
  end.

End Calculator.

(** The range of the message counts of a category. *)
Definition in_category_range (cat : category) (q : Q) : Prop :=
  match cat with
  | simple => (q <= 3)%Q
  | moderate => (4 <= q)%Q /\ (q <= 8)%Q
  | complex => (9 <= q)%Q
  end.

(** A calculator that has seen the message counts [l], oldest first. *)
Definition observed (window_size : nat) (l : list Z) : AdaptiveBoundsCalculator :=
  fold_left add_prompt l (init window_size).

End AdaptiveBounds.

(** A square root to six decimals, to run the model where [np.sqrt] is
    called. *)
Definition sqrt_approx (q : Q) : Q :=
  Z.sqrt (Qnum q * 1000000000000 / Zpos (Qden q)) # 1000000.

(** ** bayesian_limits.py *)

Module BayesianLimits.

(** A prediction in hours, or [float('inf')]. *)
Inductive hours : Set :=
| Finite (h : Q)
| Inf.

(** [a < b] on predictions. *)
Definition hours_ltb (a b : hours) : bool :=
  match a, b with
  | Finite x, Finite y => Qltb x y
  | Finite _, Inf => true
  | Inf, _ => false
  end.

Inductive metric : Set := tokens | messages | prompts.

Record LimitBelief : Set := {
  alpha : Q;
  beta : Q;
  scale : Q
}.

Record SessionLimits : Set := {
  limits_tokens : LimitBelief;
  limits_messages : LimitBelief;
  limits_prompts : LimitBelief
}.

Definition belief (l : SessionLimits) (k : metric) : LimitBelief :=
  match k with
  | tokens => limits_tokens l
  | messages => limits_messages l
  | prompts => limits_prompts l
  end.

(** Python float division. *)
Definition py_div (a b : Q) : result Q :=
  if Qeq_bool b 0 then Raise ZeroDivisionError else Ok (a / b)%Q.

(** [LimitBelief.mean].  The quotient and the product are exact; the
    doubles of the code can differ from them in the last place (for
    [alpha / (alpha + beta) * scale] the code can return
    31.000000000000004 where the exact mean is 31). *)
Definition mean (b : LimitBelief) : result Q :=
  r <- py_div (alpha b) (alpha b + beta b) ;;
  Ok (r * scale b)%Q.

(** [LimitBelief.variance] *)
Definition variance (b : LimitBelief) : result Q :=
  let ab := (alpha b + beta b)%Q in
  r <- py_div (alpha b * beta b) (ab * ab * (ab + 1)) ;;
  Ok (r * scale b * scale b)%Q.

(** [LimitBelief.update] *)
Definition update (b : LimitBelief) (observation : Q) : result LimitBelief :=
  normalized <- py_div observation (scale b) ;;
  if Qltb 0.9 normalized then
    Ok {| alpha := alpha b + 2.0; beta := beta b + 0.5; scale := scale b |}
  else if Qltb 0.8 normalized then
    Ok {| alpha := alpha b + 1.5; beta := beta b + 1.0; scale := scale b |}
  else
    Ok {| alpha := alpha b + 0.5; beta := beta b + 2.0; scale := scale b |}.

Record BayesianLimitEstimator : Set := {
  plan_name : string;
  limits : SessionLimits;
  confidence_threshold : Z;
  total_observations : Z
}.

(** The [(typical, maximum)] pairs of [_initialize_priors]. *)
Definition priors (plan : string) (k : metric) : Q * Q :=
  if String.eqb plan "pro" then
    match k with
    | tokens => (19000, 30000)
    | messages => (45, 60)
    | prompts => (40, 100)
    end%Q
  else if String.eqb plan "max5x" then
    match k with
    | tokens => (65000, 100000)
    | messages => (125, 500)
    | prompts => (50, 200)
    end%Q
  else
    match k with
    | tokens => (200000, 400000)
    | messages => (500, 2000)
    | prompts => (200, 800)
    end%Q.

Definition _initialize_priors (plan : string) : SessionLimits :=
  {| limits_tokens := {| alpha := 4.0; beta := 2.0; scale := snd (priors plan tokens) |};
     limits_messages := {| alpha := 8.0; beta := 2.0; scale := snd (priors plan messages) |};
     limits_prompts := {| alpha := 6.0; beta := 3.0; scale := snd (priors plan prompts) |} |}.

(** [__init__] *)
Definition init (plan : string) : BayesianLimitEstimator :=
  {| plan_name := plan;
     limits := _initialize_priors plan;
     confidence_threshold := 10;
     total_observations := 0 |}.

(** The [session_data] dictionary, one option per key read. *)
Record SessionData : Set := {
  max_tokens : option Q;
  max_messages : option Q;
  max_prompts : option Q;
  sessions_analyzed : option Z
}.

Definition update_opt (b : LimitBelief) (o : option Q) : result LimitBelief :=
  match o with
  | Some x => update b x
  | None => Ok b
  end.

Definition update_from_session (e : BayesianLimitEstimator) (d : SessionData)
  : result BayesianLimitEstimator :=
  t <- update_opt (limits_tokens (limits e)) (max_tokens d) ;;
  m <- update_opt (limits_messages (limits e)) (max_messages d) ;;
  p <- update_opt (limits_prompts (limits e)) (max_prompts d) ;;
  let sessions_count := match sessions_analyzed d with Some n => n | None => 1 end in
  Ok {| plan_name := plan_name e;
        limits := {| limits_tokens := t; limits_messages := m; limits_prompts := p |};
        confidence_threshold := confidence_threshold e;
        total_observations := total_observations e + sessions_count |}.

(** [get_confidence_description] *)
Definition get_confidence_description (e : BayesianLimitEstimator) : string :=
  if total_observations e >=? confidence_threshold e
  then "High confidence - Trained on your usage patterns"
  else if total_observations e >=? 5
  then "Medium confidence - Still learning your patterns"
  else "Low confidence - Gathering initial data".

(** The invariant of the shape parameters. *)
Definition positive_belief (b : LimitBelief) : Prop :=
  (0 < alpha b)%Q /\ (0 < beta b)%Q.

(** A usage or burn-rate dictionary with the same value for every metric. *)
Definition every_metric (q : Q) (k : metric) : option Q := Some q.

(** The estimators the program can hold: a fresh one, updated by any
    number of sessions. *)
Inductive reachable : BayesianLimitEstimator -> Prop :=
| reachable_init (plan : string) : reachable (init plan)
| reachable_update (e e' : BayesianLimitEstimator) (d : SessionData) :
    reachable e -> update_from_session e d = Ok e' -> reachable e'.

Record MetricEstimate : Set := {
  estimate : Q;
  std_dev : Q;
  interval : Q * Q;
  confidence : Q
}.

Record EstimatedLimits : Set := {
  est_tokens : MetricEstimate;
  est_messages : MetricEstimate;
  est_prompts : MetricEstimate;
  est_total_observations : Z;
  est_confidence_level : string
}.

Definition est (l : EstimatedLimits) (k : metric) : MetricEstimate :=
  match k with
  | tokens => est_tokens l
  | messages => est_messages l
  | prompts => est_prompts l
  end.

Record Predictions : Set := {
  pred_tokens : hours;
  pred_messages : hours;
  pred_prompts : hours;
  limiting_factor : metric;
  time_to_limit : hours
}.

(** [predictions[metric]] *)
Definition prediction (p : Predictions) (k : metric) : hours :=
  match k with
  | tokens => pred_tokens p
  | messages => pred_messages p
  | prompts => pred_prompts p
  end.

(** A prediction is never negative. *)
Definition hours_nonneg (h : hours) : Prop :=
  match h with
  | Finite q => (0 <= q)%Q
  | Inf => True
  end.

Section Estimator.

(** [np.sqrt] and the quantile function [scipy.stats.beta(a, b).ppf]; both
    feed only the [std_dev] and [interval] entries of the estimates. *)
Variable np_sqrt : Q -> Q.
Variable beta_ppf : Q -> Q -> Q -> Q.

(** [LimitBelief.credible_interval] *)
Definition credible_interval (b : LimitBelief) (confidence : Q) : Q * Q :=
  (beta_ppf (alpha b) (beta b) ((1 - confidence) / 2) * scale b,
   beta_ppf (alpha b) (beta b) (1 - (1 - confidence) / 2) * scale b)%Q.

Definition metric_estimate (b : LimitBelief) (confidence : Q) : result MetricEstimate :=
  m <- mean b ;;
  v <- variance b ;;
  Ok {| estimate := m;
        std_dev := np_sqrt v;
        interval := credible_interval b confidence;
        confidence := confidence |}.

Definition get_estimated_limits (e : BayesianLimitEstimator) : result EstimatedLimits :=
  let high := total_observations e >=? confidence_threshold e in
  let confidence := if high then 0.95%Q else 0.80%Q in
  t <- metric_estimate (limits_tokens (limits e)) confidence ;;
  m <- metric_estimate (limits_messages (limits e)) confidence ;;
  p <- metric_estimate (limits_prompts (limits e)) confidence ;;
  Ok {| est_tokens := t;
        est_messages := m;
        est_prompts := p;
        est_total_observations := total_observations e;
        est_confidence_level := if high then "high" else "learning" |}.

(** The body of the loop of [predict_limit_times] for one metric; the
    dictionaries are functions to [option]. *)
Definition predict_metric (estimates : EstimatedLimits)
    (current_usage burn_rates : metric -> option Q) (k : metric) : hours :=
  match current_usage k, burn_rates k with
  | Some used, Some rate =>
      let remaining := (estimate (est estimates k) - used)%Q in
      if Qltb 0 rate then Finite (py_max 0 (remaining / rate))
      else Inf
  | _, _ => Inf
  end.

(** [min(keys, key=...)] over the three metrics in insertion order: the
    first key with the smallest prediction. *)
Definition min_metric (p : metric -> hours) : metric :=
  let best := tokens in
  let best := if hours_ltb (p messages) (p best) then messages else best in
  let best := if hours_ltb (p prompts) (p best) then prompts else best in
  best.

(** Lines 171-189 of [predict_limit_times]: the predictions from the
    estimates, whatever numbers these hold. *)
Definition predictions (estimates : EstimatedLimits)
    (current_usage burn_rates : metric -> option Q) : Predictions :=
  let p := predict_metric estimates current_usage burn_rates in
  let factor := min_metric p in
  {| pred_tokens := p tokens;
     pred_messages := p messages;
     pred_prompts := p prompts;
     limiting_factor := factor;
     time_to_limit := p factor |}.

Definition predict_limit_times (e : BayesianLimitEstimator)
    (current_usage burn_rates : metric -> option Q) : result Predictions :=
  estimates <- get_estimated_limits e ;;
  Ok (predictions estimates current_usage burn_rates).

End Estimator.

End BayesianLimits.

(** ** claude_code_reader.py *)

Module Reader.

(** A naive [datetime], in microseconds; a [timedelta] is a difference. *)
Definition datetime : Set := Z.

Definition SECOND : Z := 1000000.
Definition MINUTE : Z := 60 * SECOND.
Definition HOUR : Z := 3600 * SECOND.
Definition DAY : Z := 24 * HOUR.

(** [timedelta(hours=h)] for an [int] [h]. *)
Definition timedelta_hours (h : Z) : Z := h * HOUR.

(** [round(x)]: the nearest integer, a tie going to the even one. *)
Definition round_half_even (x : Q) : Z :=
  let f := Qfloor x in
  let r := (x - inject_Z f)%Q in
  if Qltb r (1 # 2) then f
  else if Qltb (1 # 2) r then f + 1
  else if Z.even f then f else f + 1.

(** [timedelta(hours=h)] for a number [h] read from the configuration, an
    [int] or a [float], which the code does not validate: a whole number
    of microseconds, the nearest one. *)
Definition timedelta_of_hours (h : Q) : Z := round_half_even (h * inject_Z HOUR).

(** [timedelta.total_seconds()] *)
Definition total_seconds (d : Z) : Q := (inject_Z d / inject_Z SECOND)%Q.

(** [_round_to_hour]: [timestamp.replace(minute=0, second=0, microsecond=0)] *)
Definition _round_to_hour (timestamp : datetime) : datetime :=
  timestamp - timestamp mod HOUR.

(** [now.replace(hour=0, minute=0, second=0, microsecond=0)] *)
Definition midnight (now : datetime) : datetime :=
  now - now mod DAY.

(** *** Log records *)

(** The [usage] dictionary: the four counters the code reads, and whether
    the dictionary holds any other key (which makes it truthy). *)
Record Usage : Set := {
  u_input_tokens : option Z;
  u_output_tokens : option Z;
  u_cache_creation_input_tokens : option Z;
  u_cache_read_input_tokens : option Z;
  u_other_keys : bool
}.

Definition no_usage : Usage :=
  {| u_input_tokens := None; u_output_tokens := None;
     u_cache_creation_input_tokens := None; u_cache_read_input_tokens := None;
     u_other_keys := false |}.

(** [usage.get(key, 0)] *)
Definition get0 (o : option Z) : Z :=
  match o with Some v => v | None => 0 end.

Definition is_some {A : Type} (o : option A) : bool :=
  match o with Some _ => true | None => false end.

(** [not usage]: the dictionary is empty. *)
Definition usage_empty (u : Usage) : bool :=
  negb (is_some (u_input_tokens u) || is_some (u_output_tokens u)
        || is_some (u_cache_creation_input_tokens u)
        || is_some (u_cache_read_input_tokens u) || u_other_keys u).

(** The first element of a [content] list. *)
Inductive content_item : Set :=
| ItemDict (item_type : option string) (item_text : option string)
| ItemOther.

(** [message.content] *)
Inductive content : Set :=
| ContentAbsent
| ContentStr (s : string)
| ContentList (items : list content_item)
| ContentOther.

Record Message : Set := {
  msg_id : option string;
  msg_model : option string;
  msg_usage : Usage;
  msg_content : content
}.

(** One parsed log line, [json.loads(line)].  [raw_timestamp] is [None]
    when the field is absent, empty, or rejected by [fromisoformat]. *)
Record RawEntry : Set := {
  raw_message_id : option string;
  raw_requestId : option string;
  raw_request_id : option string;
  raw_timestamp : option datetime;
  raw_type : option string;
  raw_message : Message
}.

(** One line of a log file. *)
Inductive Line : Set :=
| Blank
| Malformed
| Parsed (r : RawEntry).

(** The dictionary appended to [entries] by [_load_usage_entries]. *)
Record Entry : Set := {
  timestamp : datetime;
  model : string;
  usage : Usage;
  message_id : option string;
  request_id : option string;
  entry_type : string;
  raw : RawEntry
}.

(** Truthiness of an optional string, and [a or b]. *)
Definition truthy (o : option string) : bool :=
  match o with
  | Some s => negb (String.eqb s "")
  | None => false
  end.

Definition py_or (a b : option string) : option string :=
  if truthy a then a else b.

Definition str_of (o : option string) : string :=
  match o with Some s => s | None => "" end.

(** The deduplication hash of a record, when both identifiers are truthy. *)
Definition unique_hash (r : RawEntry) : option string :=
  let message_id := py_or (raw_message_id r) (msg_id (raw_message r)) in
  let request_id := py_or (raw_requestId r) (raw_request_id r) in
  if truthy message_id && truthy request_id
  then Some (str_of message_id ++ ":" ++ str_of request_id)%string
  else None.

Definition mem_string (s : string) (l : list string) : bool :=
  existsb (String.eqb s) l.

Definition positive_counter (o : option Z) : bool := 0 <? get0 o.

(** Lines 165-193: the checks after the dedup bookkeeping.  [Some entry]
    when the record is stored. *)
Definition normalize (cutoff_time : option datetime) (r : RawEntry) : option Entry :=
  match raw_timestamp r with
  | None => None
  | Some ts =>
      let too_old := match cutoff_time with Some c => ts <? c | None => false end in
      if too_old then None
      else
        let ty := match raw_type r with Some t => t | None => "unknown"%string end in
        let u := msg_usage (raw_message r) in
        if String.eqb ty "assistant" && usage_empty u then None
        else if String.eqb ty "assistant"
                && negb (positive_counter (u_input_tokens u)
                         || positive_counter (u_output_tokens u)
                         || positive_counter (u_cache_creation_input_tokens u)
                         || positive_counter (u_cache_read_input_tokens u))
        then None
        else Some {| timestamp := ts;
                     model := match msg_model (raw_message r) with
                              | Some m => m | None => "unknown"%string end;
                     usage := u;
                     message_id := py_or (raw_message_id r) (msg_id (raw_message r));
                     request_id := py_or (raw_requestId r) (raw_request_id r);
                     entry_type := ty;
                     raw := r |}
  end.

(** One iteration of [for line in f]: the state is [seen_hashes] and
    [entries]. *)
Definition process_line (cutoff_time : option datetime)
    (st : list string * list Entry) (line : Line) : list string * list Entry :=
  let '(seen_hashes, entries) := st in
  match line with
  | Blank => st
  | Malformed => st
  | Parsed r =>
      match unique_hash r with
      | Some h =>
          if mem_string h seen_hashes then st
          else
            match normalize cutoff_time r with
            | Some e => (h :: seen_hashes, entries ++ [e])
            | None => (h :: seen_hashes, entries)
            end
      | None =>
          match normalize cutoff_time r with
          | Some e => (seen_hashes, entries ++ [e])
          | None => st
          end
      end
  end.

Definition process_file (cutoff_time : option datetime)
    (st : list string * list Entry) (file : list Line) : list string * list Entry :=
  fold_left (process_line cutoff_time) file st.

(** [entries.sort(key=lambda e: e['timestamp'])], a stable sort. *)
Fixpoint insert_entry (e : Entry) (l : list Entry) : list Entry :=
  match l with
  | [] => [e]
  | x :: l' =>
      if timestamp e <=? timestamp x then e :: l else x :: insert_entry e l'
  end.

Definition sort_entries (l : list Entry) : list Entry :=
  fold_right insert_entry [] l.

(** [_load_usage_entries]: [files] are the lines of the [*.jsonl] files in
    the order [rglob] lists them. *)
Definition _load_usage_entries (now : datetime) (files : list (list Line))
    (hours_back : option Z) : list Entry :=
  let cutoff_time :=
    match hours_back with
    | Some h => if h =? 0 then None else Some (now - timedelta_hours h)
    | None => None
    end in
  sort_entries (snd (fold_left (process_file cutoff_time) files ([], []))).


(** *** Session blocks *)

(** One value of [per_model_stats]. *)
Record ModelStats : Set := {
  ms_input_tokens : Z;
  ms_output_tokens : Z;
  ms_cache_creation_tokens : Z;
  ms_cache_read_tokens : Z;
  ms_cost_usd : Q;
  ms_entries_count : Z
}.

(** [SessionBlock].  [id] is the datetime whose [isoformat()] the code
    stores; [per_model_stats] keeps the insertion order of the dict. *)
Record SessionBlock : Set := {
  id : datetime;
  start_time : datetime;
  end_time : datetime;
  actual_end_time : option datetime;
  is_active : bool;
  is_gap : bool;
  input_tokens : Z;
  output_tokens : Z;
  cache_creation_tokens : Z;
  cache_read_tokens : Z;
  total_tokens : Z;
  cost_usd : Q;
  entries : list Entry;
  models : list string;
  per_model_stats : list (string * ModelStats);
  sent_messages_count : Z;
  user_prompt_count : Z;
  assistant_message_count : Z;
  multiplication_factor : Q;
  prompt_timestamps : list datetime
}.

(** [SessionBlock.__init__] *)
Definition new_block (start_time end_time block_id : datetime) : SessionBlock :=
  {| id := block_id; start_time := start_time; end_time := end_time;
     actual_end_time := None; is_active := false; is_gap := false;
     input_tokens := 0; output_tokens := 0;
     cache_creation_tokens := 0; cache_read_tokens := 0; total_tokens := 0;
     cost_usd := 0.0; entries := []; models := []; per_model_stats := [];
     sent_messages_count := 0;
     user_prompt_count := 0; assistant_message_count := 0;
     multiplication_factor := 7.7;
     prompt_timestamps := [] |}.

(** [block.entries.append(entry)] *)
Definition append_entry (b : SessionBlock) (e : Entry) : SessionBlock :=
  {| id := id b; start_time := start_time b; end_time := end_time b;
     actual_end_time := actual_end_time b; is_active := is_active b; is_gap := is_gap b;
     input_tokens := input_tokens b; output_tokens := output_tokens b;
     cache_creation_tokens := cache_creation_tokens b;
     cache_read_tokens := cache_read_tokens b; total_tokens := total_tokens b;
     cost_usd := cost_usd b; entries := entries b ++ [e]; models := models b;
     per_model_stats := per_model_stats b;
     sent_messages_count := sent_messages_count b;
     user_prompt_count := user_prompt_count b;
     assistant_message_count := assistant_message_count b;
     multiplication_factor := multiplication_factor b;
     prompt_timestamps := prompt_timestamps b |}.

(** [block.user_prompt_count += 1; block.prompt_timestamps.append(...)] *)
Definition count_prompt (b : SessionBlock) (ts : datetime) : SessionBlock :=
  {| id := id b; start_time := start_time b; end_time := end_time b;
     actual_end_time := actual_end_time b; is_active := is_active b; is_gap := is_gap b;
     input_tokens := input_tokens b; output_tokens := output_tokens b;
     cache_creation_tokens := cache_creation_tokens b;
     cache_read_tokens := cache_read_tokens b; total_tokens := total_tokens b;
     cost_usd := cost_usd b; entries := entries b; models := models b;
     per_model_stats := per_model_stats b;
     sent_messages_count := sent_messages_count b;
     user_prompt_count := user_prompt_count b + 1;
     assistant_message_count := assistant_message_count b;
     multiplication_factor := multiplication_factor b;
     prompt_timestamps := prompt_timestamps b ++ [ts] |}.

(** [block.assistant_message_count += 1] *)
Definition count_assistant (b : SessionBlock) : SessionBlock :=
  {| id := id b; start_time := start_time b; end_time := end_time b;
     actual_end_time := actual_end_time b; is_active := is_active b; is_gap := is_gap b;
     input_tokens := input_tokens b; output_tokens := output_tokens b;
     cache_creation_tokens := cache_creation_tokens b;
     cache_read_tokens := cache_read_tokens b; total_tokens := total_tokens b;
     cost_usd := cost_usd b; entries := entries b; models := models b;
     per_model_stats := per_model_stats b;
     sent_messages_count := sent_messages_count b;
     user_prompt_count := user_prompt_count b;
     assistant_message_count := assistant_message_count b + 1;
     multiplication_factor := multiplication_factor b;
     prompt_timestamps := prompt_timestamps b |}.

(** [block.end_time = t] *)
Definition set_end_time (b : SessionBlock) (t : datetime) : SessionBlock :=
  {| id := id b; start_time := start_time b; end_time := t;
     actual_end_time := actual_end_time b; is_active := is_active b; is_gap := is_gap b;
     input_tokens := input_tokens b; output_tokens := output_tokens b;
     cache_creation_tokens := cache_creation_tokens b;
     cache_read_tokens := cache_read_tokens b; total_tokens := total_tokens b;
     cost_usd := cost_usd b; entries := entries b; models := models b;
     per_model_stats := per_model_stats b;
     sent_messages_count := sent_messages_count b;
     user_prompt_count := user_prompt_count b;
     assistant_message_count := assistant_message_count b;
     multiplication_factor := multiplication_factor b;
     prompt_timestamps := prompt_timestamps b |}.

(** [block.is_active = a] *)
Definition set_is_active (b : SessionBlock) (a : bool) : SessionBlock :=
  {| id := id b; start_time := start_time b; end_time := end_time b;
     actual_end_time := actual_end_time b; is_active := a; is_gap := is_gap b;
     input_tokens := input_tokens b; output_tokens := output_tokens b;
     cache_creation_tokens := cache_creation_tokens b;
     cache_read_tokens := cache_read_tokens b; total_tokens := total_tokens b;
     cost_usd := cost_usd b; entries := entries b; models := models b;
     per_model_stats := per_model_stats b;
     sent_messages_count := sent_messages_count b;
     user_prompt_count := user_prompt_count b;
     assistant_message_count := assistant_message_count b;
     multiplication_factor := multiplication_factor b;
     prompt_timestamps := prompt_timestamps b |}.

(** *** Prompt classification *)

Definition is_tool_result (c : content) : bool :=
  match c with
  | ContentList (ItemDict (Some t) _ :: _) => String.eqb t "tool_result"
  | _ => false
  end.

Definition text_content (c : content) : string :=
  match c with
  | ContentList (ItemDict _ (Some t) :: _) => t
  | ContentStr s => s
  | _ => ""%string
  end.

Definition skip_patterns : list string :=
  [ "[Request interrupted";
    "(no content)";
    "Caveat: The messages below";
    "<user-memory-input>";
    "This session is being continued from a previous conversation";
    "Analysis:";
    "Summary:";
    "Key technical patterns:";
    "Important errors and fixes:";
    "Looking at this conversation";
    "Primary Request and Intent:";
    "Files and Code Sections:";
    "Problem Solving:";
    "Pending Tasks:";
    "Current Work:";
    "Optional Next Step:";
    "[Request interrupted" ]%string.

(** [str.isspace] on the code points below 256. *)
Definition is_space (c : ascii) : bool :=
  let n := nat_of_ascii c in
  ((9 <=? n) && (n <=? 13) || (28 <=? n) && (n <=? 32)
   || (n =? 133) || (n =? 160))%nat.

(** [bool(text.strip())] *)
Definition strip_nonempty (s : string) : bool :=
  existsb (fun c => negb (is_space c)) (list_ascii_of_string s).

(** Lines 337-340: the text is counted as a user prompt. *)
Definition is_user_text (text : string) : bool :=
  negb (String.eqb text "")
  && strip_nonempty text
  && negb (existsb (fun skip => String.prefix skip text) skip_patterns)
  && (String.length text <? 500)%nat.

(** *** The reader *)

(** [config.get_model_pricing(model)], rates per million tokens. *)
Record Pricing : Set := {
  price_input : Q;
  price_output : Q;
  price_cache_creation : Q;
  price_cache_read : Q
}.

Definition empty_stats : ModelStats :=
  {| ms_input_tokens := 0; ms_output_tokens := 0;
     ms_cache_creation_tokens := 0; ms_cache_read_tokens := 0;
     ms_cost_usd := 0.0; ms_entries_count := 0 |}.

Definition add_stats (i o cc cr : Z) (cost : Q) (s : ModelStats) : ModelStats :=
  {| ms_input_tokens := ms_input_tokens s + i;
     ms_output_tokens := ms_output_tokens s + o;
     ms_cache_creation_tokens := ms_cache_creation_tokens s + cc;
     ms_cache_read_tokens := ms_cache_read_tokens s + cr;
     ms_cost_usd := ms_cost_usd s + cost;
     ms_entries_count := ms_entries_count s + 1 |}.

(** [d[key] = f(d[key])] on an insertion-ordered dict, the key being
    inserted with [empty_stats] first when it is new. *)
Fixpoint update_stats (key : string) (f : ModelStats -> ModelStats)
    (d : list (string * ModelStats)) : list (string * ModelStats) :=
  match d with
  | [] => [(key, f empty_stats)]
  | (k, v) :: d' =>
      if String.eqb k key then (k, f v) :: d'
      else (k, v) :: update_stats key f d'
  end.

Section WithConfig.

(** The collaborators read from the configuration, which is not part of
    the analytics core: the pricing table, the session duration in hours
    ([session_duration_hours], 5 by default, any number the configuration
    file holds) and the cache duration as a [timedelta]. *)
Variable get_model_pricing : string -> Pricing.
Variable session_duration_hours : Q.
Variable _blocks_cache_duration : Z.

(** Lines 352-403 of [_add_entry_to_block]: token, cost and per-model
    aggregation. *)
Definition aggregate_usage (b : SessionBlock) (e : Entry) : SessionBlock :=
  let u := usage e in
  if usage_empty u then b
  else
    let m := model e in
    let i := get0 (u_input_tokens u) in
    let o := get0 (u_output_tokens u) in
    let cc := get0 (u_cache_creation_input_tokens u) in
    let cr := get0 (u_cache_read_input_tokens u) in
    let pricing := get_model_pricing m in
    let item_cost :=
      (inject_Z i / 1000000 * price_input pricing
       + inject_Z o / 1000000 * price_output pricing
       + inject_Z cc / 1000000 * price_cache_creation pricing
       + inject_Z cr / 1000000 * price_cache_read pricing)%Q in
    {| id := id b; start_time := start_time b; end_time := end_time b;
       actual_end_time := actual_end_time b; is_active := is_active b;
       is_gap := is_gap b;
       input_tokens := input_tokens b + i;
       output_tokens := output_tokens b + o;
       cache_creation_tokens := cache_creation_tokens b + cc;
       cache_read_tokens := cache_read_tokens b + cr;
       total_tokens := (input_tokens b + i) + (output_tokens b + o);
       cost_usd := cost_usd b + item_cost;
       entries := entries b;
       models := if mem_string m (models b) then models b else models b ++ [m];
       per_model_stats := update_stats m (add_stats i o cc cr item_cost) (per_model_stats b);
       sent_messages_count := sent_messages_count b;
       user_prompt_count := user_prompt_count b;
       assistant_message_count := assistant_message_count b;
       multiplication_factor := multiplication_factor b;
       prompt_timestamps := prompt_timestamps b |}.

(** [_add_entry_to_block] *)
Definition _add_entry_to_block (now : datetime) (block : SessionBlock) (entry : Entry)
  : SessionBlock :=
  let block := append_entry block entry in
  if String.eqb (entry_type entry) "user" then
    let content := msg_content (raw_message (raw entry)) in
    if is_tool_result content then aggregate_usage block entry
    else if is_active block && (timestamp entry <? midnight now) then
      (* Skip entries from previous days: exit this function early *)
      block
    else if is_user_text (text_content content) then
      aggregate_usage (count_prompt block (timestamp entry)) entry
    else aggregate_usage block entry
  else if String.eqb (entry_type entry) "assistant" then
    aggregate_usage (count_assistant block) entry
  else aggregate_usage block entry.

(** The loop of [_create_session_blocks]: [blocks] holds the blocks before
    [current_block], which aliases the last element of the Python list. *)
Fixpoint create_loop (now : datetime) (entries : list Entry)
    (blocks : list SessionBlock) (current_block : option SessionBlock)
  : list SessionBlock :=
  match entries with
  | [] =>
      match current_block with
      | Some b => blocks ++ [b]
      | None => blocks
      end
  | entry :: rest =>
      let start_time := _round_to_hour (timestamp entry) in
      let fresh :=
        new_block start_time (start_time + timedelta_of_hours session_duration_hours)
                  start_time in
      match current_block with
      | None =>
          create_loop now rest blocks (Some (_add_entry_to_block now fresh entry))
      | Some b =>
          if timestamp entry >=? end_time b
          then create_loop now rest (blocks ++ [b])
                           (Some (_add_entry_to_block now fresh entry))
          else create_loop now rest blocks (Some (_add_entry_to_block now b entry))
      end
  end.

(** Lines 255-269: the finalisation of one block. *)
Definition finalize_block (now : datetime) (b : SessionBlock) : SessionBlock :=
  match entries b with
  | [] => b
  | e0 :: _ =>
      {| id := id b; start_time := start_time b; end_time := end_time b;
         actual_end_time := Some (timestamp (last (entries b) e0));
         is_active := if now <? end_time b then true else is_active b;
         is_gap := is_gap b;
         input_tokens := input_tokens b; output_tokens := output_tokens b;
         cache_creation_tokens := cache_creation_tokens b;
         cache_read_tokens := cache_read_tokens b; total_tokens := total_tokens b;
         cost_usd := cost_usd b; entries := entries b; models := models b;
         per_model_stats := per_model_stats b;
         sent_messages_count := Z.of_nat (length (entries b));
         user_prompt_count := user_prompt_count b;
         assistant_message_count := assistant_message_count b;
         multiplication_factor :=
           if 0 <? user_prompt_count b
           then (inject_Z (assistant_message_count b) / inject_Z (user_prompt_count b))%Q
           else multiplication_factor b;
         prompt_timestamps := prompt_timestamps b |}
  end.

(** [_create_session_blocks] *)
Definition _create_session_blocks (now : datetime) (entries : list Entry)
  : list SessionBlock :=
  map (finalize_block now) (create_loop now entries [] None).

(** [for x in l: if p(x): f(x); break], with [None] when no element
    satisfies [p]. *)
Fixpoint update_first {A : Type} (p : A -> bool) (f : A -> A) (l : list A)
  : option (list A) :=
  match l with
  | [] => None
  | x :: l' =>
      if p x then Some (f x :: l')
      else match update_first p f l' with
           | Some r => Some (x :: r)
           | None => None
           end
  end.

(** [blocks.sort(key=lambda b: b.start_time)], a stable sort. *)
Fixpoint insert_block (b : SessionBlock) (l : list SessionBlock) : list SessionBlock :=
  match l with
  | [] => [b]
  | x :: l' =>
      if start_time b <=? start_time x then b :: l else x :: insert_block b l'
  end.

Definition sort_blocks (l : list SessionBlock) : list SessionBlock :=
  fold_right insert_block [] l.

Definition SESSION_GAP_MINUTES : Q := 5.

(** The entry belongs to the block (lines 486-488). *)
Definition belongs_to (timestamp : datetime) (block : SessionBlock) : bool :=
  (start_time block <=? timestamp) && (timestamp <=? end_time block)
  || is_active block && (start_time block <=? timestamp)
     && (timestamp <=? start_time block + timedelta_hours 5).

(** The entry is close enough to extend the block (lines 504-505). *)
Definition extends (timestamp : datetime) (block : SessionBlock) : bool :=
  let time_since_last := (total_seconds (timestamp - end_time block) / 60)%Q in
  Qltb 0 time_since_last && Qle_bool time_since_last SESSION_GAP_MINUTES.

(** One iteration of the loop of [_merge_new_entries]. *)
Definition merge_entry (now : datetime) (blocks : list SessionBlock) (entry : Entry)
  : list SessionBlock :=
  let ts := timestamp entry in
  let add block :=
    let block := _add_entry_to_block now block entry in
    if end_time block <? ts then set_end_time block ts else block in
  match update_first (belongs_to ts) add blocks with
  | Some blocks' => blocks'
  | None =>
      let extend block := set_end_time (_add_entry_to_block now block entry) ts in
      match update_first (extends ts) extend blocks with
      | Some blocks' => blocks'
      | None =>
          let fresh :=
            new_block ts (ts + timedelta_of_hours session_duration_hours) ts in
          sort_blocks (blocks ++ [_add_entry_to_block now fresh entry])
      end
  end.

(** Lines 528-538: the active status of the last block. *)
Definition update_active (now : datetime) (last_block : SessionBlock) : SessionBlock :=
  if Qltb (total_seconds (now - start_time last_block)) (5 * 3600) then
    let time_since_last_entry := (total_seconds (now - end_time last_block) / 60)%Q in
    if Qltb time_since_last_entry 10 then set_is_active last_block true
    else set_is_active last_block false
  else last_block.

Definition update_last {A : Type} (f : A -> A) (l : list A) : list A :=
  match rev l with
  | [] => l
  | x :: r => rev (f x :: r)
  end.

(** [_merge_new_entries] *)
Definition _merge_new_entries (now : datetime) (blocks : list SessionBlock)
    (new_entries : list Entry) : list SessionBlock :=
  update_last (update_active now) (fold_left (merge_entry now) new_entries blocks).

(** *** The cached reader state *)

Record ClaudeCodeReader : Set := {
  _session_blocks : list SessionBlock;
  _blocks_last_updated : option datetime;
  _full_data_loaded : bool;
  _bounds_calculator : AdaptiveBounds.AdaptiveBoundsCalculator
}.

(** [ClaudeCodeReader.__init__] *)
Definition init : ClaudeCodeReader :=
  {| _session_blocks := [];
     _blocks_last_updated := None;
     _full_data_loaded := false;
     _bounds_calculator := AdaptiveBounds.init 30 |}.

Definition _quick_start_hours : Z := 24.

(** [max((e['timestamp'] for b in blocks for e in b.entries), default=None)] *)
Definition latest_existing (blocks : list SessionBlock) : option datetime :=
  fold_left
    (fun acc e =>
       match acc with
       | None => Some (timestamp e)
       | Some m => if m <? timestamp e then Some (timestamp e) else Some m
       end)
    (concat (map entries blocks)) None.

(** [_update_session_blocks]; [files] is what the log directory holds when
    the call is made. *)
Definition _update_session_blocks (r : ClaudeCodeReader) (now : datetime)
    (files : list (list Line)) (force_refresh : bool) (hours_back : option Z)
  : ClaudeCodeReader :=
  let cache_valid :=
    negb force_refresh && negb (is_some hours_back)
    && match _blocks_last_updated r with
       | Some t => now - t <? _blocks_cache_duration
       | None => false
       end in
  if cache_valid then r
  else
    match hours_back with
    | Some h =>
        {| _session_blocks :=
             _create_session_blocks now (_load_usage_entries now files (Some h));
           _blocks_last_updated := Some now;
           _full_data_loaded := _full_data_loaded r;
           _bounds_calculator := _bounds_calculator r |}
    | None =>
        if negb (_full_data_loaded r) then
          {| _session_blocks :=
               _create_session_blocks now
                 (_load_usage_entries now files (Some _quick_start_hours));
             _blocks_last_updated := Some now;
             _full_data_loaded := true;
             _bounds_calculator := _bounds_calculator r |}
        else
          let cutoff_time := now - timedelta_hours 24 in
          let kept :=
            filter (fun b => (cutoff_time <=? end_time b) || is_active b)
                   (_session_blocks r) in
          let recent_entries := _load_usage_entries now files (Some 1) in
          let new_entries :=
            match latest_existing kept with
            | None => recent_entries
            | Some latest => filter (fun e => latest <? timestamp e) recent_entries
            end in
          {| _session_blocks :=
               match new_entries with
               | [] => kept
               | _ => _merge_new_entries now kept new_entries
               end;
             _blocks_last_updated := Some now;
             _full_data_loaded := true;
             _bounds_calculator := _bounds_calculator r |}
    end.

(** [_get_current_block], after the refresh: the first block whose window
    contains [now]. *)
Definition current_block (blocks : list SessionBlock) (now : datetime)
  : option SessionBlock :=
  find (fun b => (start_time b <=? now) && (now <? end_time b)) blocks.

Definition _get_current_block (r : ClaudeCodeReader) (now : datetime)
    (files : list (list Line)) : option SessionBlock * ClaudeCodeReader :=
  let r := _update_session_blocks r now files false None in
  (current_block (_session_blocks r) now, r).

(** The dictionary returned by [get_current_session_prompts]; a [pattern]
    of [None] is the string ['unknown']. *)
Record SessionPrompts : Set := {
  prompts_used : Z;
  messages_sent : Z;
  sp_multiplication_factor : Q;
  sp_pattern : option AdaptiveBounds.pattern
}.

(** [get_current_session_prompts] *)
Definition get_current_session_prompts (r : ClaudeCodeReader) (now : datetime)
    (files : list (list Line)) : SessionPrompts * ClaudeCodeReader :=
  let '(block, r) := _get_current_block r now files in
  match block with
  | None =>
      ({| prompts_used := 0; messages_sent := 0;
          sp_multiplication_factor := 0; sp_pattern := None |}, r)
  | Some b =>
      ({| prompts_used := user_prompt_count b;
          messages_sent := assistant_message_count b;
          sp_multiplication_factor := multiplication_factor b;
          sp_pattern := Some (AdaptiveBounds.get_current_pattern (_bounds_calculator r)) |},
       r)
  end.

(** *** Burn rate *)

(** The accumulators of [calculate_hourly_burn_rate]. *)
Record Scan : Set := {
  hourly_input : Z;
  hourly_output : Z;
  entries_in_hour : Z;
  earliest_entry : option datetime;
  latest_entry : option datetime
}.

Definition scan0 : Scan :=
  {| hourly_input := 0; hourly_output := 0; entries_in_hour := 0;
     earliest_entry := None; latest_entry := None |}.

Definition scan_entry (since : datetime) (s : Scan) (e : Entry) : Scan :=
  if since <=? timestamp e then
    {| hourly_input := hourly_input s + get0 (u_input_tokens (usage e));
       hourly_output := hourly_output s + get0 (u_output_tokens (usage e));
       entries_in_hour := entries_in_hour s + 1;
       earliest_entry :=
         match earliest_entry s with
         | None => Some (timestamp e)
         | Some t => if timestamp e <? t then Some (timestamp e) else Some t
         end;
       latest_entry :=
         match latest_entry s with
         | None => Some (timestamp e)
         | Some t => if t <? timestamp e then Some (timestamp e) else Some t
         end |}
  else s.

Definition scan_block (since : datetime) (s : Scan) (b : SessionBlock) : Scan :=
  if (end_time b <? since) && negb (is_active b) then s
  else fold_left (scan_entry since) (entries b) s.

Definition scan_blocks (since : datetime) (blocks : list SessionBlock) (s : Scan) : Scan :=
  fold_left (scan_block since) blocks s.

(** Lines 663-686 of [calculate_hourly_burn_rate]: the rate from the
    accumulators. *)
Definition rate_of_scan (s : Scan) : Q :=
  let hourly_tokens := hourly_input s + hourly_output s in
  match earliest_entry s, latest_entry s with
  | Some earliest, Some latest =>
      if entries_in_hour s =? 0 then 0%Q
      else
        let time_span_minutes := (total_seconds (latest - earliest) / 60)%Q in
        if Qltb time_span_minutes 5 then
          if (0 <? hourly_tokens) && Qltb 1 time_span_minutes
          then (inject_Z hourly_tokens / time_span_minutes)%Q
          else 0%Q
        else (inject_Z hourly_tokens / time_span_minutes)%Q
  | _, _ => 0%Q
  end.

(** Lines 609-686 of [calculate_hourly_burn_rate]: tokens per minute from
    the refreshed blocks. *)
Definition hourly_burn_rate (blocks : list SessionBlock) (now : datetime) : Q :=
  let s := scan_blocks (now - timedelta_hours 1) blocks scan0 in
  let s :=
    if entries_in_hour s =? 0
    then scan_blocks (now - timedelta_hours 2) blocks s
    else s in
  rate_of_scan s.

(** [calculate_hourly_burn_rate] *)
Definition calculate_hourly_burn_rate (r : ClaudeCodeReader) (now : datetime)
    (files : list (list Line)) : Q * ClaudeCodeReader :=
  let r := _update_session_blocks r now files false None in
  (hourly_burn_rate (_session_blocks r) now, r).

(** [update_bounds_calculator]: the loop over the entries of one block,
    with the counter [current_messages]. *)
Fixpoint count_messages (calc : AdaptiveBounds.AdaptiveBoundsCalculator)
    (current_messages : Z) (entries : list Entry)
  : AdaptiveBounds.AdaptiveBoundsCalculator :=
  match entries with
  | [] =>
      if 0 <? current_messages
      then AdaptiveBounds.add_prompt calc current_messages
      else calc
  | entry :: rest =>
      if String.eqb (entry_type entry) "user" then
        if negb (is_tool_result (msg_content (raw_message (raw entry))))
           && (0 <? current_messages)
        then count_messages (AdaptiveBounds.add_prompt calc current_messages) 0 rest
        else count_messages calc current_messages rest
      else if String.eqb (entry_type entry) "assistant" then
        count_messages calc (current_messages + 1) rest
      else count_messages calc current_messages rest
  end.

Definition update_bounds_calculator (r : ClaudeCodeReader) (now : datetime)
  : ClaudeCodeReader :=
  let cutoff := now - timedelta_hours 24 in
  let recent_blocks := filter (fun b => cutoff <=? start_time b) (_session_blocks r) in
  {| _session_blocks := _session_blocks r;
     _blocks_last_updated := _blocks_last_updated r;
     _full_data_loaded := _full_data_loaded r;
     _bounds_calculator :=
       fold_left (fun calc b => count_messages calc 0 (entries b))
                 recent_blocks (_bounds_calculator r) |}.

(** [get_prompt_bounds]; [plan_message_limit] is the lookup of the plan's
    [message_limit] in the configuration, 900 when it is absent. *)
Definition get_prompt_bounds (np_sqrt : Q -> Q) (plan_message_limit : string -> Z)
    (r : ClaudeCodeReader) (now : datetime)
    (plan_name : string) (prompts_used : Z) (confidence : Q)
  : result AdaptiveBounds.PromptBounds * ClaudeCodeReader :=
  let r := update_bounds_calculator r now in
  (AdaptiveBounds.calculate_bounds np_sqrt (_bounds_calculator r)
     (plan_message_limit plan_name) prompts_used confidence, r).

(** The reader states the program can be in: a fresh reader, refreshed
    and fed to the bounds calculator any number of times. *)
Inductive reachable : ClaudeCodeReader -> Prop :=
| reachable_init : reachable init
| reachable_refresh (r : ClaudeCodeReader) (now : datetime) (files : list (list Line))
    (force_refresh : bool) (hours_back : option Z) :
    reachable r ->
    reachable (_update_session_blocks r now files force_refresh hours_back)
| reachable_bounds (r : ClaudeCodeReader) (now : datetime) :
    reachable r -> reachable (update_bounds_calculator r now).

(** *** Queries on the blocks *)

(** [sorted(l)] on datetimes. *)
Fixpoint insert_time (t : datetime) (l : list datetime) : list datetime :=
  match l with
  | [] => [t]
  | x :: l' => if t <=? x then t :: l else x :: insert_time t l'
  end.

Definition sort_times (l : list datetime) : list datetime :=
  fold_right insert_time [] l.

(** The slice [l[-n:]] for any integer [n]: the last [n] elements when
    [n] is positive, the whole list when it is 0, and [l[|n|:]] when it is
    negative. *)
Definition slice_last {A : Type} (n : Z) (l : list A) : list A :=
  if 0 <? n then last_n (Z.to_nat n) l else skipn (Z.to_nat (- n)) l.

(** [SessionBlock.get_moving_average_prompt_rate]: prompts per hour, or
    [None]. *)
Definition get_moving_average_prompt_rate (b : SessionBlock) (window_size : Z)
  : option Q :=
  if (length (prompt_timestamps b) <? 2)%nat then None
  else
    let recent_timestamps := slice_last window_size (sort_times (prompt_timestamps b)) in
    if (length recent_timestamps <? 2)%nat then None
    else
      let time_span := last recent_timestamps 0 - hd 0 recent_timestamps in
      let hours_span := (total_seconds time_span / 3600)%Q in
      if Qle_bool hours_span 0 then None
      else Some (inject_Z (Z.of_nat (length recent_timestamps)) / hours_span)%Q.

(** [self.actual_end_time or self.end_time] *)
Definition effective_end (b : SessionBlock) : datetime :=
  match actual_end_time b with
  | Some t => t
  | None => end_time b
  end.

(** [SessionBlock.duration_minutes] *)
Definition duration_minutes (now : datetime) (b : SessionBlock) : Q :=
  let end_ := if is_active b then now else effective_end b in
  (total_seconds (end_ - start_time b) / 60)%Q.

(** The entries counted by ['raw' in entry and entry['raw'].get('type') == 'user']. *)
Definition raw_user (e : Entry) : bool :=
  match raw_type (raw e) with
  | Some t => String.eqb t "user"
  | None => false
  end.

(** [calculate_historical_prompt_rate]: the two accumulators, then the
    rate when more than half an hour was seen.  [total_hours] starts as
    the [int] 0 and grows by floats: [float_add] is the addition of two
    doubles and [float_div] their division, both rounded by the machine
    ([Qplus] and [Qdiv] are the exact operations). *)
Definition historical_totals (float_add float_div : Q -> Q -> Q) (cutoff : datetime)
    (blocks : list SessionBlock) : Z * Q :=
  fold_left
    (fun (acc : Z * Q) block =>
       let '(total_prompts, total_hours) := acc in
       if (cutoff <=? start_time block) && negb (is_gap block) then
         let user_prompts := Z.of_nat (length (filter raw_user (entries block))) in
         if 0 <? user_prompts then
           let duration_hours :=
             float_div (total_seconds (effective_end block - start_time block)) 3600%Q in
           (total_prompts + user_prompts, float_add total_hours duration_hours)
         else acc
       else acc)
    blocks (0, 0%Q).

Definition calculate_historical_prompt_rate (float_add float_div : Q -> Q -> Q)
    (r : ClaudeCodeReader) (now : datetime) (hours_back : Z) : option Q :=
  let cutoff := now - timedelta_hours hours_back in
  let '(total_prompts, total_hours) :=
    historical_totals float_add float_div cutoff (_session_blocks r) in
  if Qltb 0.5 total_hours then Some (float_div (inject_Z total_prompts) total_hours)
  else None.

(** [get_5hour_window_tokens] *)
Definition get_5hour_window_tokens (r : ClaudeCodeReader) (now : datetime)
    (files : list (list Line)) : Z * ClaudeCodeReader :=
  let '(block, r) := _get_current_block r now files in
  match block with
  | None => (0, r)
  | Some b => (total_tokens b, r)
  end.

(** [get_live_output_tokens] *)
Definition get_live_output_tokens (r : ClaudeCodeReader) (now : datetime)
    (files : list (list Line)) : Z * ClaudeCodeReader :=
  let '(block, r) := _get_current_block r now files in
  match block with
  | None => (0, r)
  | Some b => if is_active b then (output_tokens b, r) else (0, r)
  end.

(** One element of the list returned by [get_session_history]. *)
Record SessionInfo : Set := {
  info_start_time : datetime;
  info_messages_sent : Z;
  info_entry_count : nat
}.

(** [get_session_history] *)
Definition get_session_history (now : datetime) (files : list (list Line))
    (days_back : Z) : list SessionInfo :=
  let entries_ := _load_usage_entries now files (Some (days_back * 24)) in
  let session_blocks := _create_session_blocks now entries_ in
  flat_map
    (fun block =>
       match entries block with
       | [] => []
       | _ =>
           [{| info_start_time := start_time block;
               info_messages_sent := user_prompt_count block + assistant_message_count block;
               info_entry_count := length (entries block) |}]
       end)
    session_blocks.

(** The dictionary returned by [get_historical_session_maximums]. *)
Record SessionMaximums : Set := {
  hist_max_tokens : Z;
  hist_max_messages : Z;
  hist_max_prompts : Z;
  hist_days_analyzed : Z;
  hist_sessions_analyzed : Z
}.

(** The loop of [get_historical_session_maximums] over the completed
    sessions. *)
Definition scan_maximums (days_back : Z) (blocks : list SessionBlock) : SessionMaximums :=
  fold_left
    (fun acc block =>
       if is_active block || is_gap block then acc
       else
         {| hist_max_tokens := Zpy_max (hist_max_tokens acc) (total_tokens block);
            hist_max_messages := Zpy_max (hist_max_messages acc) (sent_messages_count block);
            hist_max_prompts := Zpy_max (hist_max_prompts acc) (user_prompt_count block);
            hist_days_analyzed := days_back;
            hist_sessions_analyzed := hist_sessions_analyzed acc + 1 |})
    blocks
    {| hist_max_tokens := 0; hist_max_messages := 0; hist_max_prompts := 0;
       hist_days_analyzed := days_back; hist_sessions_analyzed := 0 |}.

(** [get_historical_session_maximums]: the blocks are rebuilt for the
    analysis and the previous ones are put back. *)
Definition get_historical_session_maximums (r : ClaudeCodeReader) (now : datetime)
    (files : list (list Line)) (days_back : Z) : SessionMaximums * ClaudeCodeReader :=
  let old_blocks := _session_blocks r in
  let r := _update_session_blocks r now files true (Some (days_back * 24)) in
  let maximums := scan_maximums days_back (_session_blocks r) in
  (maximums,
   {| _session_blocks := old_blocks;
      _blocks_last_updated := _blocks_last_updated r;
      _full_data_loaded := _full_data_loaded r;
      _bounds_calculator := _bounds_calculator r |}).

(** One value of [model_breakdown] in [get_usage_data]. *)
Record ModelBreakdown : Set := {
  mb_cost : Q;
  mb_input_tokens : Z;
  mb_cache_creation_tokens : Z;
  mb_cache_read_tokens : Z;
  mb_output_tokens : Z;
  mb_requests : Z
}.

Definition empty_breakdown : ModelBreakdown :=
  {| mb_cost := 0.0; mb_input_tokens := 0; mb_cache_creation_tokens := 0;
     mb_cache_read_tokens := 0; mb_output_tokens := 0; mb_requests := 0 |}.

Definition add_breakdown (stats : ModelStats) (m : ModelBreakdown) : ModelBreakdown :=
  {| mb_cost := mb_cost m + ms_cost_usd stats;
     mb_input_tokens := mb_input_tokens m + ms_input_tokens stats;
     mb_cache_creation_tokens := mb_cache_creation_tokens m + ms_cache_creation_tokens stats;
     mb_cache_read_tokens := mb_cache_read_tokens m + ms_cache_read_tokens stats;
     mb_output_tokens := mb_output_tokens m + ms_output_tokens stats;
     mb_requests := mb_requests m + ms_entries_count stats |}.

(** [model_breakdown[model]] updated by [f], the key being inserted with
    zeros first when it is new. *)
Fixpoint update_breakdown (key : string) (f : ModelBreakdown -> ModelBreakdown)
    (d : list (string * ModelBreakdown)) : list (string * ModelBreakdown) :=
  match d with
  | [] => [(key, f empty_breakdown)]
  | (k, v) :: d' =>
      if String.eqb k key then (k, f v) :: d'
      else (k, v) :: update_breakdown key f d'
  end.

(** The dictionary returned by [get_usage_data]; [None] for [since_date]
    is the string ['all']. *)
Record UsageData : Set := {
  total_cost : Q;
  total_input_tokens : Z;
  total_output_tokens : Z;
  total_cache_read_tokens : Z;
  total_cache_creation_tokens : Z;
  data_total_tokens : Z;
  total_tokens_with_cache : Z;
  model_breakdown : list (string * ModelBreakdown);
  session_count : nat;
  file_count : nat;
  data_since_date : option datetime
}.

(** The aggregation loop of [get_usage_data]. *)
Definition merge_breakdown (d : list (string * ModelBreakdown)) (b : SessionBlock)
  : list (string * ModelBreakdown) :=
  fold_left (fun d ms => update_breakdown (fst ms) (add_breakdown (snd ms)) d)
            (per_model_stats b) d.

Definition aggregate_blocks (blocks : list SessionBlock) (since_date : option datetime)
  : UsageData :=
  let sum f := fold_left (fun acc b => acc + f b) blocks 0 in
  let total_input := sum input_tokens in
  let total_output := sum output_tokens in
  let total_cache_read := sum cache_read_tokens in
  let total_cache_creation := sum cache_creation_tokens in
  {| total_cost := fold_left (fun acc b => acc + cost_usd b)%Q blocks 0.0%Q;
     total_input_tokens := total_input;
     total_output_tokens := total_output;
     total_cache_read_tokens := total_cache_read;
     total_cache_creation_tokens := total_cache_creation;
     data_total_tokens := total_input + total_output;
     total_tokens_with_cache :=
       total_input + total_output + total_cache_read + total_cache_creation;
     model_breakdown := fold_left merge_breakdown blocks [];
     session_count := length blocks;
     file_count := length blocks;
     data_since_date := since_date |}.

(** [get_usage_data] *)
Definition get_usage_data (r : ClaudeCodeReader) (now : datetime)
    (files : list (list Line)) (since_date : option datetime)
  : UsageData * ClaudeCodeReader :=
  match since_date with
  | Some since =>
      let hours_needed := Qtruncate (total_seconds (now - since) / 3600) + 24 in
      let r := _update_session_blocks r now files true (Some hours_needed) in
      let blocks :=
        filter (fun b => (since <=? end_time b) || is_active b) (_session_blocks r) in
      (aggregate_blocks blocks since_date, r)
  | None =>
      let r := _update_session_blocks r now files false None in
      (aggregate_blocks (_session_blocks r) since_date, r)
  end.

End WithConfig.

(** *** Notions of the specification *)

(** The window [[start, end)] of a block. *)
Definition in_window (b : SessionBlock) (t : datetime) : Prop :=
  start_time b <= t < end_time b.

Definition windows_disjoint (a b : SessionBlock) : Prop :=
  forall t, ~ (in_window a t /\ in_window b t).

(** A block created for the entry [e] by the block creation rule. *)
Definition created_for (session_duration_hours : Q) (e : Entry) (b : SessionBlock) : Prop :=
  start_time b = _round_to_hour (timestamp e)
  /\ end_time b = start_time b + timedelta_of_hours session_duration_hours.

(** The active status in the words of the specification: the session
    duration has not elapsed since the start, and the last entry is less
    than ten minutes old. *)
Definition active_by_rule (session_duration_hours : Q) (now : datetime)
    (b : SessionBlock) : bool :=
  match rev (entries b) with
  | [] => false
  | e :: _ =>
      (now - start_time b <? timedelta_of_hours session_duration_hours)
      && (now - timestamp e <? 10 * MINUTE)
  end.

(** The multiplication factor of a block without counted prompts. *)
Definition keeps_default_factor (b : SessionBlock) : Prop :=
  0 <= user_prompt_count b
  /\ (user_prompt_count b = 0 -> multiplication_factor b = 7.7%Q).

(** A log line that carries both identifiers, or no record at all. *)
Definition has_ids (l : Line) : Prop :=
  match l with
  | Parsed r => unique_hash r <> None
  | _ => True
  end.

(** The entries of all blocks that are not older than [since]. *)
Definition window_entries (since : datetime) (blocks : list SessionBlock) : list Entry :=
  filter (fun e => since <=? timestamp e) (concat (map entries blocks)).

Definition entry_tokens (e : Entry) : Z :=
  get0 (u_input_tokens (usage e)) + get0 (u_output_tokens (usage e)).

Definition sum_tokens (es : list Entry) : Z :=
  fold_right (fun e acc => entry_tokens e + acc) 0 es.

Definition earliest (t0 : datetime) (es : list Entry) : datetime :=
  fold_right (fun e acc => Z.min (timestamp e) acc) t0 es.

Definition latest (t0 : datetime) (es : list Entry) : datetime :=
  fold_right (fun e acc => Z.max (timestamp e) acc) t0 es.

(** The rate of a set of recent entries: their tokens over their span
    when the span reaches five minutes, or when it exceeds one minute and
    the tokens are positive; zero otherwise. *)
Definition policy_rate (es : list Entry) : Q :=
  match es with
  | [] => 0%Q
  | e :: _ =>
      let tokens := sum_tokens es in
      let span := (total_seconds (latest (timestamp e) es - earliest (timestamp e) es) / 60)%Q in
      if Qle_bool 5 span then (inject_Z tokens / span)%Q
      else if (0 <? tokens) && Qltb 1 span then (inject_Z tokens / span)%Q
      else 0%Q
  end.

(** The burn rate as an ordered fallback policy: the entries of the last
    hour, else those of the last two hours. *)
Definition burn_rate_policy (blocks : list SessionBlock) (now : datetime) : Q :=
  let last_hour := window_entries (now - timedelta_hours 1) blocks in
  policy_rate
    match last_hour with
    | [] => window_entries (now - timedelta_hours 2) blocks
    | _ => last_hour
    end.

(** No entry of the block is later than the end of the block. *)
Definition entries_bounded (b : SessionBlock) : Prop :=
  Forall (fun e => timestamp e <= end_time b) (entries b).

(** The same, for inactive blocks only. *)
Definition entries_within (b : SessionBlock) : Prop :=
  is_active b = true \/ entries_bounded b.

(** The deduplication hash of a stored entry, from the identifiers the
    entry keeps. *)
Definition entry_hash (e : Entry) : option string :=
  if truthy (message_id e) && truthy (request_id e)
  then Some (str_of (message_id e) ++ ":" ++ str_of (request_id e))%string
  else None.

Definition entry_hashes (es : list Entry) : list string :=
  flat_map (fun e => match entry_hash e with Some h => [h] | None => [] end) es.

(** A stored entry that lacks an identifier. *)
Definition unkeyed (e : Entry) : bool :=
  match entry_hash e with
  | Some _ => false
  | None => true
  end.

(** The stored entries whose deduplication hash is [h]. *)
Definition with_hash (h : string) (es : list Entry) : list Entry :=
  filter (fun e => match entry_hash e with
                   | Some k => String.eqb k h
                   | None => false
                   end) es.

(** What a line contributes whenever it is read, whatever has been seen:
    the entry of a record that lacks an identifier and passes the checks. *)
Definition unkeyed_entry (cutoff_time : option datetime) (l : Line) : list Entry :=
  match l with
  | Parsed r =>
      match unique_hash r, normalize cutoff_time r with
      | None, Some e => [e]
      | _, _ => []
      end
  | _ => []
  end.

Definition unkeyed_stored (cutoff_time : option datetime) (lines : list Line)
  : list Entry :=
  flat_map (unkeyed_entry cutoff_time) lines.

(** The orders of the two sorts. *)
Definition by_timestamp (a b : Entry) : Prop := timestamp a <= timestamp b.

Definition by_start_time (a b : SessionBlock) : Prop := start_time a <= start_time b.

(** Some token counter of the usage is positive. *)
Definition has_positive_counter (u : Usage) : Prop :=
  0 < get0 (u_input_tokens u) \/ 0 < get0 (u_output_tokens u)
  \/ 0 < get0 (u_cache_creation_input_tokens u)
  \/ 0 < get0 (u_cache_read_input_tokens u).

Definition is_assistant (e : Entry) : bool := String.eqb (entry_type e) "assistant".

Definition is_user (e : Entry) : bool := String.eqb (entry_type e) "user".

(** Sums over the per-model dictionaries and over blocks. *)
Definition sum_stats (f : ModelStats -> Z) (d : list (string * ModelStats)) : Z :=
  fold_right (fun kv acc => f (snd kv) + acc) 0 d.

Definition sum_breakdown (f : ModelBreakdown -> Z) (d : list (string * ModelBreakdown)) : Z :=
  fold_right (fun kv acc => f (snd kv) + acc) 0 d.

Definition sum_blocks (f : SessionBlock -> Z) (blocks : list SessionBlock) : Z :=
  fold_right (fun b acc => f b + acc) 0 blocks.

(** The books of a block balance: the total is input plus output, there
    is one timestamp per counted prompt, [models] lists the keys of
    [per_model_stats] in order and without repetition, and the per-model
    counters add up to the counters of the block. *)
Definition block_accounts (b : SessionBlock) : Prop :=
  total_tokens b = input_tokens b + output_tokens b
  /\ Z.of_nat (length (prompt_timestamps b)) = user_prompt_count b
  /\ map fst (per_model_stats b) = models b
  /\ NoDup (models b)
  /\ sum_stats ms_input_tokens (per_model_stats b) = input_tokens b
  /\ sum_stats ms_output_tokens (per_model_stats b) = output_tokens b
  /\ sum_stats ms_cache_creation_tokens (per_model_stats b) = cache_creation_tokens b
  /\ sum_stats ms_cache_read_tokens (per_model_stats b) = cache_read_tokens b.

(** The counters of a block that is not active follow its entries. *)
Definition follows_entries (b : SessionBlock) : Prop :=
  is_active b = false
  /\ total_tokens b = sum_tokens (entries b)
  /\ assistant_message_count b = Z.of_nat (length (filter is_assistant (entries b)))
  /\ 0 <= user_prompt_count b <= Z.of_nat (length (filter is_user (entries b))).

(** What a rebuild computes for a block from its entries. *)
Definition block_summarises (b : SessionBlock) : Prop :=
  entries b <> []
  /\ total_tokens b = sum_tokens (entries b)
  /\ assistant_message_count b = Z.of_nat (length (filter is_assistant (entries b)))
  /\ 0 <= user_prompt_count b <= Z.of_nat (length (filter is_user (entries b)))
  /\ sent_messages_count b = Z.of_nat (length (entries b))
  /\ forall d, actual_end_time b = Some (timestamp (last (entries b) d)).

(** The message counts that [update_bounds_calculator] records for the
    entries of one block, [current_messages] being the counter so far:
    the counter is recorded and reset at every prompt of the user that
    finds it positive, and at the end of the block. *)
Fixpoint prompt_message_counts (current_messages : Z) (entries : list Entry) : list Z :=
  match entries with
  | [] => if 0 <? current_messages then [current_messages] else []
  | entry :: rest =>
      if String.eqb (entry_type entry) "user" then
        if negb (is_tool_result (msg_content (raw_message (raw entry))))
           && (0 <? current_messages)
        then current_messages :: prompt_message_counts 0 rest
        else prompt_message_counts current_messages rest
      else if String.eqb (entry_type entry) "assistant" then
        prompt_message_counts (current_messages + 1) rest
      else prompt_message_counts current_messages rest
  end.

(** A user entry that is no tool result: a prompt typed by the user. *)
Definition real_prompt (e : Entry) : bool :=
  String.eqb (entry_type e) "user"
  && negb (is_tool_result (msg_content (raw_message (raw e)))).

(** The counts recorded for the blocks started in the last 24 hours. *)
Definition recorded_counts (now : datetime) (blocks : list SessionBlock) : list Z :=
  flat_map (fun b => prompt_message_counts 0 (entries b))
           (filter (fun b => now - timedelta_hours 24 <=? start_time b) blocks).

(** *** Sample data *)

Definition sample_pricing (m : string) : Pricing :=
  {| price_input := 3; price_output := 15;
     price_cache_creation := 3.75; price_cache_read := 0.3 |}.

Definition sample_usage (i o : Z) : Usage :=
  {| u_input_tokens := Some i; u_output_tokens := Some o;
     u_cache_creation_input_tokens := None; u_cache_read_input_tokens := None;
     u_other_keys := false |}.

(** A log record of the given type, with optional identifiers. *)
Definition sample_record (ids : option (string * string)) (ts : datetime)
    (ty : string) (u : Usage) (c : content) : RawEntry :=
  {| raw_message_id := None;
     raw_requestId := option_map snd ids;
     raw_request_id := None;
     raw_timestamp := Some ts;
     raw_type := Some ty;
     raw_message :=
       {| msg_id := option_map fst ids; msg_model := Some "claude"%string;
          msg_usage := u; msg_content := c |} |}.

(** Noon of some day, as a reference instant. *)
Definition noon : datetime := 20000 * DAY + 12 * HOUR.

(** An assistant response with usage, logged at [ts]. *)
Definition assistant_line (ts : datetime) : Line :=
  Parsed (sample_record None ts "assistant" (sample_usage 600 400) ContentAbsent).

(** A refresh with the default configuration: sessions of five hours and
    a cache of thirty seconds. *)
Definition refresh (r : ClaudeCodeReader) (now : datetime) (files : list (list Line))
  : ClaudeCodeReader :=
  _update_session_blocks sample_pricing 5 (30 * SECOND) r now files false None.

(** A prompt typed by the user, logged at [ts] without identifiers. *)
Definition user_line (ts : datetime) (text : string) : Line :=
  Parsed (sample_record None ts "user" no_usage (ContentStr text)).

(** An assistant response that carries both identifiers. *)
Definition keyed_line (message_id request_id : string) (ts : datetime) : Line :=
  Parsed (sample_record (Some (message_id, request_id)) ts "assistant"
            (sample_usage 600 400) ContentAbsent).

(** A response with the given input and output tokens. *)
Definition response_line (ts : datetime) (i o : Z) : Line :=
  Parsed (sample_record None ts "assistant" (sample_usage i o) ContentAbsent).

(** 1000 tokens in two responses two minutes apart, and thirty seconds
    apart. *)
Definition two_minute_log : list Line :=
  [response_line (noon - 10 * MINUTE) 300 200;
   response_line (noon - 8 * MINUTE) 300 200].

Definition thirty_second_log : list Line :=
  [response_line (noon - 10 * MINUTE) 300 200;
   response_line (noon - 10 * MINUTE + 30 * SECOND) 300 200].

(** A reader started at 09:00 on a log with one response at 08:10. *)
Definition morning_log : list Line := [assistant_line (noon - 4 * HOUR + 10 * MINUTE)].

Definition reader_at_nine : ClaudeCodeReader :=
  refresh init (noon - 3 * HOUR) [morning_log].

(** A reader started the evening before on a log with one response. *)
Definition evening_log : list Line := [assistant_line (noon - 21 * HOUR)].

Definition reader_last_evening : ClaudeCodeReader :=
  refresh init (noon - 20 * HOUR) [evening_log].

(** Two responses of 500 tokens, at 11:10 and at 12:01. *)
Definition fifty_minute_log : list Line :=
  [response_line (noon - 50 * MINUTE) 300 200; response_line (noon + MINUTE) 300 200].

(** Two responses two and a half hours apart, at 10:10 and at 12:40. *)
Definition staggered_log : list Line :=
  [assistant_line (noon - 2 * HOUR + 10 * MINUTE); assistant_line (noon + 40 * MINUTE)].

(** A log with two sessions, at 02:00 and at 10:00. *)
Definition two_session_log : list Line :=
  [assistant_line (noon - 10 * HOUR); assistant_line (noon - 2 * HOUR)].

Definition reader_two_sessions : ClaudeCodeReader :=
  refresh init noon [two_session_log].

(** A prompt at [ts] followed by the given number of responses, one a
    second. *)
Definition exchange (ts : datetime) (text : string) (responses : nat) : list Line :=
  user_line ts text
  :: map (fun i => assistant_line (ts + Z.of_nat (S i) * SECOND)) (seq 0 responses).

(** A busy hour: six prompts with two to four responses each. *)
Definition busy_log : list Line :=
  exchange (noon - 50 * MINUTE) "Fix the parser" 2
  ++ exchange (noon - 40 * MINUTE) "Add a test" 3
  ++ exchange (noon - 30 * MINUTE) "Rename the module" 2
  ++ exchange (noon - 20 * MINUTE) "Explain the failure" 4
  ++ exchange (noon - 10 * MINUTE) "Update the docs" 2
  ++ exchange (noon - 5 * MINUTE) "Run the linter" 3.

Definition reader_busy : ClaudeCodeReader :=
  refresh init noon [busy_log].

End Reader.

(** * Properties *)

(** ** Arithmetic helpers *)

Lemma Qltb_lt (a b : Q) : Qltb a b = true <-> (a < b)%Q.
Proof.
  unfold Qltb. rewrite negb_true_iff.
  split; intro H.
  - apply Qnot_le_lt. intro Hle. apply Qle_bool_iff in Hle. congruence.
  - destruct (Qle_bool b a) eqn:E; [|reflexivity].
    apply Qle_bool_iff in E. exfalso. exact (Qlt_not_le _ _ H E).
Qed.

Lemma Qltb_ge (a b : Q) : Qltb a b = false <-> (b <= a)%Q.
Proof.
  unfold Qltb. rewrite negb_false_iff. apply Qle_bool_iff.
Qed.

Lemma Qeq_bool_false (a b : Q) : ~ (a == b)%Q -> Qeq_bool a b = false.
Proof.
  intro H. destruct (Qeq_bool a b) eqn:E; [|reflexivity].
  apply Qeq_bool_iff in E. contradiction.
Qed.

Lemma py_max_ge_l (a b : Q) : (a <= py_max a b)%Q.
Proof.
  unfold py_max. destruct (Qlt_le_dec a b) as [H|H].
  - apply Qlt_le_weak; exact H.
  - apply Qle_refl.
Qed.

Lemma py_max_nonpos (b : Q) : (b <= 0)%Q -> py_max 0 b = 0%Q.
Proof.
  intro H. unfold py_max. destruct (Qlt_le_dec 0 b) as [Hlt|Hle]; [|reflexivity].
  exfalso. exact (Qlt_not_le _ _ Hlt H).
Qed.

(** ** List helpers *)

Lemma filter_Forall {A : Type} (P : A -> Prop) (p : A -> bool) (l : list A) :
  Forall P l -> Forall P (filter p l).
Proof.
  induction 1 as [|x l Hx Hl IH]; cbn; [constructor|].
  destruct (p x); [constructor|]; assumption.
Qed.

Lemma skipn_Forall {A : Type} (P : A -> Prop) (n : nat) (l : list A) :
  Forall P l -> Forall P (skipn n l).
Proof.
  revert l. induction n as [|n IH]; intros l Hl; cbn; [exact Hl|].
  destruct l as [|x l]; [constructor|]. inversion Hl; subst. apply IH. assumption.
Qed.

Lemma last_n_Forall {A : Type} (P : A -> Prop) (n : nat) (l : list A) :
  Forall P l -> Forall P (last_n n l).
Proof. apply skipn_Forall. Qed.

Lemma Qinsert_Forall (P : Q -> Prop) (x : Q) (l : list Q) :
  P x -> Forall P l -> Forall P (Qinsert x l).
Proof.
  intros Hx. induction 1 as [|y l Hy Hl IH]; cbn.
  - constructor; [exact Hx|constructor].
  - destruct (Qle_bool x y).
    + constructor; [exact Hx|]. constructor; assumption.
    + constructor; assumption.
Qed.

Lemma Qsort_Forall (P : Q -> Prop) (l : list Q) :
  Forall P l -> Forall P (Qsort l).
Proof.
  induction 1 as [|x l Hx Hl IH]; cbn; [constructor|].
  apply Qinsert_Forall; assumption.
Qed.

Lemma Qinsert_length (x : Q) (l : list Q) : length (Qinsert x l) = S (length l).
Proof.
  induction l as [|y l IH]; cbn; [reflexivity|].
  destruct (Qle_bool x y); cbn; [reflexivity|]. rewrite IH. reflexivity.
Qed.

Lemma Qsort_length (l : list Q) : length (Qsort l) = length l.
Proof.
  induction l as [|x l IH]; [reflexivity|].
  change (Qsort (x :: l)) with (Qinsert x (Qsort l)).
  rewrite Qinsert_length, IH. reflexivity.
Qed.

(** The median of numbers that are at least 1 is at least 1. *)
Lemma np_median_ge_one (l : list Q) :
  l <> [] -> Forall (fun x => 1 <= x)%Q l -> (1 <= np_median l)%Q.
Proof.
  intros Hne Hl. unfold np_median.
  assert (Hn : (0 < length l)%nat) by (destruct l; [contradiction|cbn; lia]).
  pose proof (Nat.div_lt (length l) 2 Hn ltac:(lia)) as Hhalf.
  pose proof (proj1 (Forall_nth _ _) (Qsort_Forall _ l Hl)) as Hs.
  rewrite Qsort_length in Hs.
  destruct (Nat.even (length l)).
  - pose proof (Hs (length l / 2 - 1)%nat 0%Q ltac:(lia)) as Ha.
    pose proof (Hs (length l / 2)%nat 0%Q Hhalf) as Hb.
    cbv beta in Ha, Hb.
    apply Qle_shift_div_l; [reflexivity|]. lra.
  - exact (Hs (length l / 2)%nat 0%Q Hhalf).
Qed.

(** ** adaptive_bounds.py *)

Section AdaptiveBoundsFacts.

Import AdaptiveBounds.

Variable np_sqrt : Q -> Q.

(** The multiplier computed by the code is the point estimate of the
    specification, whatever [np.sqrt] and [confidence] are. *)
Lemma derive_multipliers_point_estimate (c : AdaptiveBoundsCalculator) (confidence : Q) :
  fst (fst (derive_multipliers np_sqrt c confidence)) = point_estimate c.
Proof.
  unfold derive_multipliers, point_estimate.
  destruct (length (recent_multipliers c) <? 5)%nat.
  - destruct (get_current_pattern c); reflexivity.
  - destruct (low_variability (get_current_pattern c) && _); [reflexivity|].
    destruct (Qeq_bool confidence 0.8); [reflexivity|].
    destruct (Qeq_bool confidence 0.5); reflexivity.
Qed.

Lemma clamp_lower_nonzero (m : Q) : ~ (clamp_lower m == 0)%Q.
Proof.
  intro H. pose proof (py_max_ge_l 1 (m * 0.9)) as Hge.
  unfold clamp_lower in H. rewrite H in Hge. apply Hge. reflexivity.
Qed.

Lemma clamp_upper_nonzero (m : Q) : ~ (m == 0)%Q -> ~ (clamp_upper m == 0)%Q.
Proof.
  intros Hm H. unfold clamp_upper in H.
  apply Qmult_integral in H. destruct H as [H|H]; [contradiction|discriminate H].
Qed.

Lemma clamp_ordered (m : Q) :
  (10 # 11 <= m)%Q -> Qltb (clamp_upper m) (clamp_lower m) = false.
Proof.
  intro Hm. apply Qltb_ge. unfold clamp_lower, clamp_upper, py_max.
  assert (H0 : (0 <= m)%Q)
    by (apply Qle_trans with (y := (10 # 11)%Q); [discriminate|exact Hm]).
  destruct (Qlt_le_dec 1 (m * 0.9)) as [H|H].
  - rewrite (Qmult_comm m 0.9), (Qmult_comm m 1.1).
    apply Qmult_le_compat_r; [discriminate|exact H0].
  - apply Qle_trans with (y := ((10 # 11) * 1.1)%Q); [discriminate|].
    apply Qmult_le_compat_r; [exact Hm|discriminate].
Qed.

Lemma iqr_filter_Forall (P : Q -> Prop) (recent : list Q) :
  Forall P recent -> Forall P (iqr_filter recent).
Proof.
  intro H. unfold iqr_filter.
  match goal with
  | |- Forall P (match ?f with [] => _ | _ => _ end) =>
      pose proof (filter_Forall P _ recent H : Forall P f) as Hf; destruct f
  end; assumption.
Qed.

Lemma iqr_filter_nonempty (recent : list Q) : recent <> [] -> iqr_filter recent <> [].
Proof.
  intro H. unfold iqr_filter.
  match goal with
  | |- (match ?f with [] => _ | _ => _ end) <> [] => destruct f
  end; [exact H|discriminate].
Qed.

(** Message counts of at least 1, the only ones the reader records, give
    a point estimate of at least 1. *)
Lemma point_estimate_ge_one (c : AdaptiveBoundsCalculator) :
  Forall (fun x => 1 <= x) (recent_multipliers c) -> (1 <= point_estimate c)%Q.
Proof.
  intro Hc. unfold point_estimate.
  destruct (length (recent_multipliers c) <? 5)%nat eqn:E.
  - destruct (get_current_pattern c) as [[]|]; discriminate.
  - apply Nat.ltb_ge in E. apply np_median_ge_one.
    + apply iqr_filter_nonempty. intro H.
      apply (f_equal (@length Q)) in H. unfold last_n in H.
      rewrite length_map, length_skipn in H. cbn in H. lia.
    + apply iqr_filter_Forall, Forall_map, last_n_Forall.
      eapply Forall_impl; [|exact Hc]. cbn. intros z Hz.
      change (inject_Z 1 <= inject_Z z)%Q. rewrite <- Zle_Qle. exact Hz.
Qed.

(** Whatever spread was derived, the multipliers are the clamp of the
    point estimate, exchanged when the swap guard fires. *)
Lemma final_multipliers_clamp (c : AdaptiveBoundsCalculator) (confidence : Q) :
  let m := point_estimate c in
  final_multipliers np_sqrt c confidence
  = if Qltb (clamp_upper m) (clamp_lower m)
    then (m, clamp_upper m, clamp_lower m)
    else (m, clamp_lower m, clamp_upper m).
Proof.
  intro m. unfold final_multipliers.
  pose proof (derive_multipliers_point_estimate c confidence) as Hpe.
  destruct (derive_multipliers np_sqrt c confidence) as [[mult lo] hi].
  simpl in Hpe. subst mult. reflexivity.
Qed.

(** The bounds of [calculate_bounds] when the point estimate is not 0. *)
Lemma calculate_bounds_nonzero
    (c : AdaptiveBoundsCalculator) (message_limit prompts_used : Z) (confidence : Q) :
  let m := point_estimate c in
  ~ (m == 0)%Q ->
  calculate_bounds np_sqrt c message_limit prompts_used confidence =
    if Qltb (clamp_upper m) (clamp_lower m)
    then Ok (bounds_with m (clamp_upper m) (clamp_lower m)
               message_limit prompts_used confidence (get_current_pattern c))
    else Ok (bounds_with m (clamp_lower m) (clamp_upper m)
               message_limit prompts_used confidence (get_current_pattern c)).
Proof.
  intros m Hm. unfold calculate_bounds. rewrite final_multipliers_clamp. fold m.
  assert (Hlo : Qeq_bool (clamp_lower m) 0 = false)
    by (apply Qeq_bool_false, clamp_lower_nonzero).
  assert (Hhi : Qeq_bool (clamp_upper m) 0 = false)
    by (apply Qeq_bool_false, clamp_upper_nonzero; exact Hm).
  assert (Hmm : Qeq_bool m 0 = false) by (apply Qeq_bool_false; exact Hm).
  destruct (Qltb (clamp_upper m) (clamp_lower m));
    unfold int_div, bounds_with; rewrite Hlo, Hhi; simpl;
    destruct (Qltb 0 m); simpl; rewrite ?Hmm; reflexivity.
Qed.

(** The first division of [calculate_bounds] raises when the point
    estimate is 0. *)
Lemma calculate_bounds_zero_estimate
    (c : AdaptiveBoundsCalculator) (message_limit prompts_used : Z) (confidence : Q) :
  (point_estimate c == 0)%Q ->
  calculate_bounds np_sqrt c message_limit prompts_used confidence
  = Raise (if message_limit =? 0 then ValueError else OverflowError).
Proof.
  intro Hm. unfold calculate_bounds. rewrite final_multipliers_clamp.
  unfold clamp_upper, clamp_lower.
  assert (Hup : (point_estimate c * 1.1 == 0)%Q) by (rewrite Hm; reflexivity).
  assert (Hswap : Qltb (point_estimate c * 1.1) (py_max 1 (point_estimate c * 0.9)) = true).
  { apply Qltb_lt. rewrite Hup.
    apply Qlt_le_trans with (y := 1%Q); [reflexivity|apply py_max_ge_l]. }
  rewrite Hswap. unfold int_div.
  apply Qeq_bool_iff in Hup. rewrite Hup.
  destruct (message_limit =? 0); reflexivity.
Qed.

(** The bounds of [calculate_bounds] when the point estimate is at least
    10/11: the swap guard does not fire. *)
Lemma calculate_bounds_clamped
    (c : AdaptiveBoundsCalculator) (message_limit prompts_used : Z) (confidence : Q) :
  let m := point_estimate c in
  (10 # 11 <= m)%Q ->
  calculate_bounds np_sqrt c message_limit prompts_used confidence =
    Ok (bounds_with m (clamp_lower m) (clamp_upper m)
          message_limit prompts_used confidence (get_current_pattern c)).
Proof.
  intros m H. rewrite calculate_bounds_nonzero.
  - fold m. rewrite (clamp_ordered m H). reflexivity.
  - fold m. intro H0. rewrite H0 in H. apply H. reflexivity.
Qed.

(** C1 (as amended): whatever spread was derived, the two multipliers
    the limit is divided by are [max(1.0, 0.9 m)] and [1.1 m] around the
    point estimate [m], for every confidence and every [np.sqrt]; the
    swap guard exchanges them when [1.1 m] is the smaller one, which does
    not happen for [m >= 10/11], and so not for histories of message
    counts that are at least 1. *)
Theorem calculate_bounds_final_clamp
    (c : AdaptiveBoundsCalculator) (confidence : Q) :
  let m := point_estimate c in
  final_multipliers np_sqrt c confidence
  = (if Qltb (clamp_upper m) (clamp_lower m)
     then (m, clamp_upper m, clamp_lower m)
     else (m, clamp_lower m, clamp_upper m))
  /\ ((10 # 11 <= m)%Q ->
      final_multipliers np_sqrt c confidence = (m, clamp_lower m, clamp_upper m))
  /\ (Forall (fun x => 1 <= x) (recent_multipliers c) ->
      final_multipliers np_sqrt c confidence = (m, clamp_lower m, clamp_upper m)).
Proof.
  intro m. split; [apply final_multipliers_clamp|].
  assert (H : (10 # 11 <= m)%Q ->
              final_multipliers np_sqrt c confidence = (m, clamp_lower m, clamp_upper m)).
  { intro Hm. rewrite final_multipliers_clamp. fold m.
    rewrite (clamp_ordered m Hm). reflexivity. }
  split; [exact H|].
  intro Hc. apply H.
  apply Qle_trans with (y := 1%Q); [discriminate|].
  apply point_estimate_ge_one, Hc.
Qed.

(** C9: a history of ten zero observations has the point estimate 0; the
    swap guard then makes [1.1 * 0] the lower multiplier and the first
    division raises, for every limit, usage and confidence. *)
Theorem calculate_bounds_zero_history_raises
    (message_limit prompts_used : Z) (confidence : Q) :
  calculate_bounds np_sqrt (observed 20 [0; 0; 0; 0; 0; 0; 0; 0; 0; 0])
                   message_limit prompts_used confidence
  = Raise (if message_limit =? 0 then ValueError else OverflowError).
Proof.
  apply calculate_bounds_zero_estimate. vm_compute. reflexivity.
Qed.

End AdaptiveBoundsFacts.

(** C1: the witness, five prompts of five messages each: the limit is
    divided by 4.5 and by 5.5. *)
Lemma calculate_bounds_final_clamp_witness :
  let c := AdaptiveBounds.observed 20 [5; 5; 5; 5; 5] in
  AdaptiveBounds.final_multipliers sqrt_approx c 0.8
  = (AdaptiveBounds.point_estimate c,
     AdaptiveBounds.clamp_lower (AdaptiveBounds.point_estimate c),
     AdaptiveBounds.clamp_upper (AdaptiveBounds.point_estimate c))
  /\ (AdaptiveBounds.point_estimate c == 5)%Q
  /\ (AdaptiveBounds.clamp_lower (AdaptiveBounds.point_estimate c) == 4.5)%Q
  /\ (AdaptiveBounds.clamp_upper (AdaptiveBounds.point_estimate c) == 5.5)%Q.
Proof.
  cbv zeta. split; [|repeat split; vm_compute; reflexivity].
  apply (proj2 (proj2 (calculate_bounds_final_clamp sqrt_approx
                         (AdaptiveBounds.observed 20 [5; 5; 5; 5; 5]) 0.8))).
  vm_compute. repeat constructor; discriminate.
Defined.

(** C1 (as stated) fails on the history 0,0,0,1,1,1: the point estimate is
    1/2, the clamp gives lower = 1 and upper = 0.55, and the swap guard
    makes the code divide by 0.55 for the upper bound and by 1 for the
    lower one. *)
Lemma calculate_bounds_clamp_counterexample :
  let c := AdaptiveBounds.observed 20 [0; 0; 0; 1; 1; 1] in
  let m := AdaptiveBounds.point_estimate c in
  (m == 1 # 2)%Q
  /\ AdaptiveBounds.calculate_bounds sqrt_approx c 900 50 0.8
     <> Ok (AdaptiveBounds.bounds_with m (AdaptiveBounds.clamp_lower m)
              (AdaptiveBounds.clamp_upper m) 900 50 0.8
              (AdaptiveBounds.get_current_pattern c))
  /\ AdaptiveBounds.final_multipliers sqrt_approx c 0.8
     = (m, AdaptiveBounds.clamp_upper m, AdaptiveBounds.clamp_lower m)
  /\ (AdaptiveBounds.clamp_upper m == 0.55)%Q
  /\ (AdaptiveBounds.clamp_lower m == 1)%Q.
Proof.
  split; [vm_compute; reflexivity|].
  split; [vm_compute; intro H; discriminate H|].
  repeat split; vm_compute; reflexivity.
Qed.

(** ** bayesian_limits.py *)

Section BayesianFacts.

Import BayesianLimits.

Lemma py_div_ok (a b : Q) : ~ (b == 0)%Q -> py_div a b = Ok (a / b)%Q.
Proof.
  intro H. unfold py_div. rewrite (Qeq_bool_false _ _ H). reflexivity.
Qed.

(** C3 (as amended): with a nonzero scale, [update] adds (2.0, 0.5) when
    the normalized observation is strictly above 0.9, (1.5, 1.0) when it
    is strictly above 0.8 and at most 0.9, and (0.5, 2.0) otherwise; from
    alpha 4, beta 2 and scale 1000, observing 950 gives (6.0, 2.5) and
    observing 850 gives (5.5, 3.0). *)
Theorem update_rule (b : LimitBelief) (x : Q) :
  ~ (scale b == 0)%Q ->
  (exists b',
      update b x = Ok b' /\ scale b' = scale b
      /\ ((0.9 < x / scale b)%Q ->
          alpha b' = (alpha b + 2.0)%Q /\ beta b' = (beta b + 0.5)%Q)
      /\ ((0.8 < x / scale b)%Q /\ (x / scale b <= 0.9)%Q ->
          alpha b' = (alpha b + 1.5)%Q /\ beta b' = (beta b + 1.0)%Q)
      /\ ((x / scale b <= 0.8)%Q ->
          alpha b' = (alpha b + 0.5)%Q /\ beta b' = (beta b + 2.0)%Q))
  /\ (exists b1, update {| alpha := 4.0; beta := 2.0; scale := 1000 |} 950 = Ok b1
                 /\ (alpha b1 == 6.0)%Q /\ (beta b1 == 2.5)%Q)
  /\ (exists b2, update {| alpha := 4.0; beta := 2.0; scale := 1000 |} 850 = Ok b2
                 /\ (alpha b2 == 5.5)%Q /\ (beta b2 == 3.0)%Q).
Proof.
  intro Hs. split; [|split].
  - unfold update. rewrite (py_div_ok _ _ Hs). cbn [bind].
    destruct (Qltb 0.9 (x / scale b)) eqn:E9.
    + eexists. split; [reflexivity|]. cbn [alpha beta scale].
      apply Qltb_lt in E9.
      split; [reflexivity|]. split; [intros _; split; reflexivity|].
      split; intros H; exfalso.
      * destruct H as [_ H]. exact (Qlt_not_le _ _ E9 H).
      * apply (Qlt_not_le _ _ E9).
        apply Qle_trans with (y := 0.8%Q); [exact H|discriminate].
    + apply Qltb_ge in E9. destruct (Qltb 0.8 (x / scale b)) eqn:E8.
      * eexists. split; [reflexivity|]. cbn [alpha beta scale].
        apply Qltb_lt in E8.
        split; [reflexivity|]. split; [|split].
        -- intros H; exfalso. exact (Qlt_not_le _ _ H E9).
        -- intros _; split; reflexivity.
        -- intros H; exfalso. exact (Qlt_not_le _ _ E8 H).
      * eexists. split; [reflexivity|]. cbn [alpha beta scale].
        apply Qltb_ge in E8.
        split; [reflexivity|]. split; [|split].
        -- intros H; exfalso. exact (Qlt_not_le _ _ H E9).
        -- intros [H _]; exfalso. exact (Qlt_not_le _ _ H E8).
        -- intros _; split; reflexivity.
  - eexists. split; [vm_compute; reflexivity|]. split; vm_compute; reflexivity.
  - eexists. split; [vm_compute; reflexivity|]. split; vm_compute; reflexivity.
Qed.

End BayesianFacts.

(** C3: the witness, the first example of the rule. *)
Lemma update_rule_witness :
  exists b1,
    BayesianLimits.update
      {| BayesianLimits.alpha := 4.0; BayesianLimits.beta := 2.0;
         BayesianLimits.scale := 1000 |} 950 = Ok b1
    /\ (BayesianLimits.alpha b1 == 6.0)%Q /\ (BayesianLimits.beta b1 == 2.5)%Q.
Proof.
  refine (proj1 (proj2 (update_rule
    {| BayesianLimits.alpha := 4.0; BayesianLimits.beta := 2.0;
       BayesianLimits.scale := 1000 |} 950 _))).
  vm_compute. discriminate.
Defined.

(** C3 (as stated) fails on its own second example: 850/1000 lies between
    0.8 and 0.9, the code adds (1.5, 1.0), and the belief becomes
    (5.5, 3.0), not (5.0, 2.5). *)
Lemma update_moderate_counterexample :
  exists b2,
    BayesianLimits.update
      {| BayesianLimits.alpha := 4.0; BayesianLimits.beta := 2.0;
         BayesianLimits.scale := 1000 |} 850 = Ok b2
    /\ ~ (BayesianLimits.alpha b2 == 5.0)%Q /\ ~ (BayesianLimits.beta b2 == 2.5)%Q.
Proof.
  eexists. split; [vm_compute; reflexivity|].
  split; vm_compute; discriminate.
Qed.

(** The thresholds are strict: an observation at exactly 0.9 of the scale
    is treated as moderate evidence. *)
Lemma update_boundary_is_strict :
  exists b,
    BayesianLimits.update
      {| BayesianLimits.alpha := 4.0; BayesianLimits.beta := 2.0;
         BayesianLimits.scale := 1000 |} 900 = Ok b
    /\ (BayesianLimits.alpha b == 5.5)%Q /\ (BayesianLimits.beta b == 3.0)%Q.
Proof.
  eexists. split; [vm_compute; reflexivity|].
  split; vm_compute; reflexivity.
Qed.

Section PredictionFacts.

Import BayesianLimits.

Variable np_sqrt : Q -> Q.
Variable beta_ppf : Q -> Q -> Q -> Q.

Lemma update_positive (b b' : LimitBelief) (x : Q) :
  positive_belief b -> update b x = Ok b' -> positive_belief b'.
Proof.
  intros [Ha Hb] H. unfold update in H.
  destruct (py_div x (scale b)) as [n|]; [|discriminate H]. cbn [bind] in H.
  destruct (Qltb 0.9 n); [|destruct (Qltb 0.8 n)];
    inversion H; subst; unfold positive_belief; cbn [alpha beta]; split; lra.
Qed.

Lemma update_opt_positive (b b' : LimitBelief) (o : option Q) :
  positive_belief b -> update_opt b o = Ok b' -> positive_belief b'.
Proof.
  intros Hb H. destruct o as [x|]; cbn in H.
  - exact (update_positive _ _ _ Hb H).
  - inversion H; subst; exact Hb.
Qed.

(** Every reachable estimator holds beliefs with positive shape
    parameters. *)
Lemma reachable_positive (e : BayesianLimitEstimator) :
  reachable e -> forall k, positive_belief (belief (limits e) k).
Proof.
  induction 1 as [plan|e e' d Hr IH Hu].
  - intros []; unfold positive_belief; cbn; split; reflexivity.
  - unfold update_from_session in Hu.
    destruct (update_opt (limits_tokens (limits e)) (max_tokens d)) as [t|] eqn:Et;
      [|discriminate Hu].
    destruct (update_opt (limits_messages (limits e)) (max_messages d)) as [m|] eqn:Em;
      [|discriminate Hu].
    destruct (update_opt (limits_prompts (limits e)) (max_prompts d)) as [p|] eqn:Ep;
      [|discriminate Hu].
    cbn [bind] in Hu. inversion Hu; subst; clear Hu.
    intros []; cbn [belief limits limits_tokens limits_messages limits_prompts].
    + exact (update_opt_positive _ _ _ (IH tokens) Et).
    + exact (update_opt_positive _ _ _ (IH messages) Em).
    + exact (update_opt_positive _ _ _ (IH prompts) Ep).
Qed.

Lemma mean_positive (b : LimitBelief) :
  positive_belief b -> mean b = Ok (alpha b / (alpha b + beta b) * scale b)%Q.
Proof.
  intros [Ha Hb]. unfold mean. rewrite py_div_ok; [reflexivity|].
  intro H. lra.
Qed.

Lemma variance_positive (b : LimitBelief) :
  positive_belief b -> exists v, variance b = Ok v.
Proof.
  intros [Ha Hb]. unfold variance. rewrite py_div_ok; [eexists; reflexivity|].
  intro H.
  apply Qmult_integral in H. destruct H as [H|H]; [|lra].
  apply Qmult_integral in H. destruct H as [H|H]; lra.
Qed.

Lemma metric_estimate_positive (b : LimitBelief) (confidence : Q) :
  positive_belief b ->
  exists me, metric_estimate np_sqrt beta_ppf b confidence = Ok me
             /\ mean b = Ok (estimate me).
Proof.
  intro Hb. unfold metric_estimate.
  destruct (variance_positive b Hb) as [v Hv].
  rewrite (mean_positive b Hb), Hv. cbn [bind].
  eexists. split; reflexivity.
Qed.

(** Totality of [get_estimated_limits] on reachable estimators: it returns
    the three means. *)
Lemma get_estimated_limits_reachable (e : BayesianLimitEstimator) :
  reachable e ->
  exists l, get_estimated_limits np_sqrt beta_ppf e = Ok l
            /\ forall k, mean (belief (limits e) k) = Ok (estimate (est l k)).
Proof.
  intro Hr. pose proof (reachable_positive e Hr) as Hp.
  unfold get_estimated_limits.
  set (conf := if total_observations e >=? confidence_threshold e then 0.95%Q else 0.80%Q).
  destruct (metric_estimate_positive _ conf (Hp tokens)) as [t [Et Mt]].
  destruct (metric_estimate_positive _ conf (Hp messages)) as [m [Em Mm]].
  destruct (metric_estimate_positive _ conf (Hp prompts)) as [p [Ep Mp]].
  cbn [belief] in Et, Em, Ep. rewrite Et, Em, Ep. cbn [bind].
  eexists. split; [reflexivity|].
  intros []; cbn [est est_tokens est_messages est_prompts]; assumption.
Qed.

(** A metric whose usage has reached the estimate is predicted at exactly
    0 hours when it burns, and at infinity when it does not. *)
Lemma predict_metric_exceeded (l : EstimatedLimits)
    (current_usage burn_rates : metric -> option Q) (k : metric) (u : Q) :
  current_usage k = Some u -> (estimate (est l k) <= u)%Q ->
  (predict_metric l current_usage burn_rates k = Finite 0
   /\ exists r, burn_rates k = Some r /\ (0 < r)%Q)
  \/ (predict_metric l current_usage burn_rates k = Inf
      /\ forall r, burn_rates k = Some r -> (r <= 0)%Q).
Proof.
  intros Hu Hle. unfold predict_metric. rewrite Hu.
  destruct (burn_rates k) as [r|].
  - destruct (Qltb 0 r) eqn:E.
    + left. apply Qltb_lt in E. split; [|exists r; split; [reflexivity|exact E]].
      rewrite py_max_nonpos; [reflexivity|].
      apply Qle_shift_div_r; [exact E|]. lra.
    + right. apply Qltb_ge in E. split; [reflexivity|].
      intros r' Hr. inversion Hr; subst; exact E.
  - right. split; [reflexivity|]. intros r Hr. discriminate Hr.
Qed.

Lemma hours_ltb_zero_zero : hours_ltb (Finite 0) (Finite 0) = false.
Proof. reflexivity. Qed.

Lemma hours_ltb_zero_inf : hours_ltb (Finite 0) Inf = true.
Proof. reflexivity. Qed.

Lemma hours_ltb_inf (h : hours) : hours_ltb Inf h = false.
Proof. reflexivity. Qed.

(** [min] over predictions that are 0 or infinite, one of them 0. *)
Lemma min_metric_zero (p : metric -> hours) :
  (forall k, p k = Finite 0 \/ p k = Inf) ->
  (exists k, p k = Finite 0) ->
  p (min_metric p) = Finite 0.
Proof.
  intros Hall Hsome. unfold min_metric.
  destruct (Hall tokens) as [Ht|Ht];
    destruct (Hall messages) as [Hm|Hm];
    destruct (Hall prompts) as [Hp|Hp];
    repeat first [ rewrite Ht | rewrite Hm | rewrite Hp
                 | rewrite hours_ltb_zero_zero | rewrite hours_ltb_zero_inf
                 | rewrite hours_ltb_inf | progress cbn iota ];
    try reflexivity.
  exfalso. destruct Hsome as [[] H]; congruence.
Qed.

(** C5 (as amended): on every reachable estimator [predict_limit_times]
    returns the predictions computed from the estimates of
    [get_estimated_limits]; and whatever numbers the estimates hold, when
    the current usage meets or exceeds the estimate of every metric and
    at least one metric has a positive burn rate, the [time_to_limit] of
    these predictions is 0. *)
Theorem predict_limit_times_exceeded (e : BayesianLimitEstimator)
    (current_usage burn_rates : metric -> option Q) :
  reachable e ->
  exists estimates,
    get_estimated_limits np_sqrt beta_ppf e = Ok estimates
    /\ predict_limit_times np_sqrt beta_ppf e current_usage burn_rates
       = Ok (predictions estimates current_usage burn_rates)
    /\ forall l : EstimatedLimits,
         (forall k, exists u,
             current_usage k = Some u /\ (estimate (est l k) <= u)%Q) ->
         (exists k r, burn_rates k = Some r /\ (0 < r)%Q) ->
         time_to_limit (predictions l current_usage burn_rates) = Finite 0.
Proof.
  intros Hr.
  destruct (get_estimated_limits_reachable e Hr) as [estimates [El _]].
  exists estimates. split; [exact El|].
  split; [unfold predict_limit_times; rewrite El; reflexivity|].
  intros l Hex [k0 [r0 [Hk0 Hr0]]].
  unfold predictions. cbn [time_to_limit].
  assert (Hall : forall k,
    (predict_metric l current_usage burn_rates k = Finite 0
     /\ exists r, burn_rates k = Some r /\ (0 < r)%Q)
    \/ (predict_metric l current_usage burn_rates k = Inf
        /\ forall r, burn_rates k = Some r -> (r <= 0)%Q)).
  { intro k. destruct (Hex k) as [u [Hu Hle]].
    apply predict_metric_exceeded with (u := u); assumption. }
  assert (Hsome : exists k, predict_metric l current_usage burn_rates k = Finite 0).
  { exists k0. destruct (Hall k0) as [[H _]|[_ H]]; [exact H|].
    exfalso. apply (Qlt_not_le _ _ Hr0). exact (H r0 Hk0). }
  apply min_metric_zero; [|exact Hsome].
  intro k. destruct (Hall k) as [[H _]|[H _]]; [left|right]; exact H.
Qed.

End PredictionFacts.

(** C5: the witness, a fresh [max20x] estimator far beyond its estimates,
    every metric burning. *)
Lemma predict_limit_times_exceeded_witness :
  exists p,
    BayesianLimits.predict_limit_times sqrt_approx (fun _ _ _ => 0%Q)
      (BayesianLimits.init "max20x") (BayesianLimits.every_metric 1000000)
      (BayesianLimits.every_metric 10) = Ok p
    /\ BayesianLimits.time_to_limit p = BayesianLimits.Finite 0.
Proof.
  destruct (predict_limit_times_exceeded sqrt_approx (fun _ _ _ => 0%Q)
              (BayesianLimits.init "max20x") (BayesianLimits.every_metric 1000000)
              (BayesianLimits.every_metric 10) (BayesianLimits.reachable_init _))
    as [l [El [Ep Hzero]]].
  exists (BayesianLimits.predictions l (BayesianLimits.every_metric 1000000)
            (BayesianLimits.every_metric 10)).
  split; [exact Ep|]. apply Hzero.
  - vm_compute in El. inversion El; subst l.
    intros []; eexists; (split; [reflexivity|]); vm_compute; discriminate.
  - exists BayesianLimits.tokens, 10%Q. split; reflexivity.
Defined.

(** C5 (as stated) fails when nothing burns: the usage exceeds every mean
    estimate of a fresh [max20x] estimator, every burn rate is 0, and the
    predicted [time_to_limit] is infinite. *)
Lemma predict_limit_times_counterexample :
  (forall k, exists m,
      BayesianLimits.mean
        (BayesianLimits.belief (BayesianLimits.limits (BayesianLimits.init "max20x")) k)
      = Ok m /\ (m <= 1000000)%Q)
  /\ exists p,
      BayesianLimits.predict_limit_times sqrt_approx (fun _ _ _ => 0%Q)
        (BayesianLimits.init "max20x") (BayesianLimits.every_metric 1000000) (BayesianLimits.every_metric 0) = Ok p
      /\ BayesianLimits.time_to_limit p = BayesianLimits.Inf.
Proof.
  split.
  - intros []; eexists; (split; [vm_compute; reflexivity|]); vm_compute; discriminate.
  - eexists. split; [vm_compute; reflexivity|]. reflexivity.
Qed.

(** ** claude_code_reader.py *)

(** *** Lists *)

Lemma ForallOrdPairs_snoc {A : Type} (R : A -> A -> Prop) (l : list A) (x : A) :
  ForallOrdPairs R l -> Forall (fun a => R a x) l -> ForallOrdPairs R (l ++ [x]).
Proof.
  induction 1 as [|a l Ha Hl IH]; intro Hx; cbn.
  - constructor; constructor.
  - inversion Hx; subst. constructor.
    + apply Forall_app. split; [exact Ha|]. constructor; [assumption|constructor].
    + apply IH. assumption.
Qed.

Lemma ForallOrdPairs_map_impl {A B : Type} (R : A -> A -> Prop) (S : B -> B -> Prop)
    (f : A -> B) (l : list A) :
  (forall a b, R a b -> S (f a) (f b)) ->
  ForallOrdPairs R l -> ForallOrdPairs S (map f l).
Proof.
  intros HRS. induction 1 as [|a l Ha Hl IH]; cbn; constructor.
  - apply Forall_map. eapply Forall_impl; [|exact Ha]. intros b Hb. apply HRS, Hb.
  - exact IH.
Qed.

Lemma ForallOrdPairs_of_Forall {A : Type} (P : A -> Prop) (R : A -> A -> Prop)
    (l : list A) :
  (forall a b, P a -> P b -> R a b) -> Forall P l -> ForallOrdPairs R l.
Proof.
  intros HPR. induction 1 as [|a l Ha Hl IH]; constructor.
  - eapply Forall_impl; [|exact Hl]. intros b Hb. apply HPR; assumption.
  - exact IH.
Qed.

(** *** Time *)

Lemma HOUR_pos : 0 < Reader.HOUR.
Proof. reflexivity. Qed.

Lemma round_to_hour_aligned (t : Z) : Reader._round_to_hour t mod Reader.HOUR = 0.
Proof.
  unfold Reader._round_to_hour.
  pose proof HOUR_pos as Hp.
  rewrite Zminus_mod_idemp_r, Z.sub_diag. apply Z.mod_0_l. lia.
Qed.

Lemma round_to_hour_le (t : Z) : Reader._round_to_hour t <= t.
Proof.
  unfold Reader._round_to_hour.
  pose proof (Z.mod_pos_bound t Reader.HOUR HOUR_pos). lia.
Qed.

(** An instant on the hour that is not after [t] is not after the hour
    of [t] either. *)
Lemma round_to_hour_ge (t e : Z) :
  e mod Reader.HOUR = 0 -> e <= t -> e <= Reader._round_to_hour t.
Proof.
  intros He Hle. unfold Reader._round_to_hour.
  pose proof HOUR_pos as Hp.
  pose proof (Z.div_le_mono e t Reader.HOUR Hp Hle) as Hdiv.
  pose proof (Z.div_mod e Reader.HOUR ltac:(lia)) as E1.
  pose proof (Z.div_mod t Reader.HOUR ltac:(lia)) as E2.
  nia.
Qed.

(** *** The session duration as a [timedelta] *)

Lemma round_half_even_floor (x : Q) :
  Qfloor x <= Reader.round_half_even x <= Qfloor x + 1.
Proof.
  unfold Reader.round_half_even. cbv zeta.
  destruct (Qltb _ _); [lia|]. destruct (Qltb _ _); [lia|].
  destruct (Z.even _); lia.
Qed.

Lemma round_half_even_whole (x : Q) (z : Z) :
  (x == inject_Z z)%Q -> Reader.round_half_even x = z.
Proof.
  intro H. unfold Reader.round_half_even. cbv zeta.
  assert (Hf : Qfloor x = z) by (rewrite (Qfloor_comp _ _ H); apply Qfloor_Z).
  rewrite Hf.
  assert (Hr : Qltb (x - inject_Z z) (1 # 2) = true) by (apply Qltb_lt; rewrite H; lra).
  rewrite Hr. reflexivity.
Qed.

(** A whole number of hours gives that many hours. *)
Lemma timedelta_of_hours_whole (h : Q) (n : Z) :
  (h == inject_Z n)%Q -> Reader.timedelta_of_hours h = Reader.timedelta_hours n.
Proof.
  intro H. unfold Reader.timedelta_of_hours, Reader.timedelta_hours.
  apply round_half_even_whole. rewrite H, inject_Z_mult. reflexivity.
Qed.

Lemma timedelta_of_hours_nonneg (h : Q) :
  (0 <= h)%Q -> 0 <= Reader.timedelta_of_hours h.
Proof.
  intro H. unfold Reader.timedelta_of_hours.
  pose proof (round_half_even_floor (h * inject_Z Reader.HOUR)) as [Hf _].
  assert (H0 : Qfloor 0 <= Qfloor (h * inject_Z Reader.HOUR)).
  { apply Qfloor_resp_le.
    assert (Hp : (0 <= inject_Z Reader.HOUR)%Q) by discriminate.
    nra. }
  change (Qfloor 0) with 0 in H0. lia.
Qed.

Lemma timedelta_of_hours_ge_hour (h : Q) :
  (1 <= h)%Q -> Reader.HOUR <= Reader.timedelta_of_hours h.
Proof.
  intro H. unfold Reader.timedelta_of_hours.
  pose proof (round_half_even_floor (h * inject_Z Reader.HOUR)) as [Hf _].
  assert (H0 : Qfloor (inject_Z Reader.HOUR) <= Qfloor (h * inject_Z Reader.HOUR)).
  { apply Qfloor_resp_le.
    assert (Hp : (0 <= inject_Z Reader.HOUR)%Q) by discriminate.
    nra. }
  rewrite Qfloor_Z in H0. lia.
Qed.

Section ReaderFacts.

Import Reader.

Variable get_model_pricing : string -> Pricing.
Variable session_duration_hours : Q.
Variable _blocks_cache_duration : Z.

Local Abbreviation add_entry := (_add_entry_to_block get_model_pricing).
Local Abbreviation windowed :=
  (fun b => start_time b mod HOUR = 0
            /\ end_time b = start_time b + timedelta_of_hours session_duration_hours).

Ltac add_entry_cases :=
  cbv beta zeta delta [_add_entry_to_block aggregate_usage];
  repeat match goal with
         | |- context [if ?c then _ else _] => destruct c
         end;
  cbn.

(** What [_add_entry_to_block] leaves alone, and what it changes. *)
Lemma add_entry_window (now : datetime) (b : SessionBlock) (e : Entry) :
  start_time (add_entry now b e) = start_time b
  /\ end_time (add_entry now b e) = end_time b
  /\ is_active (add_entry now b e) = is_active b.
Proof. add_entry_cases; repeat split; reflexivity. Qed.

Lemma add_entry_entries (now : datetime) (b : SessionBlock) (e : Entry) :
  entries (add_entry now b e) = entries b ++ [e].
Proof. add_entry_cases; reflexivity. Qed.

Lemma add_entry_prompts (now : datetime) (b : SessionBlock) (e : Entry) :
  multiplication_factor (add_entry now b e) = multiplication_factor b
  /\ (user_prompt_count (add_entry now b e) = user_prompt_count b
      \/ user_prompt_count (add_entry now b e) = user_prompt_count b + 1).
Proof. add_entry_cases; split; auto. Qed.

Lemma finalize_block_window (now : datetime) (b : SessionBlock) :
  start_time (finalize_block now b) = start_time b
  /\ end_time (finalize_block now b) = end_time b
  /\ entries (finalize_block now b) = entries b.
Proof.
  unfold finalize_block. destruct (entries b) eqn:E; cbn; repeat split; auto.
Qed.

(** *** Full rebuild *)

Lemma fresh_block_windowed (now : datetime) (e : Entry) :
  let start := _round_to_hour (timestamp e) in
  windowed (add_entry now
              (new_block start (start + timedelta_of_hours session_duration_hours) start) e).
Proof.
  cbv zeta. destruct (add_entry_window now
    (new_block (_round_to_hour (timestamp e))
       (_round_to_hour (timestamp e) + timedelta_of_hours session_duration_hours)
       (_round_to_hour (timestamp e))) e) as [Hs [He _]].
  rewrite Hs, He. cbn. split; [apply round_to_hour_aligned|reflexivity].
Qed.

(** An invariant of blocks that holds of every fresh block with its first
    entry and is kept by [_add_entry_to_block] holds after the loop. *)
Lemma create_loop_Forall (P : SessionBlock -> Prop) (now : datetime) :
  (forall e,
      let start := _round_to_hour (timestamp e) in
      P (add_entry now
           (new_block start (start + timedelta_of_hours session_duration_hours) start) e)) ->
  (forall b e, P b -> timestamp e < end_time b -> P (add_entry now b e)) ->
  forall (es : list Entry) (blocks : list SessionBlock) (cur : option SessionBlock),
    Forall P blocks ->
    (forall b, cur = Some b -> P b) ->
    Forall P (create_loop get_model_pricing session_duration_hours now es blocks cur).
Proof.
  intros Hfresh Hadd.
  induction es as [|e es IH]; intros blocks cur Hb Hc; cbn.
  - destruct cur as [b|]; [|exact Hb].
    apply Forall_app. split; [exact Hb|]. constructor; [apply Hc; reflexivity|constructor].
  - destruct cur as [b|].
    + destruct (timestamp e >=? end_time b) eqn:E.
      * apply IH.
        -- apply Forall_app. split; [exact Hb|].
           constructor; [apply Hc; reflexivity|constructor].
        -- intros b' Hb'. inversion Hb'; subst. apply Hfresh.
      * apply IH; [exact Hb|].
        intros b' Hb'. inversion Hb'; subst.
        apply Hadd; [apply Hc; reflexivity|].
        rewrite Z.geb_leb in E. apply Z.leb_gt in E. exact E.
    + apply IH; [exact Hb|].
      intros b' Hb'. inversion Hb'; subst. apply Hfresh.
Qed.

Lemma create_loop_windowed (now : datetime) (es : list Entry) :
  Forall windowed (create_loop get_model_pricing session_duration_hours now es [] None).
Proof.
  apply create_loop_Forall with (P := windowed).
  - apply fresh_block_windowed.
  - intros b e Hb _. destruct (add_entry_window now b e) as [Hs [He _]].
    rewrite Hs, He. exact Hb.
  - constructor.
  - intros b Hb. discriminate Hb.
Qed.

Lemma create_loop_ordered (now : datetime) (es : list Entry) :
  0 <= timedelta_of_hours session_duration_hours ->
  timedelta_of_hours session_duration_hours mod HOUR = 0 ->
  forall (blocks : list SessionBlock) (cur : SessionBlock),
    Forall windowed blocks -> windowed cur ->
    ForallOrdPairs (fun a b => end_time a <= start_time b) blocks ->
    Forall (fun a => end_time a <= start_time cur) blocks ->
    ForallOrdPairs (fun a b => end_time a <= start_time b)
      (create_loop get_model_pricing session_duration_hours now es blocks (Some cur)).
Proof.
  intros Hh Hd. pose proof HOUR_pos as Hp.
  induction es as [|e es IH]; intros blocks cur Hw Hc Hord Hlast; cbn.
  - apply ForallOrdPairs_snoc; assumption.
  - destruct (timestamp e >=? end_time cur) eqn:E.
    + apply Z.geb_le in E.
      assert (Hend : end_time cur <= _round_to_hour (timestamp e)).
      { apply round_to_hour_ge; [|exact E].
        destruct Hc as [Hc1 Hc2]. rewrite Hc2.
        rewrite Z.add_mod, Hc1, Hd by lia. reflexivity. }
      destruct (add_entry_window now
        (new_block (_round_to_hour (timestamp e))
           (_round_to_hour (timestamp e) + timedelta_of_hours session_duration_hours)
           (_round_to_hour (timestamp e))) e) as [Hs _].
      apply IH.
      * apply Forall_app. split; [exact Hw|]. constructor; [exact Hc|constructor].
      * apply fresh_block_windowed.
      * apply ForallOrdPairs_snoc; assumption.
      * rewrite Hs. cbn. apply Forall_app. split.
        -- eapply Forall_impl; [|exact Hlast]. cbn. intros a Ha.
           destruct Hc as [_ Hc2]. lia.
        -- constructor; [exact Hend|constructor].
    + destruct (add_entry_window now cur e) as [Hs [He _]].
      apply IH; try assumption.
      * rewrite Hs, He. exact Hc.
      * rewrite Hs. exact Hlast.
Qed.

Lemma create_loop_entries (now : datetime) (es : list Entry) :
  forall (blocks : list SessionBlock) (cur : option SessionBlock),
    concat (map entries
              (create_loop get_model_pricing session_duration_hours now es blocks cur))
    = concat (map entries blocks)
      ++ match cur with Some b => entries b | None => [] end ++ es.
Proof.
  induction es as [|e es IH]; intros blocks cur; cbn.
  - destruct cur as [b|]; [|rewrite app_nil_r; reflexivity].
    rewrite map_app, concat_app. cbn. rewrite !app_nil_r. reflexivity.
  - destruct cur as [b|].
    + destruct (timestamp e >=? end_time b); rewrite IH.
      * rewrite map_app, concat_app, add_entry_entries. cbn.
        rewrite app_nil_r, <- app_assoc. reflexivity.
      * rewrite add_entry_entries, <- !app_assoc. reflexivity.
    + rewrite IH, add_entry_entries. reflexivity.
Qed.

(** C2 (as amended): after a full rebuild the blocks partition the input
    (their entry lists, in order, are the input sequence) whatever the
    configured session duration is, and the windows of any two blocks are
    disjoint when the session duration is a whole number of hours. *)
Theorem create_session_blocks_partition (now : datetime) (es : list Entry) :
  let blocks := _create_session_blocks get_model_pricing session_duration_hours now es in
  concat (map entries blocks) = es
  /\ forall n : Z,
       (session_duration_hours == inject_Z n)%Q ->
       ForallOrdPairs windows_disjoint blocks.
Proof.
  cbv zeta. unfold _create_session_blocks. split.
  - rewrite map_map.
    rewrite (map_ext _ entries) by (intro b; apply finalize_block_window).
    rewrite create_loop_entries. reflexivity.
  - intros n Hn. apply timedelta_of_hours_whole in Hn.
    assert (Hw : Forall windowed
              (create_loop get_model_pricing session_duration_hours now es [] None)).
    { apply create_loop_windowed. }
    pose proof HOUR_pos as Hp.
    destruct (Z_le_gt_dec 0 n) as [Hh|Hh].
    + apply ForallOrdPairs_map_impl with (R := fun a b => end_time a <= start_time b).
      * intros a b Hab t [[_ Ha] [Hb _]].
        destruct (finalize_block_window now a) as [_ [Ea _]].
        destruct (finalize_block_window now b) as [Eb _].
        rewrite Ea in Ha. rewrite Eb in Hb. lia.
      * destruct es as [|e es]; [constructor|]. cbn.
        apply create_loop_ordered;
          [rewrite Hn; unfold timedelta_hours; nia
          |rewrite Hn; unfold timedelta_hours; apply Z.mod_mul; lia
          |constructor|apply fresh_block_windowed|constructor|constructor].
    + apply ForallOrdPairs_map_impl with (R := fun a b => windowed a /\ windowed b).
      * intros a b [[_ Ha] _] t [[Ha1 Ha2] _].
        destruct (finalize_block_window now a) as [Es [Ee _]].
        rewrite Es in Ha1. rewrite Ee in Ha2.
        rewrite Hn in Ha. unfold timedelta_hours in Ha. nia.
      * apply ForallOrdPairs_of_Forall with (P := windowed); [auto|exact Hw].
Qed.

(** The rebuild follows the block creation rule: every block starts on
    the hour of its first entry and ends one session duration later. *)
Lemma create_session_blocks_created_for (now : datetime) (es : list Entry) :
  Forall (fun b => exists e rest,
              entries b = e :: rest /\ created_for session_duration_hours e b)
         (_create_session_blocks get_model_pricing session_duration_hours now es).
Proof.
  unfold _create_session_blocks. apply Forall_map.
  eapply Forall_impl;
    [|apply create_loop_Forall with
        (P := fun b => exists e rest,
                  entries b = e :: rest /\ created_for session_duration_hours e b)].
  - intros b [e [rest [He Hc]]].
    destruct (finalize_block_window now b) as [Es [Ee En]].
    exists e, rest. unfold created_for. rewrite Es, Ee, En. split; assumption.
  - intro e. cbv zeta. exists e, []. split.
    + rewrite add_entry_entries. reflexivity.
    + unfold created_for.
      destruct (add_entry_window now
        (new_block (_round_to_hour (timestamp e))
           (_round_to_hour (timestamp e) + timedelta_of_hours session_duration_hours)
           (_round_to_hour (timestamp e))) e) as [Hs [He _]].
      rewrite Hs, He. split; reflexivity.
  - intros b e' [e [rest [He Hc]]] _.
    exists e, (rest ++ [e']). split.
    + rewrite add_entry_entries, He. reflexivity.
    + unfold created_for in *.
      destruct (add_entry_window now b e') as [Hs [Hen _]].
      rewrite Hs, Hen. exact Hc.
  - constructor.
  - intros b Hb. discriminate Hb.
Qed.

(** The incremental merge creates its blocks at the timestamp itself. *)
Lemma merge_creates_block_at_timestamp (now : datetime) (e : Entry) :
  exists b,
    _merge_new_entries get_model_pricing session_duration_hours now [] [e] = [b]
    /\ start_time b = timestamp e
    /\ end_time b = timestamp e + timedelta_of_hours session_duration_hours
    /\ entries b = [e].
Proof.
  unfold _merge_new_entries. cbn [fold_left merge_entry update_first sort_blocks
    fold_right app insert_block update_last rev].
  eexists. split; [reflexivity|].
  set (b := add_entry now _ e).
  assert (Hb : start_time b = timestamp e
               /\ end_time b = timestamp e + timedelta_of_hours session_duration_hours
               /\ entries b = [e]).
  { subst b. destruct (add_entry_window now
      (new_block (timestamp e) (timestamp e + timedelta_of_hours session_duration_hours)
         (timestamp e)) e) as [Hs [He _]].
    rewrite Hs, He, add_entry_entries. repeat split. }
  destruct Hb as [Hs [He Hn]].
  unfold update_active.
  destruct (Qltb _ _); [destruct (Qltb _ _)|]; cbn; repeat split; assumption.
Qed.

(** *** The default multiplication factor *)

Lemma add_entry_default (now : datetime) (b : SessionBlock) (e : Entry) :
  keeps_default_factor b -> keeps_default_factor (add_entry now b e).
Proof.
  intros [Hc Hf]. destruct (add_entry_prompts now b e) as [Em Ec].
  unfold keeps_default_factor. rewrite Em.
  destruct Ec as [Ec|Ec]; rewrite Ec; split; try lia; auto.
Qed.

Lemma finalize_block_default (now : datetime) (b : SessionBlock) :
  keeps_default_factor b -> keeps_default_factor (finalize_block now b).
Proof.
  intros [Hc Hf]. unfold finalize_block.
  destruct (entries b); [split; assumption|].
  unfold keeps_default_factor. cbn. split; [exact Hc|].
  intro H0. rewrite H0. cbn. exact (Hf H0).
Qed.

Lemma update_active_default (now : datetime) (b : SessionBlock) :
  keeps_default_factor b -> keeps_default_factor (update_active now b).
Proof.
  intro H. unfold update_active.
  destruct (Qltb _ _); [destruct (Qltb _ _)|]; exact H.
Qed.

Lemma update_first_Forall {A : Type} (P : A -> Prop) (p : A -> bool) (f : A -> A) :
  (forall x, P x -> P (f x)) ->
  forall l l', Forall P l -> update_first p f l = Some l' -> Forall P l'.
Proof.
  intros Hf. induction l as [|x l IH]; intros l' Hl H; cbn in H; [discriminate H|].
  inversion Hl; subst.
  destruct (p x).
  - inversion H; subst. constructor; auto.
  - destruct (update_first p f l) as [r|]; [|discriminate H].
    inversion H; subst. constructor; auto.
Qed.

Lemma insert_block_Forall (P : SessionBlock -> Prop) (b : SessionBlock)
    (l : list SessionBlock) :
  P b -> Forall P l -> Forall P (insert_block b l).
Proof.
  intros Hb. induction 1 as [|x l Hx Hl IH]; cbn.
  - constructor; [exact Hb|constructor].
  - destruct (start_time b <=? start_time x).
    + constructor; [exact Hb|]. constructor; assumption.
    + constructor; assumption.
Qed.

Lemma sort_blocks_Forall (P : SessionBlock -> Prop) (l : list SessionBlock) :
  Forall P l -> Forall P (sort_blocks l).
Proof.
  induction 1 as [|x l Hx Hl IH]; cbn; [constructor|].
  apply insert_block_Forall; assumption.
Qed.

Lemma update_last_Forall {A : Type} (P : A -> Prop) (f : A -> A) (l : list A) :
  (forall x, P x -> P (f x)) -> Forall P l -> Forall P (update_last f l).
Proof.
  intros Hf Hl. unfold update_last.
  destruct (rev l) as [|x r] eqn:E; [exact Hl|].
  apply Forall_rev in Hl. rewrite E in Hl. inversion Hl; subst.
  change (rev (f x :: r)) with (rev r ++ [f x]).
  apply Forall_app. split; [apply Forall_rev; assumption|].
  constructor; [auto|constructor].
Qed.

Lemma merge_entry_default (now : datetime) (blocks : list SessionBlock) (e : Entry) :
  Forall keeps_default_factor blocks ->
  Forall keeps_default_factor
    (merge_entry get_model_pricing session_duration_hours now blocks e).
Proof.
  intro Hb. unfold merge_entry.
  destruct (update_first (belongs_to (timestamp e)) _ blocks) as [l1|] eqn:E1.
  - eapply update_first_Forall; [|exact Hb|exact E1].
    intros x Hx. cbv beta.
    destruct (end_time (add_entry now x e) <? timestamp e);
      exact (add_entry_default now x e Hx).
  - destruct (update_first (extends (timestamp e)) _ blocks) as [l2|] eqn:E2.
    + eapply update_first_Forall; [|exact Hb|exact E2].
      intros x Hx. exact (add_entry_default now x e Hx).
    + apply sort_blocks_Forall, Forall_app. split; [exact Hb|].
      constructor; [|constructor].
      apply add_entry_default. split; cbn; [lia|reflexivity].
Qed.

Lemma merge_new_entries_default (now : datetime) (new_entries : list Entry) :
  forall blocks,
    Forall keeps_default_factor blocks ->
    Forall keeps_default_factor
      (_merge_new_entries get_model_pricing session_duration_hours now blocks new_entries).
Proof.
  intros blocks Hb. unfold _merge_new_entries.
  apply update_last_Forall; [apply update_active_default|].
  revert blocks Hb. induction new_entries as [|e es IH]; intros blocks Hb; cbn.
  - exact Hb.
  - apply IH, merge_entry_default, Hb.
Qed.

Lemma create_session_blocks_default (now : datetime) (es : list Entry) :
  Forall keeps_default_factor
    (_create_session_blocks get_model_pricing session_duration_hours now es).
Proof.
  unfold _create_session_blocks. apply Forall_map.
  eapply Forall_impl; [intros b Hb; apply finalize_block_default, Hb|].
  apply create_loop_Forall.
  - intro e. apply add_entry_default. split; cbn; [lia|reflexivity].
  - intros b e Hb _. apply add_entry_default, Hb.
  - constructor.
  - intros b Hb. discriminate Hb.
Qed.

Lemma update_session_blocks_default (r : ClaudeCodeReader) (now : datetime)
    (files : list (list Line)) (force_refresh : bool) (hours_back : option Z) :
  Forall keeps_default_factor (_session_blocks r) ->
  Forall keeps_default_factor
    (_session_blocks
       (_update_session_blocks get_model_pricing session_duration_hours
          _blocks_cache_duration r now files force_refresh hours_back)).
Proof.
  intro Hr. unfold _update_session_blocks.
  destruct (_ && _ && _); [exact Hr|].
  destruct hours_back as [h|]; cbn [_session_blocks].
  - apply create_session_blocks_default.
  - destruct (negb (_full_data_loaded r)); cbn [_session_blocks].
    + apply create_session_blocks_default.
    + match goal with
      | |- Forall _ (match ?n with [] => _ | _ => _ end) => destruct n eqn:En
      end.
      * apply filter_Forall, Hr.
      * apply merge_new_entries_default, filter_Forall, Hr.
Qed.

(** In every state of the reader, a block without counted prompts has the
    default factor. *)
Lemma reachable_default (r : ClaudeCodeReader) :
  reachable get_model_pricing session_duration_hours _blocks_cache_duration r ->
  Forall keeps_default_factor (_session_blocks r).
Proof.
  induction 1 as [|r now files force hours_back Hr IH|r now Hr IH].
  - constructor.
  - apply update_session_blocks_default, IH.
  - exact IH.
Qed.

(** What [get_current_session_prompts] reports for a current block
    without counted prompts. *)
Lemma current_session_prompts_default (r r' : ClaudeCodeReader) (now : datetime)
    (files : list (list Line)) (sp : SessionPrompts) :
  reachable get_model_pricing session_duration_hours _blocks_cache_duration r ->
  get_current_session_prompts get_model_pricing session_duration_hours
    _blocks_cache_duration r now files = (sp, r') ->
  sp_pattern sp <> None -> prompts_used sp = 0 ->
  sp_multiplication_factor sp = 7.7%Q.
Proof.
  intros Hr H Hp H0.
  unfold get_current_session_prompts, _get_current_block in H.
  set (r1 := _update_session_blocks _ _ _ r now files false None) in H.
  assert (H1 : Forall keeps_default_factor (_session_blocks r1))
    by (apply update_session_blocks_default, reachable_default, Hr).
  destruct (current_block (_session_blocks r1) now) as [b|] eqn:E;
    inversion H; subst; clear H; cbn in *; [|contradiction].
  apply find_some in E. destruct E as [Hin _].
  rewrite Forall_forall in H1. destruct (H1 b Hin) as [_ Hf]. exact (Hf H0).
Qed.

(** *** Entries and the end of their block *)

Lemma add_entry_bounded (now : datetime) (b : SessionBlock) (e : Entry) :
  entries_bounded b -> timestamp e <= end_time b ->
  entries_bounded (add_entry now b e).
Proof.
  intros Hb He. unfold entries_bounded.
  destruct (add_entry_window now b e) as [_ [Hend _]].
  rewrite add_entry_entries, Hend. apply Forall_app. split; [exact Hb|].
  constructor; [exact He|constructor].
Qed.

Lemma add_entry_extended (now : datetime) (b : SessionBlock) (e : Entry) (t : datetime) :
  entries_bounded b -> end_time b <= t -> timestamp e <= t ->
  entries_bounded (set_end_time (add_entry now b e) t).
Proof.
  intros Hb Hend He. unfold entries_bounded.
  change (entries (set_end_time (add_entry now b e) t)) with (entries (add_entry now b e)).
  change (end_time (set_end_time (add_entry now b e) t)) with t.
  rewrite add_entry_entries. apply Forall_app. split.
  - eapply Forall_impl; [|exact Hb]. cbn. intros a Ha. lia.
  - constructor; [exact He|constructor].
Qed.

Lemma create_session_blocks_bounded (now : datetime) (es : list Entry) :
  (1 <= session_duration_hours)%Q ->
  Forall entries_bounded
    (_create_session_blocks get_model_pricing session_duration_hours now es).
Proof.
  intro Hh. unfold _create_session_blocks. apply Forall_map.
  eapply Forall_impl; [|apply create_loop_Forall with (P := entries_bounded)].
  - intros b Hb. unfold entries_bounded.
    destruct (finalize_block_window now b) as [_ [Ee En]]. rewrite Ee, En. exact Hb.
  - intro e. cbv zeta. apply add_entry_bounded; [constructor|].
    cbn. unfold _round_to_hour.
    pose proof (timedelta_of_hours_ge_hour _ Hh).
    pose proof (Z.mod_pos_bound (timestamp e) HOUR HOUR_pos). lia.
  - intros b e Hb Hlt. apply add_entry_bounded; [exact Hb|lia].
  - constructor.
  - intros b Hb. discriminate Hb.
Qed.

Lemma merge_entry_bounded (now : datetime) (blocks : list SessionBlock) (e : Entry) :
  (0 <= session_duration_hours)%Q ->
  Forall entries_bounded blocks ->
  Forall entries_bounded
    (merge_entry get_model_pricing session_duration_hours now blocks e).
Proof.
  intros Hh Hb. unfold merge_entry.
  destruct (update_first (belongs_to (timestamp e)) _ blocks) as [l1|] eqn:E1.
  - eapply update_first_Forall; [|exact Hb|exact E1].
    intros x Hx. cbv beta.
    destruct (add_entry_window now x e) as [_ [Hend _]].
    destruct (end_time (add_entry now x e) <? timestamp e) eqn:E.
    + apply Z.ltb_lt in E. rewrite Hend in E.
      apply add_entry_extended; [exact Hx|lia|lia].
    + apply Z.ltb_ge in E. rewrite Hend in E.
      apply add_entry_bounded; assumption.
  - destruct (update_first (extends (timestamp e)) _ blocks) as [l2|] eqn:E2.
    + assert (Hext : forall x, In x blocks -> extends (timestamp e) x = true ->
                               end_time x <= timestamp e).
      { intros x _ Hx. unfold extends in Hx. apply andb_true_iff in Hx.
        destruct Hx as [Hx _]. apply Qltb_lt in Hx.
        unfold total_seconds in Hx.
        destruct (Z_le_gt_dec (end_time x) (timestamp e)) as [Hle|Hgt]; [exact Hle|].
        exfalso. apply (Qlt_not_le _ _ Hx).
        unfold Qdiv, Qmult, Qle, inject_Z, Qinv; cbn. unfold SECOND. cbn. nia. }
      clear E1. revert l2 E2 Hb Hext.
      induction blocks as [|x blocks IH]; intros l2 E2 Hb Hext; cbn in E2;
        [discriminate E2|].
      inversion Hb as [|x' l' Hx Hrest]; subst.
      destruct (extends (timestamp e) x) eqn:Ex.
      * inversion E2; subst. constructor; [|exact Hrest].
        apply add_entry_extended; [exact Hx| |lia].
        apply Hext; [left; reflexivity|exact Ex].
      * destruct (update_first (extends (timestamp e)) _ blocks) as [r|] eqn:Er;
          [|discriminate E2].
        inversion E2; subst. constructor; [exact Hx|].
        apply IH; [reflexivity|exact Hrest|].
        intros y Hy. apply Hext. right. exact Hy.
    + apply sort_blocks_Forall, Forall_app. split; [exact Hb|].
      constructor; [|constructor].
      apply add_entry_bounded; [constructor|].
      cbn. pose proof (timedelta_of_hours_nonneg _ Hh). lia.
Qed.

Lemma update_active_bounded (now : datetime) (b : SessionBlock) :
  entries_bounded b -> entries_bounded (update_active now b).
Proof.
  intro H. unfold update_active.
  destruct (Qltb _ _); [destruct (Qltb _ _)|]; exact H.
Qed.

Lemma merge_new_entries_bounded (now : datetime) (new_entries : list Entry) :
  (0 <= session_duration_hours)%Q ->
  forall blocks,
    Forall entries_bounded blocks ->
    Forall entries_bounded
      (_merge_new_entries get_model_pricing session_duration_hours now blocks new_entries).
Proof.
  intros Hh blocks Hb. unfold _merge_new_entries.
  apply update_last_Forall; [apply update_active_bounded|].
  revert blocks Hb. induction new_entries as [|e es IH]; intros blocks Hb; cbn.
  - exact Hb.
  - apply IH, merge_entry_bounded; assumption.
Qed.

Lemma update_session_blocks_bounded (r : ClaudeCodeReader) (now : datetime)
    (files : list (list Line)) (force_refresh : bool) (hours_back : option Z) :
  (1 <= session_duration_hours)%Q ->
  Forall entries_bounded (_session_blocks r) ->
  Forall entries_bounded
    (_session_blocks
       (_update_session_blocks get_model_pricing session_duration_hours
          _blocks_cache_duration r now files force_refresh hours_back)).
Proof.
  intros Hh Hr. unfold _update_session_blocks.
  destruct (_ && _ && _); [exact Hr|].
  destruct hours_back as [h|]; cbn [_session_blocks].
  - apply create_session_blocks_bounded, Hh.
  - destruct (negb (_full_data_loaded r)); cbn [_session_blocks].
    + apply create_session_blocks_bounded, Hh.
    + match goal with
      | |- Forall _ (match ?n with [] => _ | _ => _ end) => destruct n eqn:En
      end.
      * apply filter_Forall, Hr.
      * apply merge_new_entries_bounded; [lra|apply filter_Forall, Hr].
Qed.

(** In every state of the reader no entry is later than the end of its
    block, when sessions last at least an hour. *)
Lemma reachable_bounded (r : ClaudeCodeReader) :
  (1 <= session_duration_hours)%Q ->
  reachable get_model_pricing session_duration_hours _blocks_cache_duration r ->
  Forall entries_bounded (_session_blocks r).
Proof.
  intro Hh. induction 1 as [|r now files force hours_back Hr IH|r now Hr IH].
  - constructor.
  - apply update_session_blocks_bounded; assumption.
  - exact IH.
Qed.

(** *** What the reader feeds to the bounds calculator *)

Lemma add_prompt_positive (c : AdaptiveBounds.AdaptiveBoundsCalculator) (n : Z) :
  1 <= n ->
  Forall (fun x => 1 <= x) (AdaptiveBounds.recent_multipliers c) ->
  Forall (fun x => 1 <= x)
         (AdaptiveBounds.recent_multipliers (AdaptiveBounds.add_prompt c n)).
Proof.
  intros Hn Hc. cbn. unfold deque_append. apply last_n_Forall, Forall_app.
  split; [exact Hc|]. constructor; [exact Hn|constructor].
Qed.

Lemma count_messages_positive (es : list Entry) :
  forall (c : AdaptiveBounds.AdaptiveBoundsCalculator) (current_messages : Z),
    Forall (fun x => 1 <= x) (AdaptiveBounds.recent_multipliers c) ->
    Forall (fun x => 1 <= x)
           (AdaptiveBounds.recent_multipliers (count_messages c current_messages es)).
Proof.
  induction es as [|e es IH]; intros c n Hc; cbn.
  - destruct (0 <? n) eqn:E; [|exact Hc].
    apply Z.ltb_lt in E. apply add_prompt_positive; [lia|exact Hc].
  - destruct (String.eqb (entry_type e) "user").
    + destruct (negb _ && (0 <? n)) eqn:E.
      * apply andb_true_iff in E. destruct E as [_ E]. apply Z.ltb_lt in E.
        apply IH, add_prompt_positive; [lia|exact Hc].
      * apply IH, Hc.
    + destruct (String.eqb (entry_type e) "assistant"); apply IH, Hc.
Qed.

(** Every message count the reader records is at least 1. *)
Lemma reachable_counts_positive (r : ClaudeCodeReader) :
  reachable get_model_pricing session_duration_hours _blocks_cache_duration r ->
  Forall (fun x => 1 <= x) (AdaptiveBounds.recent_multipliers (_bounds_calculator r)).
Proof.
  induction 1 as [|r now files force hours_back Hr IH|r now Hr IH].
  - constructor.
  - unfold _update_session_blocks.
    destruct (_ && _ && _); [exact IH|].
    destruct hours_back; [exact IH|].
    destruct (negb (_full_data_loaded r)); exact IH.
  - unfold update_bounds_calculator. cbn [_bounds_calculator].
    generalize (filter (fun b => now - timedelta_hours 24 <=? start_time b)
                       (_session_blocks r)).
    intro l. revert IH. generalize (_bounds_calculator r).
    induction l as [|b l IHl]; intros c Hc; cbn; [exact Hc|].
    apply IHl, count_messages_positive, Hc.
Qed.

End ReaderFacts.

(** C2: the witness, sessions of five hours on a log with two sessions. *)
Lemma create_session_blocks_partition_witness :
  ForallOrdPairs Reader.windows_disjoint
    (Reader._create_session_blocks Reader.sample_pricing 5 Reader.noon
       (Reader._load_usage_entries Reader.noon [Reader.two_session_log] None)).
Proof.
  apply (proj2 (create_session_blocks_partition Reader.sample_pricing 5%Q Reader.noon
                  (Reader._load_usage_entries Reader.noon [Reader.two_session_log] None))
               5).
  reflexivity.
Defined.

(** C2 (as stated) fails when the configured session duration is not a
    whole number of hours: with 2.5 hours, entries at 10:10 and at 12:40
    give the windows 10:00-12:30 and 12:00-14:30, and both contain
    12:10. *)
Lemma create_session_blocks_partition_counterexample :
  let blocks :=
    Reader._create_session_blocks Reader.sample_pricing 2.5 Reader.noon
      (Reader._load_usage_entries Reader.noon [Reader.staggered_log] None) in
  map (fun b => (Reader.start_time b, Reader.end_time b)) blocks
  = [(Reader.noon - 2 * Reader.HOUR, Reader.noon + 30 * Reader.MINUTE);
     (Reader.noon, Reader.noon + 150 * Reader.MINUTE)]
  /\ ~ ForallOrdPairs Reader.windows_disjoint blocks.
Proof.
  cbv zeta.
  set (blocks := Reader._create_session_blocks _ _ _ _).
  assert (E : map (fun b => (Reader.start_time b, Reader.end_time b)) blocks
              = [(Reader.noon - 2 * Reader.HOUR, Reader.noon + 30 * Reader.MINUTE);
                 (Reader.noon, Reader.noon + 150 * Reader.MINUTE)])
    by (vm_compute; reflexivity).
  split; [exact E|].
  destruct blocks as [|a [|b l]]; try discriminate E.
  cbn [map] in E. inversion E as [[Sa Ea Sb Eb El]].
  intro H. inversion H as [|x l' Ha _]; subst x l'.
  inversion Ha as [|x l' Hab _]; subst x l'.
  apply (Hab (Reader.noon + 10 * Reader.MINUTE)).
  unfold Reader.in_window. rewrite Sa, Ea, Sb, Eb.
  unfold Reader.noon, Reader.DAY, Reader.HOUR, Reader.MINUTE, Reader.SECOND. lia.
Qed.

(** C7: the incremental merge does not follow the block creation rule.  A
    reader that last refreshed the evening before meets a response logged
    at 12:30; the merge creates a block that starts at 12:30, while the
    rule, and the rebuild, start it at 12:00. *)
Theorem merge_new_block_not_hour_aligned :
  let ts := Reader.noon + 30 * Reader.MINUTE in
  let r := Reader.refresh Reader.reader_last_evening (ts + Reader.MINUTE)
             [Reader.evening_log ++ [Reader.assistant_line ts]] in
  exists old b e,
    Reader._session_blocks r = [old; b]
    /\ Reader.entries b = [e]
    /\ Reader.timestamp e = ts
    /\ Reader.start_time b = ts
    /\ Reader.end_time b = ts + Reader.timedelta_hours 5
    /\ Reader._round_to_hour ts = Reader.noon
    /\ ~ Reader.created_for 5 e b.
Proof.
  cbv zeta. eexists. eexists. eexists.
  split; [vm_compute; reflexivity|].
  split; [reflexivity|].
  repeat split; try (vm_compute; reflexivity).
  intros [H _]. vm_compute in H. discriminate H.
Qed.

(** C8: the active flag after a merge is not the conjunction of the rule.
    A block of 08:00 to 13:00, active since the first load, receives a
    response logged at 11:30 and is refreshed at 12:00: the last entry is
    thirty minutes old, yet the block is marked active, because the code
    measures the idle time from the end of the window.  The same block
    receiving a response logged at 12:50 and refreshed at 13:30 is past
    its five hours, yet stays active, because the code leaves the flag
    alone in that case. *)
Theorem merge_active_flag_differs_from_rule :
  (let now := Reader.noon in
   let r := Reader.refresh Reader.reader_at_nine now
              [Reader.morning_log ++ [Reader.assistant_line (now - 30 * Reader.MINUTE)]] in
   exists b, Reader._session_blocks r = [b]
             /\ Reader.is_active b = true
             /\ Reader.active_by_rule 5 now b = false)
  /\ (let now := Reader.noon + 90 * Reader.MINUTE in
      let r := Reader.refresh Reader.reader_at_nine now
                 [Reader.morning_log ++ [Reader.assistant_line (now - 40 * Reader.MINUTE)]] in
      exists b, Reader._session_blocks r = [b]
                /\ Reader.is_active b = true
                /\ Reader.active_by_rule 5 now b = false).
Proof.
  split; cbv zeta; eexists; (split; [vm_compute; reflexivity|]);
    split; vm_compute; reflexivity.
Qed.

(** Through the reader, [calculate_bounds] always returns, with the
    clamped multipliers: the message counts it is given are at least 1. *)
Corollary get_prompt_bounds_clamped
    (np_sqrt : Q -> Q) (plan_message_limit : string -> Z)
    (pricing : string -> Reader.Pricing) (hours : Q) (cache : Z)
    (r : Reader.ClaudeCodeReader) (now : Reader.datetime)
    (plan_name : string) (prompts_used : Z) (confidence : Q) :
  Reader.reachable pricing hours cache r ->
  let c := Reader._bounds_calculator (Reader.update_bounds_calculator r now) in
  let m := AdaptiveBounds.point_estimate c in
  fst (Reader.get_prompt_bounds np_sqrt plan_message_limit r now
         plan_name prompts_used confidence)
  = Ok (AdaptiveBounds.bounds_with m (AdaptiveBounds.clamp_lower m)
          (AdaptiveBounds.clamp_upper m) (plan_message_limit plan_name)
          prompts_used confidence (AdaptiveBounds.get_current_pattern c)).
Proof.
  intros Hr c m. unfold Reader.get_prompt_bounds. cbn [fst].
  apply calculate_bounds_clamped.
  apply Qle_trans with (y := 1%Q); [discriminate|].
  apply point_estimate_ge_one.
  apply (reachable_counts_positive pricing hours cache).
  apply Reader.reachable_bounds, Hr.
Qed.

(** C10: in every state of the reader, and after every rebuild, a block
    whose [user_prompt_count] is 0 has the default factor 7.7: neither the
    finalisation of the rebuild nor the merge recomputes it;
    [get_current_session_prompts] reports
    that factor for such a current block, and it does so for a session
    that holds one assistant message and no prompt. *)
Theorem zero_prompt_block_keeps_default_factor :
  (forall pricing hours cache r b,
      Reader.reachable pricing hours cache r ->
      In b (Reader._session_blocks r) ->
      Reader.user_prompt_count b = 0 ->
      Reader.multiplication_factor b = 7.7%Q)
  /\ (forall pricing hours now entries b,
         In b (Reader._create_session_blocks pricing hours now entries) ->
         Reader.user_prompt_count b = 0 ->
         Reader.multiplication_factor b = 7.7%Q)
  /\ (forall pricing hours cache r r' now files sp,
         Reader.reachable pricing hours cache r ->
         Reader.get_current_session_prompts pricing hours cache r now files = (sp, r') ->
         Reader.sp_pattern sp <> None ->
         Reader.prompts_used sp = 0 ->
         Reader.sp_multiplication_factor sp = 7.7%Q)
  /\ (let sp := fst (Reader.get_current_session_prompts Reader.sample_pricing 5
                       (30 * Reader.SECOND) Reader.init
                       (Reader.noon - 3 * Reader.HOUR) [Reader.morning_log]) in
      Reader.prompts_used sp = 0
      /\ Reader.messages_sent sp = 1
      /\ Reader.sp_multiplication_factor sp = 7.7%Q
      /\ Reader.sp_pattern sp <> None).
Proof.
  split; [|split; [|split]].
  - intros pricing hours cache r b Hr Hin H0.
    pose proof (reachable_default pricing hours cache r Hr) as H.
    rewrite Forall_forall in H. destruct (H b Hin) as [_ Hf]. exact (Hf H0).
  - intros pricing hours now entries b Hin H0.
    pose proof (create_session_blocks_default pricing hours now entries) as H.
    rewrite Forall_forall in H. destruct (H b Hin) as [_ Hf]. exact (Hf H0).
  - intros pricing hours cache r r' now files sp Hr.
    exact (current_session_prompts_default pricing hours cache r r' now files sp Hr).
  - cbv zeta. repeat split; try (vm_compute; reflexivity).
    vm_compute. discriminate.
Qed.

(** C10: the witness, the block of the reader started at 09:00. *)
Lemma zero_prompt_block_keeps_default_factor_witness :
  match Reader._session_blocks Reader.reader_at_nine with
  | b :: _ => Reader.assistant_message_count b = 1
              /\ Reader.multiplication_factor b = 7.7%Q
  | [] => False
  end.
Proof.
  pose proof (proj1 zero_prompt_block_keeps_default_factor
                Reader.sample_pricing 5%Q (30 * Reader.SECOND) Reader.reader_at_nine) as H.
  assert (Hc : map (fun b => (Reader.user_prompt_count b, Reader.assistant_message_count b))
                   (Reader._session_blocks Reader.reader_at_nine) = [(0, 1)])
    by (vm_compute; reflexivity).
  destruct (Reader._session_blocks Reader.reader_at_nine) as [|b l]; [discriminate Hc|].
  cbn in Hc. inversion Hc as [[Hu Ha Hl]]. split; [reflexivity|].
  apply H.
  - apply Reader.reachable_refresh, Reader.reachable_init.
  - left. reflexivity.
  - exact Hu.
Defined.

(** *** Ingestion *)

Section IngestionFacts.

Import Reader.

Variable cutoff_time : option datetime.

Lemma mem_string_In (s : string) (l : list string) :
  mem_string s l = true <-> In s l.
Proof.
  unfold mem_string. rewrite existsb_exists. split.
  - intros [x [Hin Heq]]. apply String.eqb_eq in Heq. subst. exact Hin.
  - intro Hin. exists s. split; [exact Hin|apply String.eqb_refl].
Qed.

Lemma process_line_seen_mono (st : list string * list Entry) (line : Line) (h : string) :
  In h (fst st) -> In h (fst (process_line cutoff_time st line)).
Proof.
  destruct st as [seen es]. intro Hin. unfold process_line.
  destruct line as [| |r]; try exact Hin.
  destruct (unique_hash r) as [k|].
  - destruct (mem_string k seen); [exact Hin|].
    destruct (normalize cutoff_time r); right; exact Hin.
  - destruct (normalize cutoff_time r); exact Hin.
Qed.

Lemma process_lines_seen_mono (lines : list Line) :
  forall (st : list string * list Entry) (h : string),
    In h (fst st) -> In h (fst (fold_left (process_line cutoff_time) lines st)).
Proof.
  induction lines as [|l lines IH]; intros st h Hin; cbn; [exact Hin|].
  apply IH, process_line_seen_mono, Hin.
Qed.

(** After a record has been processed its hash is in [seen_hashes]. *)
Lemma process_line_records (st : list string * list Entry) (r : RawEntry) (h : string) :
  unique_hash r = Some h -> In h (fst (process_line cutoff_time st (Parsed r))).
Proof.
  destruct st as [seen es]. intro Hh. unfold process_line. rewrite Hh.
  destruct (mem_string h seen) eqn:E.
  - apply mem_string_In, E.
  - destruct (normalize cutoff_time r); left; reflexivity.
Qed.

Lemma process_lines_records (lines : list Line) :
  forall (st : list string * list Entry) (r : RawEntry) (h : string),
    In (Parsed r) lines -> unique_hash r = Some h ->
    In h (fst (fold_left (process_line cutoff_time) lines st)).
Proof.
  induction lines as [|l lines IH]; intros st r h Hin Hh; cbn; [contradiction|].
  destruct Hin as [Hl|Hin].
  - subst l. apply process_lines_seen_mono, process_line_records, Hh.
  - exact (IH _ r h Hin Hh).
Qed.

(** Lines whose hashes have all been seen leave the state as it is. *)
Lemma process_lines_skip (lines : list Line) :
  forall (st : list string * list Entry),
    Forall has_ids lines ->
    (forall r h, In (Parsed r) lines -> unique_hash r = Some h -> In h (fst st)) ->
    fold_left (process_line cutoff_time) lines st = st.
Proof.
  induction lines as [|l lines IH]; intros st Hids Hseen; cbn; [reflexivity|].
  inversion Hids as [|l' lines' Hl Hrest]; subst.
  assert (Hstep : process_line cutoff_time st l = st).
  { destruct st as [seen es]. destruct l as [| |r]; try reflexivity.
    cbn in Hl. unfold process_line.
    destruct (unique_hash r) as [h|] eqn:Eh; [|contradiction].
    assert (Hin : In h seen) by (apply (Hseen r h); [left; reflexivity|exact Eh]).
    apply mem_string_In in Hin. rewrite Hin. reflexivity. }
  rewrite Hstep. apply IH; [exact Hrest|].
  intros r h Hin Hh. apply (Hseen r h); [right; exact Hin|exact Hh].
Qed.

Lemma process_files_concat (files : list (list Line)) :
  forall st,
    fold_left (process_file cutoff_time) files st
    = fold_left (process_line cutoff_time) (concat files) st.
Proof.
  induction files as [|f files IH]; intro st; cbn; [reflexivity|].
  rewrite fold_left_app. apply IH.
Qed.

(** Reading keyed lines a second time changes nothing. *)
Lemma process_lines_twice (lines : list Line) (st : list string * list Entry) :
  Forall has_ids lines ->
  fold_left (process_line cutoff_time) (lines ++ lines) st
  = fold_left (process_line cutoff_time) lines st.
Proof.
  intro Hids. rewrite fold_left_app. apply process_lines_skip; [exact Hids|].
  intros r h Hin Hh. exact (process_lines_records lines st r h Hin Hh).
Qed.

End IngestionFacts.

(** *** Burn rate *)

Section BurnRateFacts.

Import Reader.

Variable since : datetime.

Lemma earliest_min (a t : datetime) (es : list Entry) :
  earliest (Z.min a t) es = Z.min a (earliest t es).
Proof.
  unfold earliest. induction es as [|e es IH]; cbn; [reflexivity|]. rewrite IH. lia.
Qed.

Lemma latest_max (a t : datetime) (es : list Entry) :
  latest (Z.max a t) es = Z.max a (latest t es).
Proof.
  unfold latest. induction es as [|e es IH]; cbn; [reflexivity|]. rewrite IH. lia.
Qed.

Lemma earliest_le (t : datetime) (es : list Entry) : earliest t es <= t.
Proof.
  unfold earliest. induction es as [|e es IH]; cbn; lia.
Qed.

Lemma latest_ge (t : datetime) (es : list Entry) : t <= latest t es.
Proof.
  unfold latest. induction es as [|e es IH]; cbn; lia.
Qed.

(** Entries older than [since] do not change the accumulators. *)
Lemma scan_entries_old (es : list Entry) (s : Scan) :
  Forall (fun e => timestamp e < since) es ->
  fold_left (scan_entry since) es s = s.
Proof.
  induction 1 as [|e es He Hes IH]; cbn; [reflexivity|].
  unfold scan_entry at 2.
  destruct (since <=? timestamp e) eqn:E; [apply Z.leb_le in E; lia|exact IH].
Qed.

Lemma scan_entries_filter (es : list Entry) :
  forall s,
    fold_left (scan_entry since) es s
    = fold_left (scan_entry since) (filter (fun e => since <=? timestamp e) es) s.
Proof.
  induction es as [|e es IH]; intro s; cbn; [reflexivity|].
  destruct (since <=? timestamp e) eqn:E; cbn.
  - apply IH.
  - unfold scan_entry at 2. rewrite E. apply IH.
Qed.

(** A skipped block holds no entry of the window. *)
Lemma scan_block_within (s : Scan) (b : SessionBlock) :
  entries_within b ->
  scan_block since s b = fold_left (scan_entry since) (entries b) s.
Proof.
  intro Hb. unfold scan_block.
  destruct ((end_time b <? since) && negb (is_active b)) eqn:E; [|reflexivity].
  apply andb_true_iff in E. destruct E as [E1 E2].
  apply Z.ltb_lt in E1. apply negb_true_iff in E2.
  destruct Hb as [Hb|Hb]; [congruence|].
  symmetry. apply scan_entries_old.
  eapply Forall_impl; [|exact Hb]. cbn. intros e He. lia.
Qed.

Lemma scan_blocks_window (blocks : list SessionBlock) :
  Forall entries_within blocks ->
  forall s,
    scan_blocks since blocks s
    = fold_left (scan_entry since) (window_entries since blocks) s.
Proof.
  unfold scan_blocks, window_entries.
  induction 1 as [|b blocks Hb Hbs IH]; intro s; cbn; [reflexivity|].
  rewrite IH, filter_app, fold_left_app, (scan_block_within s b Hb).
  rewrite <- (scan_entries_filter (entries b)). reflexivity.
Qed.

Lemma window_entries_recent (blocks : list SessionBlock) :
  Forall (fun e => since <= timestamp e) (window_entries since blocks).
Proof.
  apply Forall_forall. intros e He. unfold window_entries in He.
  apply filter_In in He. destruct He as [_ He]. apply Z.leb_le, He.
Qed.

(** The accumulators after scanning recent entries. *)
Lemma scan_recent (es : list Entry) :
  Forall (fun e => since <= timestamp e) es ->
  forall (s : Scan) (t1 t2 : datetime),
    earliest_entry s = Some t1 -> latest_entry s = Some t2 ->
    let s' := fold_left (scan_entry since) es s in
    hourly_input s' + hourly_output s'
    = hourly_input s + hourly_output s + sum_tokens es
    /\ entries_in_hour s' = entries_in_hour s + Z.of_nat (length es)
    /\ earliest_entry s' = Some (earliest t1 es)
    /\ latest_entry s' = Some (latest t2 es).
Proof.
  induction 1 as [|e es He Hes IH]; intros s t1 t2 H1 H2; cbn [fold_left].
  - cbn. repeat split; try assumption; lia.
  - apply Z.leb_le in He.
    destruct (IH (scan_entry since s e) (Z.min (timestamp e) t1) (Z.max (timestamp e) t2))
      as [It [Ic [Ie Il]]].
    + unfold scan_entry. rewrite He, H1. cbn.
      destruct (Z.ltb_spec (timestamp e) t1); f_equal; lia.
    + unfold scan_entry. rewrite He, H2. cbn.
      destruct (Z.ltb_spec t2 (timestamp e)); f_equal; lia.
    + cbv zeta. rewrite It, Ic, Ie, Il, earliest_min, latest_max.
      unfold scan_entry. rewrite He. cbn [hourly_input hourly_output entries_in_hour
        sum_tokens fold_right length].
      fold (sum_tokens es). unfold entry_tokens.
      repeat split; lia.
Qed.

(** The rate of the code on the entries of a window is the rate of the
    policy. *)
Lemma rate_of_scan_recent (es : list Entry) :
  Forall (fun e => since <= timestamp e) es ->
  rate_of_scan (fold_left (scan_entry since) es scan0) = policy_rate es
  /\ (entries_in_hour (fold_left (scan_entry since) es scan0) =? 0)
     = match es with [] => true | _ => false end.
Proof.
  intro Hes. destruct es as [|e es]; [split; reflexivity|].
  inversion Hes as [|e' es' He Hrest]; subst.
  cbn [fold_left].
  set (s1 := {| hourly_input := get0 (u_input_tokens (usage e));
                hourly_output := get0 (u_output_tokens (usage e));
                entries_in_hour := 1;
                earliest_entry := Some (timestamp e);
                latest_entry := Some (timestamp e) |}).
  assert (E0 : scan_entry since scan0 e = s1).
  { unfold scan_entry. apply Z.leb_le in He. rewrite He. reflexivity. }
  rewrite E0.
  destruct (scan_recent es Hrest s1 (timestamp e) (timestamp e) eq_refl eq_refl)
    as [It [Ic [Ie Il]]].
  cbv zeta in It, Ic, Ie, Il.
  change (entries_in_hour s1) with 1 in Ic.
  change (hourly_input s1) with (get0 (u_input_tokens (usage e))) in It.
  change (hourly_output s1) with (get0 (u_output_tokens (usage e))) in It.
  assert (Hcount : (entries_in_hour (fold_left (scan_entry since) es s1) =? 0) = false).
  { rewrite Ic. apply Z.eqb_neq. lia. }
  split; [|exact Hcount].
  unfold rate_of_scan, policy_rate. rewrite Ie, Il, Hcount, It.
  assert (Et : get0 (u_input_tokens (usage e)) + get0 (u_output_tokens (usage e))
               + sum_tokens es = sum_tokens (e :: es)) by reflexivity.
  assert (Emin : earliest (timestamp e) es = earliest (timestamp e) (e :: es))
    by (pose proof (earliest_le (timestamp e) es); unfold earliest in *; cbn; lia).
  assert (Emax : latest (timestamp e) es = latest (timestamp e) (e :: es))
    by (pose proof (latest_ge (timestamp e) es); unfold latest in *; cbn; lia).
  rewrite Et, Emin, Emax. cbv zeta. unfold Qltb at 1.
  destruct (Qle_bool 5 _); reflexivity.
Qed.

End BurnRateFacts.

(** The rate of the code is the rate of the policy on blocks whose
    inactive members hold no entry later than their end. *)
Lemma hourly_burn_rate_within (blocks : list Reader.SessionBlock) (now : Reader.datetime) :
  Forall Reader.entries_within blocks ->
  Reader.hourly_burn_rate blocks now = Reader.burn_rate_policy blocks now.
Proof.
  intro Hb. unfold Reader.hourly_burn_rate, Reader.burn_rate_policy. cbv zeta.
  rewrite !scan_blocks_window by exact Hb.
  destruct (rate_of_scan_recent _ _
              (window_entries_recent (now - Reader.timedelta_hours 1) blocks))
    as [R1 C1].
  rewrite C1.
  destruct (Reader.window_entries (now - Reader.timedelta_hours 1) blocks) as [|e es].
  - cbn [fold_left].
    apply (rate_of_scan_recent _ _
             (window_entries_recent (now - Reader.timedelta_hours 2) blocks)).
  - exact R1.
Qed.

(** C4 (as amended): in every state of a reader whose sessions last at
    least an hour, [calculate_hourly_burn_rate] returns the rate of the
    fallback policy on the refreshed blocks: the input and output tokens
    of all entries of the last hour, or of the last two hours when there
    are none, over the span of these entries when the span reaches five
    minutes, or when it exceeds one minute and the tokens are positive,
    and zero otherwise; 1000 tokens over two minutes give 500 tokens per
    minute. *)
Theorem hourly_burn_rate_policy :
  (forall pricing hours cache r now files,
      (1 <= hours)%Q ->
      Reader.reachable pricing hours cache r ->
      fst (Reader.calculate_hourly_burn_rate pricing hours cache r now files)
      = Reader.burn_rate_policy
          (Reader._session_blocks
             (snd (Reader.calculate_hourly_burn_rate pricing hours cache r now files)))
          now)
  /\ (fst (Reader.calculate_hourly_burn_rate Reader.sample_pricing 5
             (30 * Reader.SECOND) Reader.init Reader.noon [Reader.two_minute_log])
      == 500)%Q.
Proof.
  split; [|vm_compute; reflexivity].
  intros pricing hours cache r now files Hh Hr.
  unfold Reader.calculate_hourly_burn_rate. cbn [fst snd].
  apply hourly_burn_rate_within.
  eapply Forall_impl; [intros b Hb; right; exact Hb|].
  apply (reachable_bounded pricing hours cache); [exact Hh|].
  apply Reader.reachable_refresh, Hr.
Qed.

(** C4: the witness, a fresh reader on the two-minute log. *)
Lemma hourly_burn_rate_policy_witness :
  fst (Reader.calculate_hourly_burn_rate Reader.sample_pricing 5
         (30 * Reader.SECOND) Reader.init Reader.noon [Reader.two_minute_log])
  = Reader.burn_rate_policy
      (Reader._session_blocks
         (snd (Reader.calculate_hourly_burn_rate Reader.sample_pricing 5
                 (30 * Reader.SECOND) Reader.init Reader.noon [Reader.two_minute_log])))
      Reader.noon.
Proof.
  apply (proj1 hourly_burn_rate_policy).
  - discriminate.
  - apply Reader.reachable_init.
Defined.

(** C4 (as stated) fails for a span of at most one minute: 1000 tokens in
    two responses thirty seconds apart are not extrapolated; the rate is
    reported as zero. *)
Lemma hourly_burn_rate_counterexample :
  let r := Reader.refresh Reader.init Reader.noon [Reader.thirty_second_log] in
  let recent :=
    Reader.window_entries (Reader.noon - Reader.timedelta_hours 1)
      (Reader._session_blocks r) in
  Reader.sum_tokens recent = 1000
  /\ Reader.latest (Reader.noon - 10 * Reader.MINUTE) recent
     - Reader.earliest (Reader.noon - 10 * Reader.MINUTE) recent
     = 30 * Reader.SECOND
  /\ (fst (Reader.calculate_hourly_burn_rate Reader.sample_pricing 5
             (30 * Reader.SECOND) Reader.init Reader.noon [Reader.thirty_second_log])
      == 0)%Q.
Proof.
  cbv zeta. repeat split; vm_compute; reflexivity.
Qed.

(** C4: why the amended claim asks for sessions of at least an hour.  With
    a session duration of 0 every block ends on the hour of its entry; at
    12:05 the block of the response of 11:10 ended more than an hour ago
    and is skipped although the response lies in the window, so the code
    sees one entry and reports 0 where the policy gives 1000 tokens over
    51 minutes. *)
Lemma hourly_burn_rate_short_session :
  let result :=
    Reader.calculate_hourly_burn_rate Reader.sample_pricing 0 (30 * Reader.SECOND)
      Reader.init (Reader.noon + 5 * Reader.MINUTE) [Reader.fifty_minute_log] in
  (fst result == 0)%Q
  /\ (Reader.burn_rate_policy (Reader._session_blocks (snd result))
        (Reader.noon + 5 * Reader.MINUTE)%Z == 1000 # 51)%Q.
Proof.
  cbv zeta. split; vm_compute; reflexivity.
Qed.

(** * Further properties *)

(** ** adaptive_bounds.py: the rolling window *)

Section WindowFacts.

Import AdaptiveBounds.

Lemma last_n_snoc {A : Type} (w : nat) (a : list A) (x : A) :
  last_n w (last_n w a ++ [x]) = last_n w (a ++ [x]).
Proof.
  unfold last_n.
  assert (E : skipn (length a - w) a ++ [x] = skipn (length a - w) (a ++ [x])).
  { rewrite skipn_app. replace (length a - w - length a)%nat with 0%nat by lia.
    reflexivity. }
  rewrite E, skipn_skipn, length_skipn. f_equal.
  rewrite length_app. cbn. lia.
Qed.

Lemma fold_add_prompt (l : list Z) :
  forall (c : AdaptiveBoundsCalculator) (seen : list Z),
    recent_multipliers c = last_n (window_size c) seen ->
    pattern_history c = map categorize (recent_multipliers c) ->
    let c' := fold_left add_prompt l c in
    window_size c' = window_size c
    /\ recent_multipliers c' = last_n (window_size c) (seen ++ l)
    /\ pattern_history c' = map categorize (recent_multipliers c').
Proof.
  induction l as [|x l IH]; intros c seen Hr Hp; cbn [fold_left].
  - cbv zeta. rewrite app_nil_r. repeat split; assumption.
  - destruct (IH (add_prompt c x) (seen ++ [x])) as [Hw [Hr' Hp']].
    + cbn. unfold deque_append. rewrite Hr. apply last_n_snoc.
    + cbn. unfold deque_append. rewrite Hp.
      replace [categorize x] with (map categorize [x]) by reflexivity.
      rewrite <- map_app. unfold last_n. rewrite length_map, skipn_map. reflexivity.
    + cbv zeta. split; [rewrite Hw; reflexivity|]. split; [|exact Hp'].
      rewrite Hr', <- app_assoc. reflexivity.
Qed.

(** X1: the calculator remembers exactly the last [window_size] message
    counts, oldest first, with their categories in the same order. *)
Theorem observed_window (w : nat) (l : list Z) :
  recent_multipliers (observed w l) = last_n w l
  /\ pattern_history (observed w l) = map categorize (last_n w l)
  /\ (length (recent_multipliers (observed w l)) = Nat.min w (length l))%nat.
Proof.
  destruct (fold_add_prompt l (init w) []) as [_ [Hr Hp]]; try reflexivity.
  cbn in Hr. unfold observed. rewrite Hp, Hr. repeat split.
  unfold last_n. rewrite length_skipn. lia.
Qed.

End WindowFacts.

(** ** adaptive_bounds.py: the pattern and the bounds *)

Section PatternFacts.

Import AdaptiveBounds.

Variable np_sqrt : Q -> Q.

Lemma count_category_total (l : list category) :
  (length l = count_category simple l + count_category moderate l
              + count_category complex l)%nat.
Proof.
  unfold count_category. induction l as [|a l IH]; [reflexivity|].
  destruct a; cbn; lia.
Qed.

Lemma is_dominant_spec (count total : nat) :
  (0 < total)%nat ->
  is_dominant count total = true <-> (6 * total <= 10 * count)%nat.
Proof.
  intro Ht. unfold is_dominant. rewrite Qle_bool_iff.
  destruct total as [|n]; [lia|].
  unfold Qle, Qdiv, Qmult, Qinv, inject_Z. cbn. lia.
Qed.

(** X2: a category is reported as the current pattern exactly when there
    are at least three observations and the category makes up at least
    60% of the last ten; the order in which the code tries the categories
    does not matter. *)
Theorem get_current_pattern_dominant (c : AdaptiveBoundsCalculator) (cat : category) :
  let recent := last_n 10 (pattern_history c) in
  get_current_pattern c = dominant cat
  <-> (3 <= length (pattern_history c)
       /\ 6 * length recent <= 10 * count_category cat recent)%nat.
Proof.
  cbv zeta. unfold get_current_pattern.
  destruct (length (pattern_history c) <? 3)%nat eqn:E3.
  - apply Nat.ltb_lt in E3. split; [discriminate|lia].
  - apply Nat.ltb_ge in E3.
    set (recent := last_n 10 (pattern_history c)).
    pose proof (count_category_total recent) as Htot.
    assert (Hlen : (3 <= length recent)%nat).
    { subst recent. unfold last_n. rewrite length_skipn. lia. }
    rewrite <- Htot.
    destruct (length recent =? 0)%nat eqn:E0; [apply Nat.eqb_eq in E0; lia|].
    assert (Hpos : (0 < length recent)%nat) by lia.
    pose proof (is_dominant_spec (count_category simple recent) _ Hpos) as Hs.
    pose proof (is_dominant_spec (count_category moderate recent) _ Hpos) as Hm.
    pose proof (is_dominant_spec (count_category complex recent) _ Hpos) as Hc.
    destruct (is_dominant (count_category simple recent) (length recent));
      [|destruct (is_dominant (count_category moderate recent) (length recent));
        [|destruct (is_dominant (count_category complex recent) (length recent))]];
      destruct cat; split;
      try (intro H; (discriminate H || (split; [exact E3|]; tauto)));
      intros [_ H]; try reflexivity; exfalso;
      repeat match goal with
             | H' : true = true <-> _ |- _ => pose proof (proj1 H' eq_refl); clear H'
             | H' : false = true <-> _ |- _ =>
                 assert (~ (6 * length recent <= 10 * _)%nat)
                   by (intro Hx; apply H' in Hx; discriminate Hx); clear H'
             end; lia.
Qed.

Lemma Qtruncate_nonneg_floor (q : Q) : (0 <= q)%Q -> Qtruncate q = Qfloor q.
Proof.
  destruct q as [n d]. unfold Qle, Qtruncate, Qfloor. cbn. intro H.
  apply Z.quot_div_nonneg; lia.
Qed.

Lemma Qtruncate_monotone (p q : Q) :
  (0 <= p)%Q -> (p <= q)%Q -> Qtruncate p <= Qtruncate q.
Proof.
  intros Hp Hpq.
  rewrite !Qtruncate_nonneg_floor; [apply Qfloor_resp_le; exact Hpq| |exact Hp].
  apply Qle_trans with (y := p); assumption.
Qed.

Lemma Qdiv_denominator_le (l a b : Q) :
  (0 <= l)%Q -> (0 < a)%Q -> (a <= b)%Q -> (0 <= l / b)%Q /\ (l / b <= l / a)%Q.
Proof.
  intros Hl Ha Hab.
  assert (Hb : (0 < b)%Q) by (apply Qlt_le_trans with (y := a); assumption).
  split.
  - apply Qle_shift_div_l; [exact Hb|]. lra.
  - apply Qle_shift_div_l; [exact Ha|].
    setoid_replace (l / b * a)%Q with (l * a / b)%Q by (field; intro H0; lra).
    apply Qle_shift_div_r; [exact Hb|]. nra.
Qed.

Lemma Zpy_max_monotone (x y : Z) : x <= y -> 0 <= Zpy_max 0 x <= Zpy_max 0 y.
Proof.
  intro H. unfold Zpy_max.
  destruct (Z.ltb_spec 0 x); destruct (Z.ltb_spec 0 y); lia.
Qed.

(** The bounds computed from a point estimate of at least 1 are ordered. *)
Lemma bounds_with_ordered (m : Q) (message_limit prompts_used : Z) (confidence : Q)
    (p : pattern) :
  (1 <= m)%Q -> 0 <= message_limit ->
  let b := bounds_with m (clamp_lower m) (clamp_upper m) message_limit prompts_used
             confidence p in
  0 <= lower b /\ lower b <= expected b /\ expected b <= upper b.
Proof.
  intros Hm Hl. cbv zeta. cbn [lower expected upper bounds_with].
  assert (Hpos : Qltb 0 m = true) by (apply Qltb_lt; lra).
  rewrite Hpos.
  assert (HL : (0 <= inject_Z message_limit)%Q)
    by (change 0%Q with (inject_Z 0); rewrite <- Zle_Qle; exact Hl).
  assert (Hlow : (0 < clamp_lower m)%Q /\ (clamp_lower m <= m)%Q).
  { unfold clamp_lower, py_max. destruct (Qlt_le_dec 1 (m * 0.9)); split; lra. }
  destruct Hlow as [Hlow1 Hlow2].
  assert (Hup : (m <= clamp_upper m)%Q) by (unfold clamp_upper; lra).
  destruct (Qdiv_denominator_le (inject_Z message_limit) m (clamp_upper m) HL
              ltac:(lra) Hup) as [H1 H2].
  destruct (Qdiv_denominator_le (inject_Z message_limit) (clamp_lower m) m HL
              Hlow1 Hlow2) as [H3 H4].
  pose proof (Qtruncate_monotone _ _ H1 H2) as T1.
  pose proof (Qtruncate_monotone _ _ H3 H4) as T2.
  pose proof (Zpy_max_monotone
                (Qtruncate (inject_Z message_limit / clamp_upper m) - prompts_used)
                (Qtruncate (inject_Z message_limit / m) - prompts_used) ltac:(lia)).
  pose proof (Zpy_max_monotone
                (Qtruncate (inject_Z message_limit / m) - prompts_used)
                (Qtruncate (inject_Z message_limit / clamp_lower m) - prompts_used)
                ltac:(lia)).
  lia.
Qed.

(** X3: for message counts of at least 1 and a limit that is not
    negative, [calculate_bounds] returns ordered bounds:
    [0 <= lower <= expected <= upper]. *)
Theorem calculate_bounds_ordered
    (c : AdaptiveBoundsCalculator) (message_limit prompts_used : Z) (confidence : Q) :
  Forall (fun x => 1 <= x) (recent_multipliers c) ->
  0 <= message_limit ->
  exists b,
    calculate_bounds np_sqrt c message_limit prompts_used confidence = Ok b
    /\ 0 <= lower b /\ lower b <= expected b /\ expected b <= upper b.
Proof.
  intros Hc Hl.
  pose proof (point_estimate_ge_one c Hc) as Hm.
  eexists. split.
  - apply calculate_bounds_clamped.
    apply Qle_trans with (y := 1%Q); [discriminate|exact Hm].
  - apply bounds_with_ordered; assumption.
Qed.

(** X20: on a reader the program can reach, [get_prompt_bounds] with a
    message limit that is not negative never raises and returns ordered
    bounds; it touches the bounds calculator only. *)
Theorem get_prompt_bounds_ordered
    (plan_message_limit : string -> Z)
    (pricing : string -> Reader.Pricing) (hours : Q) (cache : Z)
    (r : Reader.ClaudeCodeReader) (now : Reader.datetime)
    (plan_name : string) (prompts_used : Z) (confidence : Q) :
  Reader.reachable pricing hours cache r ->
  0 <= plan_message_limit plan_name ->
  let result :=
    Reader.get_prompt_bounds np_sqrt plan_message_limit r now plan_name prompts_used
      confidence in
  (exists b,
      fst result = Ok b
      /\ 0 <= lower b /\ lower b <= expected b /\ expected b <= upper b)
  /\ Reader._session_blocks (snd result) = Reader._session_blocks r
  /\ Reader._blocks_last_updated (snd result) = Reader._blocks_last_updated r
  /\ Reader._full_data_loaded (snd result) = Reader._full_data_loaded r.
Proof.
  intros Hr Hl. cbv zeta. unfold Reader.get_prompt_bounds. cbn [fst snd].
  split; [|repeat split].
  assert (Hm : (1 <= point_estimate
                       (Reader._bounds_calculator (Reader.update_bounds_calculator r now)))%Q).
  { apply point_estimate_ge_one.
    apply (reachable_counts_positive pricing hours cache).
    apply Reader.reachable_bounds, Hr. }
  eexists. split.
  - apply calculate_bounds_clamped.
    apply Qle_trans with (y := 1%Q); [discriminate|exact Hm].
  - apply bounds_with_ordered; assumption.
Qed.

End PatternFacts.

(** X3: the witness, five prompts of five messages each. *)
Lemma calculate_bounds_ordered_witness :
  exists b,
    AdaptiveBounds.calculate_bounds sqrt_approx
      (AdaptiveBounds.observed 20 [5; 5; 5; 5; 5]) 900 50 0.8 = Ok b
    /\ 0 <= AdaptiveBounds.lower b
    /\ AdaptiveBounds.lower b <= AdaptiveBounds.expected b
    /\ AdaptiveBounds.expected b <= AdaptiveBounds.upper b.
Proof.
  apply calculate_bounds_ordered.
  - vm_compute. repeat constructor; discriminate.
  - lia.
Defined.

(** X20: the witness, a reader whose log holds a busy hour: the
    calculator is fed the counts of six prompts, so that the bounds come
    from the observed counts, and the blocks of the reader stay as they
    are. *)
Lemma get_prompt_bounds_ordered_witness :
  let result :=
    Reader.get_prompt_bounds sqrt_approx (fun _ => 900) Reader.reader_busy Reader.noon
      "max20x" 3 0.8 in
  ((exists b,
       fst result = Ok b
       /\ 0 <= AdaptiveBounds.lower b
       /\ AdaptiveBounds.lower b <= AdaptiveBounds.expected b
       /\ AdaptiveBounds.expected b <= AdaptiveBounds.upper b)
   /\ Reader._session_blocks (snd result) = Reader._session_blocks Reader.reader_busy
   /\ Reader._blocks_last_updated (snd result)
      = Reader._blocks_last_updated Reader.reader_busy
   /\ Reader._full_data_loaded (snd result) = Reader._full_data_loaded Reader.reader_busy)
  /\ AdaptiveBounds.recent_multipliers (Reader._bounds_calculator (snd result))
     = [2; 3; 2; 4; 2; 3]
  /\ AdaptiveBounds.recent_multipliers (Reader._bounds_calculator Reader.reader_busy) = [].
Proof.
  cbv zeta. split; [|split; vm_compute; reflexivity].
  apply (get_prompt_bounds_ordered sqrt_approx (fun _ => 900) Reader.sample_pricing 5
           (30 * Reader.SECOND) Reader.reader_busy Reader.noon "max20x" 3 0.8).
  - apply Reader.reachable_refresh, Reader.reachable_init.
  - lia.
Defined.

(** ** adaptive_bounds.py: the statistics per pattern *)

Section PatternStatsFacts.

Import AdaptiveBounds.

Variable np_sqrt : Q -> Q.

Lemma Qlen_cons (x : Q) (l : list Q) : (Qlen (x :: l) == Qlen l + 1)%Q.
Proof.
  unfold Qlen. cbn [length]. rewrite Nat2Z.inj_succ, <- Z.add_1_r, inject_Z_plus.
  reflexivity.
Qed.

Lemma Qlen_pos (x : Q) (l : list Q) : (0 < Qlen (x :: l))%Q.
Proof.
  unfold Qlen. change 0%Q with (inject_Z 0). rewrite <- Zlt_Qlt. cbn [length]. lia.
Qed.

Lemma Qsum_lower (a : Q) (l : list Q) :
  Forall (fun x => a <= x)%Q l -> (Qlen l * a <= Qsum l)%Q.
Proof.
  induction 1 as [|x l Hx Hl IH].
  - change (0 * a <= 0)%Q. lra.
  - rewrite Qlen_cons. change (Qsum (x :: l)) with (x + Qsum l)%Q.
    setoid_replace ((Qlen l + 1) * a)%Q with (Qlen l * a + a)%Q by ring.
    set (t := (Qlen l * a)%Q) in *. lra.
Qed.

Lemma Qsum_upper (b : Q) (l : list Q) :
  Forall (fun x => x <= b)%Q l -> (Qsum l <= Qlen l * b)%Q.
Proof.
  induction 1 as [|x l Hx Hl IH].
  - change (0 <= 0 * b)%Q. lra.
  - rewrite Qlen_cons. change (Qsum (x :: l)) with (x + Qsum l)%Q.
    setoid_replace ((Qlen l + 1) * b)%Q with (Qlen l * b + b)%Q by ring.
    set (t := (Qlen l * b)%Q) in *. lra.
Qed.

(** The mean of a non-empty sample lies between any bounds of its
    elements. *)
Lemma np_mean_lower (a x : Q) (l : list Q) :
  Forall (fun y => a <= y)%Q (x :: l) -> (a <= np_mean (x :: l))%Q.
Proof.
  intro H. unfold np_mean. apply Qle_shift_div_l; [apply Qlen_pos|].
  rewrite Qmult_comm. apply Qsum_lower, H.
Qed.

Lemma np_mean_upper (b x : Q) (l : list Q) :
  Forall (fun y => y <= b)%Q (x :: l) -> (np_mean (x :: l) <= b)%Q.
Proof.
  intro H. unfold np_mean. apply Qle_shift_div_r; [apply Qlen_pos|].
  rewrite Qmult_comm. apply Qsum_upper, H.
Qed.

Lemma pattern_group_range (cat : category) (l : list Z) :
  Forall (fun x => match cat with
                   | simple => x <= 3
                   | moderate => 4 <= x <= 8
                   | complex => 9 <= x
                   end) (pattern_group cat l).
Proof.
  apply Forall_forall. intros x Hx. unfold pattern_group in Hx.
  apply filter_In in Hx. destruct Hx as [_ Hx].
  unfold categorize, SIMPLE_THRESHOLD, COMPLEX_THRESHOLD in Hx.
  destruct (Z.leb_spec x 3); [destruct cat; (discriminate Hx || lia)|].
  rewrite Z.geb_leb in Hx.
  destruct (Z.leb_spec 9 x); destruct cat; (discriminate Hx || lia).
Qed.

Lemma pattern_group_total (l : list Z) :
  (length l = length (pattern_group simple l) + length (pattern_group moderate l)
              + length (pattern_group complex l))%nat.
Proof.
  unfold pattern_group. induction l as [|x l IH]; [reflexivity|].
  cbn [filter]. destruct (categorize x); cbn; lia.
Qed.

Lemma group_mean_range (cat : category) (x : Z) (l : list Z) :
  Forall (fun x => match cat with
                   | simple => x <= 3
                   | moderate => 4 <= x <= 8
                   | complex => 9 <= x
                   end) (x :: l) ->
  in_category_range cat (np_mean (map inject_Z (x :: l))).
Proof.
  intro H. cbn [map].
  destruct cat; cbn [in_category_range]; [|split|].
  - apply np_mean_upper. change (inject_Z x :: map inject_Z l) with (map inject_Z (x :: l)).
    apply Forall_map. eapply Forall_impl; [|exact H]. cbn. intros z Hz.
    change (inject_Z z <= inject_Z 3)%Q. rewrite <- Zle_Qle. exact Hz.
  - apply np_mean_lower. change (inject_Z x :: map inject_Z l) with (map inject_Z (x :: l)).
    apply Forall_map. eapply Forall_impl; [|exact H]. cbn. intros z Hz.
    change (inject_Z 4 <= inject_Z z)%Q. rewrite <- Zle_Qle. lia.
  - apply np_mean_upper. change (inject_Z x :: map inject_Z l) with (map inject_Z (x :: l)).
    apply Forall_map. eapply Forall_impl; [|exact H]. cbn. intros z Hz.
    change (inject_Z z <= inject_Z 8)%Q. rewrite <- Zle_Qle. lia.
  - apply np_mean_lower. change (inject_Z x :: map inject_Z l) with (map inject_Z (x :: l)).
    apply Forall_map. eapply Forall_impl; [|exact H]. cbn. intros z Hz.
    change (inject_Z 9 <= inject_Z z)%Q. rewrite <- Zle_Qle. exact Hz.
Qed.

(** X4: [get_pattern_stats] reports only non-empty groups, their counts
    add up to the number of remembered message counts, and the mean of
    each group lies in the range of its pattern: at most 3 for simple,
    from 4 to 8 for moderate, at least 9 for complex. *)
Theorem get_pattern_stats_groups (c : AdaptiveBoundsCalculator) :
  let stats := get_pattern_stats np_sqrt c in
  fold_right (fun kv n => stats_count (snd kv) + n)%nat 0%nat stats
  = length (recent_multipliers c)
  /\ Forall (fun kv => (0 < stats_count (snd kv))%nat
                       /\ in_category_range (fst kv) (stats_mean (snd kv))) stats.
Proof.
  cbv zeta. unfold get_pattern_stats.
  destruct (recent_multipliers c) as [|y ys] eqn:El; [split; [reflexivity|constructor]|].
  rewrite <- El. clear El y ys.
  pose proof (pattern_group_total (recent_multipliers c)) as Htot.
  pose proof (pattern_group_range simple (recent_multipliers c)) as Hs.
  pose proof (pattern_group_range moderate (recent_multipliers c)) as Hm.
  pose proof (pattern_group_range complex (recent_multipliers c)) as Hc.
  cbn [flat_map].
  destruct (pattern_group simple (recent_multipliers c)) as [|s ss];
    destruct (pattern_group moderate (recent_multipliers c)) as [|m ms];
    destruct (pattern_group complex (recent_multipliers c)) as [|x xs];
    cbn [app fold_right snd fst stats_count stats_mean length] in *;
    (split; [lia|]);
    repeat (constructor; [cbn [fst snd stats_count stats_mean];
                          split; [lia|apply group_mean_range; assumption]|]);
    constructor.
Qed.

End PatternStatsFacts.

(** ** bayesian_limits.py: beliefs and predictions *)

Section BeliefFacts.

Import BayesianLimits.

Variable np_sqrt : Q -> Q.
Variable beta_ppf : Q -> Q -> Q -> Q.

Lemma update_fields (b b' : LimitBelief) (x : Q) :
  update b x = Ok b' ->
  (alpha b' + beta b' == alpha b + beta b + 2.5)%Q
  /\ (alpha b < alpha b')%Q /\ (beta b < beta b')%Q
  /\ scale b' = scale b.
Proof.
  intro H. unfold update in H.
  destruct (py_div x (scale b)) as [n|]; [|discriminate H]. cbn [bind] in H.
  destruct (Qltb 0.9 n); [|destruct (Qltb 0.8 n)];
    inversion H; subst; cbn [alpha beta scale];
    (split; [ring|]); (split; [lra|]); (split; [lra|reflexivity]).
Qed.

(** X5: [update] raises [ZeroDivisionError] on a belief whose scale is 0,
    whatever the observation; on any other belief it returns, adds 2.5 to
    [alpha + beta] whatever the observation, increases both shape
    parameters and leaves the scale alone. *)
Theorem update_evidence (b : LimitBelief) (x : Q) :
  ((scale b == 0)%Q -> update b x = Raise ZeroDivisionError)
  /\ (~ (scale b == 0)%Q ->
      exists b',
        update b x = Ok b'
        /\ (alpha b' + beta b' == alpha b + beta b + 2.5)%Q
        /\ (alpha b < alpha b')%Q /\ (beta b < beta b')%Q
        /\ scale b' = scale b).
Proof.
  split; intro Hs.
  - unfold update, py_div. apply Qeq_bool_iff in Hs. rewrite Hs. reflexivity.
  - assert (E : exists b', update b x = Ok b').
    { unfold update. rewrite py_div_ok by exact Hs. cbn [bind].
      destruct (Qltb 0.9 _); [|destruct (Qltb 0.8 _)]; eexists; reflexivity. }
    destruct E as [b' E]. exists b'. split; [exact E|].
    apply (update_fields b b' x E).
Qed.

Lemma priors_scale_positive (plan : string) (k : metric) : (0 < snd (priors plan k))%Q.
Proof.
  unfold priors.
  destruct (String.eqb plan "pro"); [|destruct (String.eqb plan "max5x")];
    destruct k; reflexivity.
Qed.

Lemma update_opt_scale (b b' : LimitBelief) (o : option Q) :
  update_opt b o = Ok b' -> scale b' = scale b.
Proof.
  destruct o as [x|]; cbn; intro H.
  - apply (update_fields b b' x H).
  - inversion H. reflexivity.
Qed.

Lemma update_from_session_fields (e e' : BayesianLimitEstimator) (d : SessionData) :
  update_from_session e d = Ok e' ->
  plan_name e' = plan_name e
  /\ confidence_threshold e' = confidence_threshold e
  /\ total_observations e'
     = total_observations e + match sessions_analyzed d with Some n => n | None => 1 end
  /\ forall k, scale (belief (limits e') k) = scale (belief (limits e) k).
Proof.
  intro Hu. unfold update_from_session in Hu.
  destruct (update_opt (limits_tokens (limits e)) (max_tokens d)) as [t|] eqn:Et;
    [|discriminate Hu].
  destruct (update_opt (limits_messages (limits e)) (max_messages d)) as [m|] eqn:Em;
    [|discriminate Hu].
  destruct (update_opt (limits_prompts (limits e)) (max_prompts d)) as [p|] eqn:Ep;
    [|discriminate Hu].
  cbn [bind] in Hu. inversion Hu; subst; clear Hu. cbn.
  repeat split.
  intros []; cbn; eapply update_opt_scale; eassumption.
Qed.

(** The plan, the threshold and the scales of a reachable estimator are
    those of its priors. *)
Lemma reachable_scale (e : BayesianLimitEstimator) :
  reachable e ->
  confidence_threshold e = 10
  /\ forall k, scale (belief (limits e) k) = snd (priors (plan_name e) k).
Proof.
  induction 1 as [plan|e e' d Hr [IHt IHs] Hu].
  - split; [reflexivity|]. intros []; reflexivity.
  - destruct (update_from_session_fields e e' d Hu) as [Hp [Ht [_ Hs]]].
    split; [congruence|]. intro k. rewrite Hs, Hp. apply IHs.
Qed.

Lemma update_opt_total (b : LimitBelief) (o : option Q) :
  (0 < scale b)%Q -> exists b', update_opt b o = Ok b'.
Proof.
  intro Hs. destruct o as [x|]; cbn; [|eexists; reflexivity].
  unfold update. rewrite py_div_ok by (intro H; lra). cbn [bind].
  destruct (Qltb 0.9 _); [|destruct (Qltb 0.8 _)]; eexists; reflexivity.
Qed.

(** X6: on a reachable estimator [update_from_session] never raises; it
    adds [sessions_analyzed], or 1 when the key is missing, to the number
    of observations, whatever metrics the dictionary holds, and keeps the
    plan and the scales. *)
Theorem update_from_session_total (e : BayesianLimitEstimator) (d : SessionData) :
  reachable e ->
  exists e',
    update_from_session e d = Ok e'
    /\ total_observations e'
       = total_observations e + match sessions_analyzed d with Some n => n | None => 1 end
    /\ plan_name e' = plan_name e
    /\ forall k, scale (belief (limits e') k) = scale (belief (limits e) k).
Proof.
  intro Hr. destruct (reachable_scale e Hr) as [_ Hs].
  assert (Hpos : forall k, (0 < scale (belief (limits e) k))%Q)
    by (intro k; rewrite Hs; apply priors_scale_positive).
  assert (He : exists e', update_from_session e d = Ok e').
  { unfold update_from_session.
    destruct (update_opt_total _ (max_tokens d) (Hpos tokens)) as [t Et].
    destruct (update_opt_total _ (max_messages d) (Hpos messages)) as [m Em].
    destruct (update_opt_total _ (max_prompts d) (Hpos prompts)) as [p Ep].
    cbn [belief] in Et, Em, Ep. rewrite Et, Em, Ep. cbn [bind].
    eexists. reflexivity. }
  destruct He as [e' He]. exists e'.
  destruct (update_from_session_fields e e' d He) as [Hp [_ [Ht Hsc]]].
  repeat split; assumption.
Qed.

(** X7: the estimate of a reachable estimator lies strictly between 0
    and the scale of its metric. *)
Theorem mean_within_scale (e : BayesianLimitEstimator) (k : metric) :
  reachable e ->
  exists m,
    mean (belief (limits e) k) = Ok m
    /\ (0 < m)%Q /\ (m < scale (belief (limits e) k))%Q.
Proof.
  intro Hr. destruct (reachable_scale e Hr) as [_ Hs].
  pose proof (reachable_positive e Hr k) as [Ha Hb].
  pose proof (priors_scale_positive (plan_name e) k) as Hp. rewrite <- Hs in Hp.
  set (b := belief (limits e) k) in *.
  eexists. split; [apply mean_positive; split; assumption|].
  assert (Hab : (0 < alpha b + beta b)%Q) by lra.
  assert (H0 : (0 < alpha b / (alpha b + beta b))%Q)
    by (apply Qlt_shift_div_l; [exact Hab|lra]).
  assert (H1 : (alpha b / (alpha b + beta b) < 1)%Q)
    by (apply Qlt_shift_div_r; [exact Hab|lra]).
  set (r := (alpha b / (alpha b + beta b))%Q) in *.
  split; nra.
Qed.

Lemma hours_ltb_false (a b : hours) :
  hours_ltb a b = false <->
  match a, b with
  | Finite x, Finite y => (y <= x)%Q
  | Finite _, Inf => False
  | Inf, _ => True
  end.
Proof.
  destruct a as [x|], b as [y|]; cbn; try (split; [discriminate|contradiction]);
    try tauto.
  apply Qltb_ge.
Qed.

(** [min]: no prediction is smaller than the one of the chosen metric. *)
Lemma min_metric_minimal (p : metric -> hours) (k : metric) :
  hours_ltb (p k) (p (min_metric p)) = false.
Proof.
  unfold min_metric.
  destruct (hours_ltb (p messages) (p tokens)) eqn:E1;
    [destruct (hours_ltb (p prompts) (p messages)) eqn:E2
    |destruct (hours_ltb (p prompts) (p tokens)) eqn:E2];
    destruct k; apply hours_ltb_false;
    try (apply hours_ltb_false in E1); try (apply hours_ltb_false in E2);
    repeat match goal with
           | H : hours_ltb ?a ?b = true |- _ =>
               assert (hours_ltb b a = false /\ exists x, a = Finite x)
                 by (destruct a, b; cbn in H |- *;
                     try discriminate H;
                     (split; [try reflexivity; apply Qltb_ge; apply Qltb_lt in H; lra
                             |eexists; reflexivity]));
               let H' := fresh in
               assert (H' : match a, b with
                            | Finite x, Finite y => (x < y)%Q
                            | Finite _, Inf => True
                            | Inf, _ => False
                            end)
                 by (destruct a, b; cbn in H |- *; try discriminate H;
                     try exact I; apply Qltb_lt, H);
               clear H
           end;
    destruct (p tokens), (p messages), (p prompts); cbn in *;
    try tauto; try lra.
Qed.

(** X8: on a reachable estimator [predict_limit_times] returns;
    [time_to_limit] is the prediction of [limiting_factor], no prediction
    is smaller, and no prediction is negative. *)
Theorem predict_limit_times_minimal (e : BayesianLimitEstimator)
    (current_usage burn_rates : metric -> option Q) :
  reachable e ->
  exists p,
    predict_limit_times np_sqrt beta_ppf e current_usage burn_rates = Ok p
    /\ time_to_limit p = prediction p (limiting_factor p)
    /\ (forall k, hours_ltb (prediction p k) (time_to_limit p) = false)
    /\ (forall k, hours_nonneg (prediction p k)).
Proof.
  intro Hr. destruct (get_estimated_limits_reachable np_sqrt beta_ppf e Hr) as [l [El _]].
  unfold predict_limit_times. rewrite El. cbn [bind]. unfold predictions. cbv zeta.
  set (p := predict_metric l current_usage burn_rates).
  eexists. split; [reflexivity|].
  cbn [time_to_limit limiting_factor].
  assert (Hp : forall k, prediction
                 {| pred_tokens := p tokens; pred_messages := p messages;
                    pred_prompts := p prompts; limiting_factor := min_metric p;
                    time_to_limit := p (min_metric p) |} k = p k)
    by (intros []; reflexivity).
  split; [rewrite Hp; reflexivity|]. split.
  - intro k. rewrite Hp. apply min_metric_minimal.
  - intro k. rewrite Hp. subst p. unfold predict_metric.
    destruct (current_usage k); [|exact I].
    destruct (burn_rates k); [|exact I].
    destruct (Qltb 0 q0); [|exact I].
    cbn. apply py_max_ge_l.
Qed.

(** X9: when no metric has a positive burn rate, every prediction of a
    reachable estimator is infinite and the limiting factor is the first
    metric, tokens. *)
Theorem predict_limit_times_idle (e : BayesianLimitEstimator)
    (current_usage burn_rates : metric -> option Q) :
  reachable e ->
  (forall k r, burn_rates k = Some r -> (r <= 0)%Q) ->
  exists p,
    predict_limit_times np_sqrt beta_ppf e current_usage burn_rates = Ok p
    /\ (forall k, prediction p k = Inf)
    /\ limiting_factor p = tokens
    /\ time_to_limit p = Inf.
Proof.
  intros Hr Hb.
  destruct (get_estimated_limits_reachable np_sqrt beta_ppf e Hr) as [l [El _]].
  unfold predict_limit_times. rewrite El. cbn [bind]. unfold predictions. cbv zeta.
  assert (Hinf : forall k, predict_metric l current_usage burn_rates k = Inf).
  { intro k. unfold predict_metric.
    destruct (current_usage k); [|reflexivity].
    destruct (burn_rates k) as [r|] eqn:Er; [|reflexivity].
    destruct (Qltb 0 r) eqn:E; [|reflexivity].
    apply Qltb_lt in E. pose proof (Hb k r Er). lra. }
  eexists. split; [reflexivity|].
  split; [intros []; cbn; apply Hinf|].
  cbn [limiting_factor time_to_limit]. unfold min_metric. rewrite !Hinf. cbn.
  split; reflexivity.
Qed.

(** X10: a reachable estimator reports high confidence, with 95%
    intervals, exactly when it counts at least ten observations;
    [get_estimated_limits] and [get_confidence_description] agree on
    it. *)
Theorem confidence_levels_agree (e : BayesianLimitEstimator) :
  reachable e ->
  exists l,
    get_estimated_limits np_sqrt beta_ppf e = Ok l
    /\ (10 <= total_observations e ->
        est_confidence_level l = "high"%string
        /\ (forall k, confidence (est l k) = 0.95%Q)
        /\ get_confidence_description e
           = "High confidence - Trained on your usage patterns"%string)
    /\ (total_observations e < 10 ->
        est_confidence_level l = "learning"%string
        /\ (forall k, confidence (est l k) = 0.80%Q)
        /\ get_confidence_description e
           <> "High confidence - Trained on your usage patterns"%string).
Proof.
  intro Hr. destruct (reachable_scale e Hr) as [Ht _].
  pose proof (reachable_positive e Hr) as Hp.
  unfold get_estimated_limits, get_confidence_description. rewrite Ht.
  set (conf := if total_observations e >=? 10 then 0.95%Q else 0.80%Q).
  destruct (metric_estimate_positive np_sqrt beta_ppf _ conf (Hp tokens)) as [t [Et _]].
  destruct (metric_estimate_positive np_sqrt beta_ppf _ conf (Hp messages)) as [m [Em _]].
  destruct (metric_estimate_positive np_sqrt beta_ppf _ conf (Hp prompts)) as [p [Ep _]].
  cbn [belief] in Et, Em, Ep. rewrite Et, Em, Ep. cbn [bind].
  assert (Hconf : forall k, confidence
            (est {| est_tokens := t; est_messages := m; est_prompts := p;
                    est_total_observations := total_observations e;
                    est_confidence_level :=
                      if total_observations e >=? 10 then "high" else "learning" |} k)
            = conf).
  { unfold metric_estimate in Et, Em, Ep.
    intros []; cbn [est est_tokens est_messages est_prompts];
      [destruct (mean (limits_tokens (limits e))), (variance (limits_tokens (limits e)))
      |destruct (mean (limits_messages (limits e))), (variance (limits_messages (limits e)))
      |destruct (mean (limits_prompts (limits e))), (variance (limits_prompts (limits e)))];
      cbn [bind] in *; try discriminate;
      match goal with H : Ok _ = Ok ?x |- confidence ?x = _ => inversion H; reflexivity end. }
  eexists. split; [reflexivity|]. cbn [est_confidence_level].
  split; intro H.
  - assert (E : (total_observations e >=? 10) = true)
      by (rewrite Z.geb_leb; apply Z.leb_le; exact H).
    subst conf. rewrite E in *. repeat split; try reflexivity. exact Hconf.
  - assert (E : (total_observations e >=? 10) = false)
      by (rewrite Z.geb_leb; apply Z.leb_gt; exact H).
    subst conf. rewrite E in *. repeat split; try reflexivity; try exact Hconf.
    destruct (total_observations e >=? 5); discriminate.
Qed.

End BeliefFacts.

Section BeliefWitnesses.

Import BayesianLimits.

(** X5: the witness, the token belief of a fresh [pro] estimator and an
    observation of 29000 tokens. *)
Lemma update_evidence_witness :
  exists b',
    update (limits_tokens (limits (init "pro"))) 29000 = Ok b'
    /\ (alpha b' + beta b'
        == alpha (limits_tokens (limits (init "pro")))
           + beta (limits_tokens (limits (init "pro"))) + 2.5)%Q
    /\ (alpha (limits_tokens (limits (init "pro"))) < alpha b')%Q
    /\ (beta (limits_tokens (limits (init "pro"))) < beta b')%Q
    /\ scale b' = scale (limits_tokens (limits (init "pro"))).
Proof.
  apply (proj2 (update_evidence (limits_tokens (limits (init "pro"))) 29000)).
  intro H. vm_compute in H. discriminate H.
Defined.

(** X6: the witness, a fresh [max5x] estimator and three analysed
    sessions without a message maximum. *)
Lemma update_from_session_total_witness :
  exists e',
    update_from_session (init "max5x")
      {| max_tokens := Some 95000%Q; max_messages := None;
         max_prompts := Some 120%Q; sessions_analyzed := Some 3 |} = Ok e'
    /\ total_observations e' = total_observations (init "max5x") + 3
    /\ plan_name e' = plan_name (init "max5x")
    /\ forall k, scale (belief (limits e') k)
                 = scale (belief (limits (init "max5x")) k).
Proof.
  apply (update_from_session_total (init "max5x")
           {| max_tokens := Some 95000%Q; max_messages := None;
              max_prompts := Some 120%Q; sessions_analyzed := Some 3 |}).
  apply reachable_init.
Defined.

(** X7: the witness, the message estimate of a fresh [pro] estimator. *)
Lemma mean_within_scale_witness :
  exists m,
    mean (belief (limits (init "pro")) messages) = Ok m
    /\ (0 < m)%Q /\ (m < scale (belief (limits (init "pro")) messages))%Q.
Proof.
  apply (mean_within_scale (init "pro") messages). apply reachable_init.
Defined.

(** X8: the witness, a fresh [max20x] estimator with every metric at 1000
    and burning 10 an hour. *)
Lemma predict_limit_times_minimal_witness :
  exists p,
    predict_limit_times sqrt_approx (fun _ _ _ => 0%Q) (init "max20x")
      (every_metric 1000) (every_metric 10) = Ok p
    /\ time_to_limit p = prediction p (limiting_factor p)
    /\ (forall k, hours_ltb (prediction p k) (time_to_limit p) = false)
    /\ (forall k, hours_nonneg (prediction p k)).
Proof.
  apply (predict_limit_times_minimal sqrt_approx (fun _ _ _ => 0%Q) (init "max20x")
           (every_metric 1000) (every_metric 10)).
  apply reachable_init.
Defined.

(** X9: the witness, the same estimator with nothing burning. *)
Lemma predict_limit_times_idle_witness :
  exists p,
    predict_limit_times sqrt_approx (fun _ _ _ => 0%Q) (init "max20x")
      (every_metric 1000) (every_metric 0) = Ok p
    /\ (forall k, prediction p k = Inf)
    /\ limiting_factor p = tokens
    /\ time_to_limit p = Inf.
Proof.
  apply (predict_limit_times_idle sqrt_approx (fun _ _ _ => 0%Q) (init "max20x")
           (every_metric 1000) (every_metric 0)).
  - apply reachable_init.
  - intros k r H. inversion H. discriminate.
Defined.

(** X10: the witness, a fresh [max20x] estimator. *)
Lemma confidence_levels_agree_witness :
  exists l,
    get_estimated_limits sqrt_approx (fun _ _ _ => 0%Q) (init "max20x") = Ok l
    /\ (10 <= total_observations (init "max20x") ->
        est_confidence_level l = "high"%string
        /\ (forall k, confidence (est l k) = 0.95%Q)
        /\ get_confidence_description (init "max20x")
           = "High confidence - Trained on your usage patterns"%string)
    /\ (total_observations (init "max20x") < 10 ->
        est_confidence_level l = "learning"%string
        /\ (forall k, confidence (est l k) = 0.80%Q)
        /\ get_confidence_description (init "max20x")
           <> "High confidence - Trained on your usage patterns"%string).
Proof.
  apply (confidence_levels_agree sqrt_approx (fun _ _ _ => 0%Q) (init "max20x")).
  apply reachable_init.
Defined.

End BeliefWitnesses.

(** ** claude_code_reader.py: what ingestion returns *)

Section LoadedEntries.

Import Reader.

Lemma insert_entry_Forall (P : Entry -> Prop) (e : Entry) (l : list Entry) :
  P e -> Forall P l -> Forall P (insert_entry e l).
Proof.
  intros He. induction 1 as [|x l Hx Hl IH]; cbn.
  - constructor; [exact He|constructor].
  - destruct (timestamp e <=? timestamp x).
    + constructor; [exact He|]. constructor; assumption.
    + constructor; assumption.
Qed.

Lemma sort_entries_Forall (P : Entry -> Prop) (l : list Entry) :
  Forall P l -> Forall P (sort_entries l).
Proof.
  induction 1 as [|x l Hx Hl IH]; cbn; [constructor|].
  apply insert_entry_Forall; assumption.
Qed.

Lemma insert_entry_sorted (e : Entry) (l : list Entry) :
  StronglySorted by_timestamp l -> StronglySorted by_timestamp (insert_entry e l).
Proof.
  induction 1 as [|x l Hl IH Hx]; cbn.
  - constructor; constructor.
  - destruct (Z.leb_spec (timestamp e) (timestamp x)).
    + constructor; [constructor; assumption|].
      constructor; [exact H|].
      eapply Forall_impl; [|exact Hx]. unfold by_timestamp. intros a Ha. lia.
    + constructor; [exact IH|].
      apply insert_entry_Forall; [unfold by_timestamp; lia|exact Hx].
Qed.

Lemma sort_entries_sorted (l : list Entry) : StronglySorted by_timestamp (sort_entries l).
Proof.
  induction l as [|x l IH]; cbn; [constructor|].
  apply insert_entry_sorted, IH.
Qed.

Lemma insert_entry_perm (e : Entry) (l : list Entry) :
  Permutation (insert_entry e l) (e :: l).
Proof.
  induction l as [|x l IH]; cbn; [reflexivity|].
  destruct (timestamp e <=? timestamp x); [reflexivity|].
  rewrite IH. apply perm_swap.
Qed.

Lemma sort_entries_perm (l : list Entry) : Permutation (sort_entries l) l.
Proof.
  induction l as [|x l IH]; cbn; [reflexivity|].
  rewrite insert_entry_perm, IH. reflexivity.
Qed.

(** X11: the entries returned by [_load_usage_entries] are sorted by
    timestamp, whatever the order of the files and of their lines. *)
Theorem load_usage_entries_sorted (now : datetime) (files : list (list Line))
    (hours_back : option Z) :
  StronglySorted by_timestamp (_load_usage_entries now files hours_back).
Proof.
  unfold _load_usage_entries. apply sort_entries_sorted.
Qed.

(** Every stored entry comes from a record that passed the checks. *)
Lemma process_lines_Forall (cutoff : option datetime) (P : Entry -> Prop) :
  (forall r e, normalize cutoff r = Some e -> P e) ->
  forall lines st,
    Forall P (snd st) -> Forall P (snd (fold_left (process_line cutoff) lines st)).
Proof.
  intros HP. induction lines as [|l lines IH]; intros st Hst; cbn; [exact Hst|].
  apply IH. destruct st as [seen es]. unfold process_line.
  destruct l as [| |r]; try exact Hst.
  cbn [snd] in Hst.
  destruct (unique_hash r) as [h|].
  - destruct (mem_string h seen); [exact Hst|].
    destruct (normalize cutoff r) as [e|] eqn:En; cbn [snd]; [|exact Hst].
    apply Forall_app. split; [exact Hst|].
    constructor; [exact (HP r e En)|constructor].
  - destruct (normalize cutoff r) as [e|] eqn:En; cbn [snd]; [|exact Hst].
    apply Forall_app. split; [exact Hst|].
    constructor; [exact (HP r e En)|constructor].
Qed.

Lemma load_usage_entries_Forall (now : datetime) (files : list (list Line))
    (hours_back : option Z) (P : Entry -> Prop) :
  (forall cutoff r e,
      cutoff = match hours_back with
               | Some h => if h =? 0 then None else Some (now - timedelta_hours h)
               | None => None
               end ->
      normalize cutoff r = Some e -> P e) ->
  Forall P (_load_usage_entries now files hours_back).
Proof.
  intro HP. unfold _load_usage_entries. apply sort_entries_Forall.
  rewrite process_files_concat.
  apply process_lines_Forall; [|constructor].
  intros r e. apply HP. reflexivity.
Qed.

Lemma normalize_fields (cutoff : option datetime) (r : RawEntry) (e : Entry) :
  normalize cutoff r = Some e ->
  raw e = r
  /\ raw_timestamp r = Some (timestamp e)
  /\ (forall c, cutoff = Some c -> c <= timestamp e)
  /\ (is_assistant e = true -> has_positive_counter (usage e))
  /\ entry_hash e = unique_hash r.
Proof.
  unfold normalize. destruct (raw_timestamp r) as [ts|]; [|discriminate].
  destruct (match cutoff with Some c => ts <? c | None => false end) eqn:Ec;
    [discriminate|].
  set (ty := match raw_type r with Some t => t | None => "unknown"%string end).
  set (u := msg_usage (raw_message r)).
  destruct (String.eqb ty "assistant" && usage_empty u) eqn:E1; [discriminate|].
  destruct (String.eqb ty "assistant"
            && negb (positive_counter (u_input_tokens u)
                     || positive_counter (u_output_tokens u)
                     || positive_counter (u_cache_creation_input_tokens u)
                     || positive_counter (u_cache_read_input_tokens u))) eqn:E2;
    [discriminate|].
  intro H. inversion H; subst; clear H. cbn.
  repeat split.
  - intros c Hc. subst cutoff. apply Z.ltb_ge in Ec. exact Ec.
  - unfold is_assistant. cbn. fold ty. intro Ha. rewrite Ha in E2. cbn in E2.
    apply negb_false_iff in E2. unfold has_positive_counter.
    unfold positive_counter in E2. fold u.
    repeat (apply orb_true_iff in E2; destruct E2 as [E2|E2]);
      apply Z.ltb_lt in E2; tauto.
Qed.

(** X12: every entry returned by [_load_usage_entries] is within the
    lookback horizon, when one is given and is not 0, and every assistant
    entry carries a positive token counter. *)
Theorem load_usage_entries_filtered (now : datetime) (files : list (list Line))
    (hours_back : option Z) :
  Forall (fun e =>
            (forall h, hours_back = Some h -> h <> 0 ->
                       now - timedelta_hours h <= timestamp e)
            /\ (is_assistant e = true -> has_positive_counter (usage e))
            /\ raw_timestamp (raw e) = Some (timestamp e))
         (_load_usage_entries now files hours_back).
Proof.
  apply load_usage_entries_Forall. intros cutoff r e Hc Hn.
  destruct (normalize_fields cutoff r e Hn) as [Hr [Ht [Hcut [Ha _]]]].
  split; [|split; [exact Ha|rewrite Hr; exact Ht]].
  intros h Hh Hh0. subst hours_back. apply Hcut. rewrite Hc.
  apply Z.eqb_neq in Hh0. rewrite Hh0. reflexivity.
Qed.

Lemma entry_hashes_app (a b : list Entry) :
  entry_hashes (a ++ b) = entry_hashes a ++ entry_hashes b.
Proof. unfold entry_hashes. apply flat_map_app. Qed.

(** The hashes of the stored entries are distinct and have been seen. *)
Lemma process_lines_hashes (cutoff : option datetime) (lines : list Line) :
  forall st,
    NoDup (entry_hashes (snd st)) -> incl (entry_hashes (snd st)) (fst st) ->
    NoDup (entry_hashes (snd (fold_left (process_line cutoff) lines st)))
    /\ incl (entry_hashes (snd (fold_left (process_line cutoff) lines st)))
            (fst (fold_left (process_line cutoff) lines st)).
Proof.
  induction lines as [|l lines IH]; intros st Hnd Hincl; cbn; [split; assumption|].
  apply IH; destruct st as [seen es]; unfold process_line;
    destruct l as [| |r]; try assumption; cbn [fst snd] in *;
    destruct (unique_hash r) as [h|] eqn:Eh.
  - destruct (mem_string h seen) eqn:Em; [exact Hnd|].
    destruct (normalize cutoff r) as [e|] eqn:En; cbn [snd]; [|exact Hnd].
    destruct (normalize_fields cutoff r e En) as [_ [_ [_ [_ He]]]].
    rewrite entry_hashes_app. unfold entry_hashes at 2. cbn. rewrite He, Eh. cbn.
    apply NoDup_app; [exact Hnd|constructor; [intros []|constructor]|].
    intros a Ha [Hb|[]]. subst a.
    apply Hincl, mem_string_In in Ha. congruence.
  - destruct (normalize cutoff r) as [e|] eqn:En; cbn [snd]; [|exact Hnd].
    destruct (normalize_fields cutoff r e En) as [_ [_ [_ [_ He]]]].
    rewrite entry_hashes_app. unfold entry_hashes at 2. cbn. rewrite He, Eh. cbn.
    rewrite app_nil_r. exact Hnd.
  - destruct (mem_string h seen) eqn:Em; [exact Hincl|].
    destruct (normalize cutoff r) as [e|] eqn:En; cbn [fst snd].
    + destruct (normalize_fields cutoff r e En) as [_ [_ [_ [_ He]]]].
      rewrite entry_hashes_app. unfold entry_hashes at 2. cbn. rewrite He, Eh. cbn.
      intros a Ha. apply in_app_or in Ha. destruct Ha as [Ha|[Ha|[]]].
      * right. apply Hincl, Ha.
      * left. exact Ha.
    + intros a Ha. right. apply Hincl, Ha.
  - destruct (normalize cutoff r) as [e|] eqn:En; cbn [fst snd]; [|exact Hincl].
    destruct (normalize_fields cutoff r e En) as [_ [_ [_ [_ He]]]].
    rewrite entry_hashes_app. unfold entry_hashes at 2. cbn. rewrite He, Eh. cbn.
    rewrite app_nil_r. exact Hincl.
Qed.

(** X13: no two entries returned by [_load_usage_entries] have the same
    deduplication hash. *)
Theorem load_usage_entries_distinct (now : datetime) (files : list (list Line))
    (hours_back : option Z) :
  NoDup (entry_hashes (_load_usage_entries now files hours_back)).
Proof.
  unfold _load_usage_entries.
  eapply Permutation_NoDup.
  - unfold entry_hashes. apply Permutation_flat_map. symmetry. apply sort_entries_perm.
  - rewrite process_files_concat.
    apply (process_lines_hashes _ _ ([], [])); [constructor|intros a []].
Qed.

End LoadedEntries.

(** ** claude_code_reader.py: records read more than once *)

Section RepeatedRecords.

Import Reader.

Variable cutoff_time : option datetime.

Local Abbreviation read := (fold_left (process_line cutoff_time)).
Local Abbreviation read_files := (fold_left (process_file cutoff_time)).
Local Abbreviation doubled := (map (fun f : list Line => f ++ f)).

Lemma filter_Permutation {A : Type} (p : A -> bool) (l l' : list A) :
  Permutation l l' -> Permutation (filter p l) (filter p l').
Proof.
  induction 1 as [|x l l' H IH|x y l|l l' l'' H1 IH1 H2 IH2]; cbn.
  - constructor.
  - destruct (p x); [constructor|]; exact IH.
  - destruct (p x), (p y); try reflexivity. apply perm_swap.
  - etransitivity; eassumption.
Qed.

Lemma unkeyed_stored_app (a b : list Line) :
  unkeyed_stored cutoff_time (a ++ b)
  = unkeyed_stored cutoff_time a ++ unkeyed_stored cutoff_time b.
Proof. unfold unkeyed_stored. apply flat_map_app. Qed.

Lemma unkeyed_stored_has_ids (lines : list Line) :
  Forall has_ids lines -> unkeyed_stored cutoff_time lines = [].
Proof.
  induction 1 as [|l lines Hl Hrest IH]; cbn; [reflexivity|].
  fold (unkeyed_stored cutoff_time lines). rewrite IH, app_nil_r.
  destruct l as [| |r]; try reflexivity. cbn in *.
  destruct (unique_hash r); [reflexivity|contradiction].
Qed.

(** A stored entry is keyed exactly when its record is. *)
Lemma normalize_unkeyed (r : RawEntry) (e : Entry) :
  normalize cutoff_time r = Some e ->
  unkeyed e = match unique_hash r with Some _ => false | None => true end.
Proof.
  intro Hn. destruct (normalize_fields cutoff_time r e Hn) as [_ [_ [_ [_ He]]]].
  unfold unkeyed. rewrite He. reflexivity.
Qed.

(** One line: the hashes seen grow by at most the hash of the line, and
    the entries grow at their end. *)
Lemma process_line_from (l : Line) (seen : list string) (es : list Entry) :
  process_line cutoff_time (seen, es) l
  = (fst (process_line cutoff_time (seen, []) l),
     es ++ snd (process_line cutoff_time (seen, []) l)).
Proof.
  unfold process_line. destruct l as [| |r]; cbn [fst snd]; rewrite ?app_nil_r;
    try reflexivity.
  destruct (unique_hash r) as [h|].
  - destruct (mem_string h seen); cbn [fst snd]; rewrite ?app_nil_r; [reflexivity|].
    destruct (normalize cutoff_time r); cbn [fst snd app]; rewrite ?app_nil_r; reflexivity.
  - destruct (normalize cutoff_time r); cbn [fst snd app]; rewrite ?app_nil_r; reflexivity.
Qed.

Lemma process_lines_from (lines : list Line) :
  forall (seen : list string) (es : list Entry),
    read lines (seen, es)
    = (fst (read lines (seen, [])), es ++ snd (read lines (seen, []))).
Proof.
  induction lines as [|l lines IH]; intros seen es; cbn [fold_left fst snd].
  - rewrite app_nil_r. reflexivity.
  - rewrite (process_line_from l seen es).
    destruct (process_line cutoff_time (seen, []) l) as [seen' new] eqn:E.
    cbn [fst snd]. rewrite (IH seen' (es ++ new)), (IH seen' new).
    cbn [fst snd]. rewrite app_assoc. reflexivity.
Qed.

(** Lines whose hashes have all been seen add the entries of their unkeyed
    records and nothing else. *)
Lemma process_lines_seen_again (lines : list Line) :
  forall st : list string * list Entry,
    (forall r h, In (Parsed r) lines -> unique_hash r = Some h -> In h (fst st)) ->
    read lines st = (fst st, snd st ++ unkeyed_stored cutoff_time lines).
Proof.
  induction lines as [|l lines IH]; intros [seen es] Hseen; cbn [fold_left fst snd] in *.
  - cbn. rewrite app_nil_r. reflexivity.
  - assert (Hstep : process_line cutoff_time (seen, es) l
                    = (seen, es ++ unkeyed_entry cutoff_time l)).
    { unfold process_line, unkeyed_entry.
      destruct l as [| |r]; rewrite ?app_nil_r; try reflexivity.
      destruct (unique_hash r) as [h|] eqn:Eh.
      - assert (Hin : In h seen) by (apply (Hseen r h); [left; reflexivity|exact Eh]).
        apply mem_string_In in Hin. rewrite Hin, app_nil_r. reflexivity.
      - destruct (normalize cutoff_time r); rewrite ?app_nil_r; reflexivity. }
    rewrite Hstep, IH.
    + cbn [fst snd unkeyed_stored flat_map]. rewrite <- app_assoc. reflexivity.
    + intros r h Hin Hh. apply (Hseen r h); [right; exact Hin|exact Hh].
Qed.

(** The unkeyed entries stored by a pass do not depend on what was seen. *)
Lemma process_lines_unkeyed (lines : list Line) :
  forall st : list string * list Entry,
    filter unkeyed (snd (read lines st))
    = filter unkeyed (snd st) ++ unkeyed_stored cutoff_time lines.
Proof.
  induction lines as [|l lines IH]; intros [seen es]; cbn [fold_left fst snd].
  - cbn. rewrite app_nil_r. reflexivity.
  - rewrite IH. cbn [unkeyed_stored flat_map]. rewrite app_assoc. f_equal.
    unfold process_line, unkeyed_entry.
    destruct l as [| |r]; cbn [snd]; rewrite ?app_nil_r; try reflexivity.
    destruct (unique_hash r) as [h|] eqn:Eh.
    + destruct (mem_string h seen); cbn [snd]; rewrite ?app_nil_r; [reflexivity|].
      destruct (normalize cutoff_time r) as [e|] eqn:En; cbn [snd];
        rewrite ?app_nil_r; [|reflexivity].
      rewrite filter_app. cbn [filter]. rewrite (normalize_unkeyed r e En), Eh.
      apply app_nil_r.
    + destruct (normalize cutoff_time r) as [e|] eqn:En; cbn [snd];
        rewrite ?app_nil_r; [|reflexivity].
      rewrite filter_app. cbn [filter]. rewrite (normalize_unkeyed r e En), Eh.
      reflexivity.
Qed.

(** The same files read twice: the second pass adds the unkeyed entries
    of the first, in their order. *)
Lemma process_files_twice (files : list (list Line)) :
  snd (read_files (files ++ files) ([], []))
  = snd (read_files files ([], [])) ++ filter unkeyed (snd (read_files files ([], []))).
Proof.
  rewrite !process_files_concat, concat_app, fold_left_app.
  rewrite process_lines_seen_again.
  - cbn [snd]. rewrite process_lines_unkeyed. reflexivity.
  - intros r h Hin Hh. exact (process_lines_records cutoff_time _ _ r h Hin Hh).
Qed.

(** Every file repeated: the hashes seen are those of one pass, and the
    entries those of one pass and the unkeyed entries once more. *)
Lemma process_files_doubled (files : list (list Line)) :
  forall (seen : list string) (es es' extra : list Entry),
    Permutation es' (es ++ extra) ->
    fst (read_files (doubled files) (seen, es')) = fst (read_files files (seen, es))
    /\ Permutation (snd (read_files (doubled files) (seen, es')))
                   (snd (read_files files (seen, es))
                    ++ extra ++ unkeyed_stored cutoff_time (concat files)).
Proof.
  induction files as [|f files IH]; intros seen es es' extra Hp;
    cbn [map fold_left concat fst snd].
  - split; [reflexivity|]. cbn. rewrite app_nil_r. exact Hp.
  - destruct (read f (seen, [])) as [seen' new] eqn:E.
    assert (H1 : process_file cutoff_time (seen, es) f = (seen', es ++ new)).
    { unfold process_file. rewrite (process_lines_from f seen es), E. reflexivity. }
    assert (H2 : process_file cutoff_time (seen, es') (f ++ f)
                 = (seen', (es' ++ new) ++ unkeyed_stored cutoff_time f)).
    { unfold process_file. rewrite fold_left_app, (process_lines_from f seen es'), E.
      cbn [fst snd]. rewrite process_lines_seen_again; [reflexivity|].
      cbn [fst]. intros r h Hin Hh.
      pose proof (process_lines_records cutoff_time f (seen, []) r h Hin Hh) as Hs.
      rewrite E in Hs. exact Hs. }
    rewrite H1, H2, unkeyed_stored_app.
    destruct (IH seen' (es ++ new) ((es' ++ new) ++ unkeyed_stored cutoff_time f)
                 (extra ++ unkeyed_stored cutoff_time f)) as [H3 H4].
    { rewrite Hp, <- !app_assoc. apply Permutation_app_head.
      rewrite !app_assoc. apply Permutation_app_tail. apply Permutation_app_comm. }
    split; [exact H3|]. rewrite H4, <- !app_assoc. reflexivity.
Qed.

(** Every file repeated, when no record without identifiers is stored:
    the state is that of one pass. *)
Lemma process_files_doubled_keyed (files : list (list Line)) :
  unkeyed_stored cutoff_time (concat files) = [] ->
  forall st, read_files (doubled files) st = read_files files st.
Proof.
  induction files as [|f files IH]; intros Hu st; cbn [map fold_left concat] in *;
    [reflexivity|].
  rewrite unkeyed_stored_app in Hu. apply app_eq_nil in Hu. destruct Hu as [Hf Hrest].
  rewrite (IH Hrest). f_equal. unfold process_file. rewrite fold_left_app.
  rewrite process_lines_seen_again.
  - rewrite Hf, app_nil_r. destruct (read f st); reflexivity.
  - intros r h Hin Hh. exact (process_lines_records cutoff_time f st r h Hin Hh).
Qed.

(** A hash that has been seen was seen before or belongs to a record of
    the lines. *)
Lemma process_lines_seen_from (lines : list Line) :
  forall (st : list string * list Entry) (k : string),
    In k (fst (read lines st)) ->
    In k (fst st) \/ exists r, In (Parsed r) lines /\ unique_hash r = Some k.
Proof.
  induction lines as [|l lines IH]; intros [seen es] k Hin; cbn [fold_left] in Hin;
    [left; exact Hin|].
  destruct (IH _ k Hin) as [H|[r [Hr Hk]]].
  - unfold process_line in H. destruct l as [| |r]; try (left; exact H).
    destruct (unique_hash r) as [h|] eqn:Eh.
    + destruct (mem_string h seen); [left; exact H|].
      assert (Hk : In k (h :: seen)) by (destruct (normalize cutoff_time r); exact H).
      destruct Hk as [Hk|Hk]; [|left; exact Hk].
      subst k. right. exists r. split; [left; reflexivity|exact Eh].
    + left. destruct (normalize cutoff_time r); exact H.
  - right. exists r. split; [right; exact Hr|exact Hk].
Qed.

Lemma with_hash_app (h : string) (a b : list Entry) :
  with_hash h (a ++ b) = with_hash h a ++ with_hash h b.
Proof. unfold with_hash. apply filter_app. Qed.

Lemma with_hash_unseen (h : string) (es : list Entry) :
  ~ In h (entry_hashes es) -> with_hash h es = [].
Proof.
  induction es as [|e es IH]; intro Hn; cbn; [reflexivity|].
  unfold entry_hashes in Hn. cbn in Hn. fold (entry_hashes es) in Hn.
  destruct (entry_hash e) as [k|].
  - destruct (String.eqb_spec k h) as [Hk|Hk].
    + exfalso. apply Hn. left. exact Hk.
    + apply IH. intro H. apply Hn. right. exact H.
  - apply IH. exact Hn.
Qed.

(** Once a hash has been seen, no entry is stored under it. *)
Lemma process_lines_with_hash (h : string) (lines : list Line) :
  forall st : list string * list Entry,
    In h (fst st) ->
    with_hash h (snd (read lines st)) = with_hash h (snd st).
Proof.
  induction lines as [|l lines IH]; intros [seen es] Hin; cbn [fold_left fst snd] in *;
    [reflexivity|].
  rewrite IH by (apply process_line_seen_mono; exact Hin).
  unfold process_line. destruct l as [| |r]; try reflexivity.
  destruct (unique_hash r) as [k|] eqn:Ek.
  - destruct (mem_string k seen) eqn:Em; [reflexivity|].
    destruct (normalize cutoff_time r) as [e|] eqn:En; cbn [snd]; [|reflexivity].
    destruct (normalize_fields cutoff_time r e En) as [_ [_ [_ [_ He]]]].
    rewrite with_hash_app. unfold with_hash at 2. cbn [filter]. rewrite He, Ek.
    destruct (String.eqb_spec k h) as [Hk|Hk]; [|apply app_nil_r].
    subst k. apply mem_string_In in Hin. congruence.
  - destruct (normalize cutoff_time r) as [e|] eqn:En; cbn [snd]; [|reflexivity].
    destruct (normalize_fields cutoff_time r e En) as [_ [_ [_ [_ He]]]].
    rewrite with_hash_app. unfold with_hash at 2. cbn [filter]. rewrite He, Ek.
    apply app_nil_r.
Qed.

(** The first record that carries a hash decides what is stored under
    it. *)
Lemma process_lines_first_record (pre post : list Line) (r : RawEntry) (h : string) :
  unique_hash r = Some h ->
  (forall r', In (Parsed r') pre -> unique_hash r' <> Some h) ->
  with_hash h (snd (read (pre ++ Parsed r :: post) ([], [])))
  = match normalize cutoff_time r with
    | Some e => [e]
    | None => []
    end.
Proof.
  intros Hh Hpre. rewrite fold_left_app. cbn [fold_left].
  destruct (read pre ([], [])) as [seen es] eqn:E.
  assert (Hseen : ~ In h seen).
  { intro Hin.
    destruct (process_lines_seen_from pre ([], []) h) as [[]|[r' [Hr' Hk]]].
    - rewrite E. exact Hin.
    - exact (Hpre r' Hr' Hk). }
  assert (Hes : with_hash h es = []).
  { apply with_hash_unseen. intro Hin. apply Hseen.
    destruct (process_lines_hashes cutoff_time pre ([], [])) as [_ Hincl];
      [constructor|intros a []|].
    rewrite E in Hincl. apply Hincl, Hin. }
  rewrite process_lines_with_hash.
  - unfold process_line. rewrite Hh.
    destruct (mem_string h seen) eqn:Em; [apply mem_string_In in Em; contradiction|].
    destruct (normalize cutoff_time r) as [e|] eqn:En; cbn [snd]; [|exact Hes].
    destruct (normalize_fields cutoff_time r e En) as [_ [_ [_ [_ He]]]].
    rewrite with_hash_app, Hes. unfold with_hash. cbn [filter app].
    rewrite He, Hh, String.eqb_refl. reflexivity.
  - apply process_line_records, Hh.
Qed.

End RepeatedRecords.

(** C6 (as amended): reading the same files twice, or every file with its
    content repeated, returns the entries of one pass and, once more, those
    of them that lack an identifier; so the sequence is that of one pass
    exactly when no stored entry lacks an identifier, in particular when
    every record carries both.  Under a hash at most one entry is stored:
    the entry of the first record that carries the hash when this record
    passes the checks, and none when it fails them, whatever follows.  A
    record that lacks an identifier and passes the checks is appended
    whatever has been seen, so it is never deduplicated. *)
Theorem load_usage_entries_idempotent
    (now : Reader.datetime) (hours_back : option Z) (files : list (list Reader.Line)) :
  let cutoff :=
    match hours_back with
    | Some h => if h =? 0 then None else Some (now - Reader.timedelta_hours h)
    | None => None
    end in
  let once := Reader._load_usage_entries now files hours_back in
  (forall again,
      again = files ++ files \/ again = map (fun f => f ++ f) files ->
      let twice := Reader._load_usage_entries now again hours_back in
      Permutation twice (once ++ filter Reader.unkeyed once)
      /\ (twice = once <-> filter Reader.unkeyed once = [])
      /\ (Forall (Forall Reader.has_ids) files -> twice = once))
  /\ (forall pre r post h,
         concat files = pre ++ Reader.Parsed r :: post ->
         Reader.unique_hash r = Some h ->
         (forall r', In (Reader.Parsed r') pre -> Reader.unique_hash r' <> Some h) ->
         Reader.with_hash h once
         = match Reader.normalize cutoff r with
           | Some e => [e]
           | None => []
           end)
  /\ (forall cutoff seen entries r e,
         Reader.unique_hash r = None ->
         Reader.normalize cutoff r = Some e ->
         Reader.process_line cutoff (seen, entries) (Reader.Parsed r)
         = (seen, entries ++ [e])).
Proof.
  cbv zeta. unfold Reader._load_usage_entries.
  set (cutoff := match hours_back with
                 | Some h => if h =? 0 then None
                             else Some (now - Reader.timedelta_hours h)
                 | None => None
                 end).
  set (stored := snd (fold_left (Reader.process_file cutoff) files ([], []))).
  assert (Hstored : forall l : list Reader.Entry,
             Permutation l stored -> filter Reader.unkeyed l = [] ->
             filter Reader.unkeyed stored = []).
  { intros l Hp Hl. apply Permutation_nil. rewrite <- Hl.
    apply filter_Permutation. exact Hp. }
  split; [|split].
  - intros again Hagain.
    assert (Hperm : Permutation
                      (snd (fold_left (Reader.process_file cutoff) again ([], [])))
                      (stored ++ filter Reader.unkeyed stored)).
    { destruct Hagain as [Ha|Ha]; subst again.
      - rewrite process_files_twice. reflexivity.
      - destruct (process_files_doubled cutoff files [] [] [] []) as [_ H];
          [reflexivity|].
        rewrite H. apply Permutation_app_head. cbn [app].
        fold stored. unfold stored. rewrite process_files_concat.
        rewrite process_lines_unkeyed. reflexivity. }
    assert (Hkeyed : filter Reader.unkeyed stored = [] ->
                     snd (fold_left (Reader.process_file cutoff) again ([], []))
                     = stored).
    { intro Hu. destruct Hagain as [Ha|Ha]; subst again.
      - rewrite process_files_twice. fold stored. rewrite Hu. apply app_nil_r.
      - rewrite process_files_doubled_keyed; [reflexivity|].
        unfold stored in Hu. rewrite process_files_concat, process_lines_unkeyed in Hu.
        exact Hu. }
    assert (Hsorted : Permutation
                        (Reader.sort_entries
                           (snd (fold_left (Reader.process_file cutoff) again ([], []))))
                        (Reader.sort_entries stored
                         ++ filter Reader.unkeyed (Reader.sort_entries stored))).
    { rewrite sort_entries_perm, Hperm. apply Permutation_app.
      - symmetry. apply sort_entries_perm.
      - apply filter_Permutation. symmetry. apply sort_entries_perm. }
    split; [exact Hsorted|]. split; [split|].
    + intro Heq. rewrite Heq in Hsorted. apply Permutation_length in Hsorted.
      rewrite length_app in Hsorted. apply length_zero_iff_nil. lia.
    + intro Hu. rewrite Hkeyed; [reflexivity|].
      apply (Hstored (Reader.sort_entries stored)); [apply sort_entries_perm|exact Hu].
    + intro Hids. rewrite Hkeyed; [reflexivity|].
      unfold stored. rewrite process_files_concat, process_lines_unkeyed.
      apply unkeyed_stored_has_ids, Forall_concat, Hids.
  - intros pre r post h Hfiles Hh Hpre.
    pose proof (process_lines_first_record cutoff pre post r h Hh Hpre) as Hfirst.
    rewrite <- Hfiles, <- process_files_concat in Hfirst. fold stored in Hfirst.
    assert (Hp : Permutation (Reader.with_hash h (Reader.sort_entries stored))
                             (Reader.with_hash h stored)).
    { unfold Reader.with_hash. apply filter_Permutation, sort_entries_perm. }
    rewrite Hfirst in Hp. symmetry in Hp.
    destruct (Reader.normalize cutoff r) as [e|].
    + apply Permutation_length_1_inv, Hp.
    + apply Permutation_nil, Hp.
  - intros c seen entries r e Hh Hn. unfold Reader.process_line.
    rewrite Hh, Hn. reflexivity.
Qed.


(** C6: the witness.  A log with a prompt that has no identifiers and a
    response logged twice under the same identifiers: one pass stores the
    prompt and the first of the two responses, a second pass stores the
    prompt again.  A log of two responses with identifiers of their own
    reads the same however often it is repeated. *)
Lemma load_usage_entries_idempotent_witness :
  let f := [Reader.user_line (Reader.noon - Reader.MINUTE) "hello";
            Reader.keyed_line "msg_1" "req_1" Reader.noon;
            Reader.keyed_line "msg_1" "req_1" (Reader.noon + Reader.MINUTE)] in
  let g := [Reader.keyed_line "msg_1" "req_1" Reader.noon;
            Reader.keyed_line "msg_2" "req_2" (Reader.noon + Reader.MINUTE)] in
  let once := Reader._load_usage_entries Reader.noon [f] (Some 24) in
  let twice := Reader._load_usage_entries Reader.noon ([f] ++ [f]) (Some 24) in
  (Permutation twice (once ++ filter Reader.unkeyed once)
   /\ length once = 2%nat /\ length twice = 3%nat)
  /\ map Reader.timestamp (Reader.with_hash "msg_1:req_1" once) = [Reader.noon]
  /\ Reader._load_usage_entries Reader.noon ([g] ++ [g]) (Some 24)
     = Reader._load_usage_entries Reader.noon [g] (Some 24)
  /\ Reader._load_usage_entries Reader.noon (map (fun x => x ++ x) [g]) (Some 24)
     = Reader._load_usage_entries Reader.noon [g] (Some 24).
Proof.
  cbv zeta.
  destruct (load_usage_entries_idempotent Reader.noon (Some 24)
              [[Reader.user_line (Reader.noon - Reader.MINUTE) "hello";
                Reader.keyed_line "msg_1" "req_1" Reader.noon;
                Reader.keyed_line "msg_1" "req_1" (Reader.noon + Reader.MINUTE)]])
    as [Hagain [Hfirst _]].
  destruct (load_usage_entries_idempotent Reader.noon (Some 24)
              [[Reader.keyed_line "msg_1" "req_1" Reader.noon;
                Reader.keyed_line "msg_2" "req_2" (Reader.noon + Reader.MINUTE)]])
    as [Hkeyed _].
  split; [|split; [|split]].
  - split; [|split; vm_compute; reflexivity].
    exact (proj1 (Hagain _ (or_introl eq_refl))).
  - rewrite (Hfirst [Reader.user_line (Reader.noon - Reader.MINUTE) "hello"]
               (Reader.sample_record (Some ("msg_1"%string, "req_1"%string)) Reader.noon
                  "assistant" (Reader.sample_usage 600 400) Reader.ContentAbsent)
               [Reader.keyed_line "msg_1" "req_1" (Reader.noon + Reader.MINUTE)]
               "msg_1:req_1"%string).
    + vm_compute. reflexivity.
    + reflexivity.
    + reflexivity.
    + intros r' [Hr|[]]. inversion Hr; subst. vm_compute. discriminate.
  - apply (proj2 (proj2 (Hkeyed _ (or_introl eq_refl)))).
    repeat constructor; cbn; discriminate.
  - apply (proj2 (proj2 (Hkeyed _ (or_intror eq_refl)))).
    repeat constructor; cbn; discriminate.
Defined.

(** C6 (as stated) fails on a log with a prompt that has no identifiers:
    read twice, the prompt is stored twice. *)
Lemma load_usage_entries_counterexample :
  let f := [Reader.user_line Reader.noon "hello"] in
  Reader.unique_hash
    (Reader.sample_record None Reader.noon "user" Reader.no_usage
       (Reader.ContentStr "hello")) = None
  /\ length (Reader._load_usage_entries Reader.noon [f] None) = 1%nat
  /\ length (Reader._load_usage_entries Reader.noon ([f] ++ [f]) None) = 2%nat
  /\ Reader._load_usage_entries Reader.noon ([f] ++ [f]) None
     <> Reader._load_usage_entries Reader.noon [f] None.
Proof.
  cbv zeta. repeat split; try (vm_compute; reflexivity).
  intro H. apply (f_equal (@length Reader.Entry)) in H.
  vm_compute in H. discriminate H.
Qed.

(** A repeated pair can also collapse to no occurrence: the hash is
    recorded before the record is checked, so a first record older than the
    horizon hides a later one that would have been stored. *)
Lemma load_usage_entries_stale_first_record :
  let stale := Reader.keyed_line "msg_1" "req_1" (Reader.noon - 2 * Reader.HOUR) in
  let fresh := Reader.keyed_line "msg_1" "req_1" (Reader.noon - Reader.MINUTE) in
  Reader._load_usage_entries Reader.noon [[stale; fresh]] (Some 1) = []
  /\ length (Reader._load_usage_entries Reader.noon [[fresh]] (Some 1)) = 1%nat
  /\ length (Reader._load_usage_entries Reader.noon [[fresh; stale]] (Some 1)) = 1%nat.
Proof.
  cbv zeta. repeat split; vm_compute; reflexivity.
Qed.

(** ** claude_code_reader.py: what a rebuild computes *)

Section RebuildFacts.

Import Reader.

Variable get_model_pricing : string -> Pricing.
Variable session_duration_hours : Q.
Variable _blocks_cache_duration : Z.

Local Abbreviation add_entry := (_add_entry_to_block get_model_pricing).
Local Abbreviation in_own_window :=
  (fun b => Forall (fun e => in_window b (timestamp e)) (entries b)).

Lemma add_entry_in_window (now : datetime) (b : SessionBlock) (e : Entry) :
  in_own_window b -> in_window b (timestamp e) -> in_own_window (add_entry now b e).
Proof.
  intros Hb He.
  destruct (add_entry_window get_model_pricing now b e) as [Hs [Hend _]].
  rewrite add_entry_entries. apply Forall_app. split.
  - eapply Forall_impl; [|exact Hb]. unfold in_window. intros a Ha.
    rewrite Hs, Hend. exact Ha.
  - constructor; [|constructor]. unfold in_window. rewrite Hs, Hend. exact He.
Qed.

Lemma create_loop_in_window (now : datetime) (es : list Entry) :
  (1 <= session_duration_hours)%Q ->
  StronglySorted by_timestamp es ->
  forall (blocks : list SessionBlock) (cur : option SessionBlock),
    Forall in_own_window blocks ->
    (forall b, cur = Some b ->
               in_own_window b /\ Forall (fun e => start_time b <= timestamp e) es) ->
    Forall in_own_window
      (create_loop get_model_pricing session_duration_hours now es blocks cur).
Proof.
  intros Hh. induction 1 as [|e es Hes IH He]; intros blocks cur Hb Hc; cbn.
  - destruct cur as [b|]; [|exact Hb].
    apply Forall_app. split; [exact Hb|].
    constructor; [apply (Hc b eq_refl)|constructor].
  - assert (Hfresh :
      let start := _round_to_hour (timestamp e) in
      let fresh := add_entry now
        (new_block start (start + timedelta_of_hours session_duration_hours) start) e in
      in_own_window fresh /\ Forall (fun e' => start_time fresh <= timestamp e') es).
    { cbv zeta.
      destruct (add_entry_window get_model_pricing now
        (new_block (_round_to_hour (timestamp e))
           (_round_to_hour (timestamp e) + timedelta_of_hours session_duration_hours)
           (_round_to_hour (timestamp e))) e) as [Hs _].
      pose proof (round_to_hour_le (timestamp e)) as Hle.
      split.
      - apply add_entry_in_window; [constructor|].
        unfold in_window. cbn. unfold _round_to_hour in *.
        pose proof (timedelta_of_hours_ge_hour _ Hh).
        pose proof (Z.mod_pos_bound (timestamp e) HOUR HOUR_pos). lia.
      - rewrite Hs. cbn. eapply Forall_impl; [|exact He].
        unfold by_timestamp. intros a Ha. lia. }
    destruct cur as [b|].
    + destruct (Hc b eq_refl) as [Hwin Hstart].
      inversion Hstart as [|e' es' Hse Hsrest]; subst.
      destruct (timestamp e >=? end_time b) eqn:E.
      * apply IH.
        -- apply Forall_app. split; [exact Hb|]. constructor; [exact Hwin|constructor].
        -- intros b' Hb'. inversion Hb'; subst. exact Hfresh.
      * rewrite Z.geb_leb in E. apply Z.leb_gt in E.
        apply IH; [exact Hb|].
        intros b' Hb'. inversion Hb'; subst. split.
        -- apply add_entry_in_window; [exact Hwin|]. unfold in_window. lia.
        -- destruct (add_entry_window get_model_pricing now b e) as [Hs _].
           rewrite Hs. exact Hsrest.
    + apply IH; [exact Hb|].
      intros b' Hb'. inversion Hb'; subst. exact Hfresh.
Qed.

(** X14: rebuilt from entries sorted by timestamp, with sessions of at
    least an hour, every block holds only entries of its own window
    [[start, end)]. *)
Theorem create_session_blocks_in_window (now : datetime) (es : list Entry) :
  (1 <= session_duration_hours)%Q ->
  StronglySorted by_timestamp es ->
  Forall in_own_window (_create_session_blocks get_model_pricing session_duration_hours now es).
Proof.
  intros Hh Hes. unfold _create_session_blocks. apply Forall_map.
  eapply Forall_impl; [|apply create_loop_in_window; try assumption].
  - intros b Hb. destruct (finalize_block_window now b) as [Hs [He Hn]].
    rewrite Hn. eapply Forall_impl; [|exact Hb]. unfold in_window.
    intros a Ha. rewrite Hs, He. exact Ha.
  - constructor.
  - intros b Hb. discriminate Hb.
Qed.

Lemma sum_tokens_snoc (l : list Entry) (e : Entry) :
  sum_tokens (l ++ [e]) = sum_tokens l + entry_tokens e.
Proof.
  unfold sum_tokens. induction l as [|x l IH]; cbn; [lia|]. rewrite IH. lia.
Qed.

Lemma usage_empty_tokens (e : Entry) : usage_empty (usage e) = true -> entry_tokens e = 0.
Proof.
  unfold usage_empty, entry_tokens. intro H. apply negb_true_iff in H.
  destruct (u_input_tokens (usage e)), (u_output_tokens (usage e)); cbn in H;
    try discriminate H; reflexivity.
Qed.

Lemma filter_snoc_length {A : Type} (p : A -> bool) (l : list A) (x : A) :
  Z.of_nat (length (filter p (l ++ [x])))
  = Z.of_nat (length (filter p l)) + (if p x then 1 else 0).
Proof.
  rewrite filter_app, length_app. cbn. destruct (p x); cbn; lia.
Qed.

Lemma add_entry_follows (now : datetime) (b : SessionBlock) (e : Entry) :
  follows_entries b -> input_tokens b + output_tokens b = total_tokens b ->
  follows_entries (add_entry now b e)
  /\ input_tokens (add_entry now b e) + output_tokens (add_entry now b e)
     = total_tokens (add_entry now b e).
Proof.
  intros [Ha [Ht [Hc Hu]]] Hio.
  pose proof (usage_empty_tokens e) as Hempty.
  pose proof (sum_tokens_snoc (entries b) e) as Hsum.
  pose proof (filter_snoc_length is_assistant (entries b) e) as Fa.
  pose proof (filter_snoc_length is_user (entries b) e) as Fu.
  unfold follows_entries, is_assistant, is_user in *. unfold entry_tokens in *.
  cbv beta zeta delta [_add_entry_to_block aggregate_usage].
  change (is_active (append_entry b e)) with (is_active b). rewrite Ha.
  cbn [andb].
  destruct (String.eqb (entry_type e) "user") eqn:Eu;
    [|destruct (String.eqb (entry_type e) "assistant") eqn:Eas];
    try (apply String.eqb_eq in Eu; rewrite Eu in *; cbn in Fa);
    repeat match goal with
           | |- context [if ?c then _ else _] => destruct c eqn:?
           end;
    cbn -[sum_tokens filter Z.of_nat]; rewrite ?Hsum, ?Fa, ?Fu;
    try (specialize (Hempty eq_refl)); repeat split; try assumption; try lia.
Qed.

Lemma last_nonempty {A : Type} (l : list A) (d d' : A) :
  l <> [] -> last l d = last l d'.
Proof.
  induction l as [|x l IH]; [contradiction|]. intros _.
  destruct l as [|y l]; [reflexivity|]. cbn in *. apply IH. discriminate.
Qed.

(** The summary before the blocks are finalised. *)
Lemma create_loop_follows (now : datetime) (es : list Entry) :
  Forall (fun b => entries b <> [] /\ follows_entries b
                   /\ input_tokens b + output_tokens b = total_tokens b)
    (create_loop get_model_pricing session_duration_hours now es [] None).
Proof.
  apply create_loop_Forall.
  - intro e. cbv zeta.
    split; [rewrite add_entry_entries; cbn; discriminate|].
    apply add_entry_follows; [|reflexivity].
    unfold follows_entries. cbn. repeat split; lia.
  - intros b e [Hne [Hf Hio]] _.
    split; [rewrite add_entry_entries; intro H; apply app_eq_nil in H;
            destruct H as [_ H]; discriminate H|].
    apply add_entry_follows; assumption.
  - constructor.
  - intros b Hb. discriminate Hb.
Qed.

(** X15: after a rebuild every block is non-empty and summarises its
    entries: [total_tokens] is the sum of their input and output tokens,
    [assistant_message_count] the number of assistant entries,
    [user_prompt_count] at most the number of user entries,
    [sent_messages_count] the number of entries and [actual_end_time] the
    timestamp of the last one. *)
Theorem create_session_blocks_summarise (now : datetime) (es : list Entry) :
  Forall block_summarises
    (_create_session_blocks get_model_pricing session_duration_hours now es).
Proof.
  unfold _create_session_blocks. apply Forall_map.
  eapply Forall_impl; [|apply create_loop_follows].
  intros b [Hne [[_ [Ht [Hc Hu]]] _]].
  unfold block_summarises, finalize_block.
  destruct (entries b) as [|e0 l] eqn:E; [contradiction|].
  cbn -[last filter sum_tokens Z.of_nat].
  split; [exact Hne|]. split; [exact Ht|]. split; [exact Hc|].
  split; [exact Hu|]. split; [reflexivity|].
  intro d. f_equal. f_equal. apply last_nonempty. discriminate.
Qed.

End RebuildFacts.

Section RebuildWitnesses.

Import Reader.

(** X14: the witness, sessions of five hours on two responses two minutes
    apart. *)
Lemma create_session_blocks_in_window_witness :
  Forall (fun b => Forall (fun e => in_window b (timestamp e)) (entries b))
    (_create_session_blocks sample_pricing 5 noon
       (_load_usage_entries noon [two_minute_log] None)).
Proof.
  apply (create_session_blocks_in_window sample_pricing 5 noon
           (_load_usage_entries noon [two_minute_log] None)).
  - discriminate.
  - repeat constructor; vm_compute; discriminate.
Defined.

End RebuildWitnesses.

(** ** claude_code_reader.py: merging new entries *)

Section MergeFacts.

Import Reader.

Variable get_model_pricing : string -> Pricing.
Variable session_duration_hours : Q.

Local Abbreviation add_entry := (_add_entry_to_block get_model_pricing).
Local Abbreviation all_entries := (fun blocks => concat (map entries blocks)).

Lemma update_first_entries (p : SessionBlock -> bool) (f : SessionBlock -> SessionBlock)
    (e : Entry) :
  (forall x, entries (f x) = entries x ++ [e]) ->
  forall l l',
    update_first p f l = Some l' ->
    Permutation (all_entries l') (all_entries l ++ [e]) /\ length l' = length l.
Proof.
  intros Hf. induction l as [|x l IH]; intros l' H; cbn in H; [discriminate H|].
  destruct (p x).
  - inversion H; subst. cbn. rewrite Hf. split; [|reflexivity].
    rewrite <- !app_assoc. apply Permutation_app_head. apply Permutation_app_comm.
  - destruct (update_first p f l) as [r|]; [|discriminate H].
    inversion H; subst. destruct (IH r eq_refl) as [Hp Hl]. cbn.
    split; [|rewrite Hl; reflexivity].
    rewrite <- app_assoc. apply Permutation_app_head. exact Hp.
Qed.

Lemma insert_block_perm (b : SessionBlock) (l : list SessionBlock) :
  Permutation (insert_block b l) (b :: l).
Proof.
  induction l as [|x l IH]; cbn; [reflexivity|].
  destruct (start_time b <=? start_time x); [reflexivity|].
  rewrite IH. apply perm_swap.
Qed.

Lemma sort_blocks_perm (l : list SessionBlock) : Permutation (sort_blocks l) l.
Proof.
  induction l as [|x l IH]; cbn; [reflexivity|].
  rewrite insert_block_perm, IH. reflexivity.
Qed.

Lemma all_entries_perm (l l' : list SessionBlock) :
  Permutation l l' -> Permutation (all_entries l) (all_entries l').
Proof.
  intro H. cbv beta. rewrite <- !flat_map_concat_map.
  apply Permutation_flat_map. exact H.
Qed.

Lemma merge_entry_conserves (now : datetime) (blocks : list SessionBlock) (e : Entry) :
  let blocks' := merge_entry get_model_pricing session_duration_hours now blocks e in
  Permutation (all_entries blocks') (all_entries blocks ++ [e])
  /\ (length blocks <= length blocks' <= S (length blocks))%nat.
Proof.
  cbv zeta. unfold merge_entry.
  destruct (update_first (belongs_to (timestamp e)) _ blocks) as [l1|] eqn:E1.
  - apply (update_first_entries _ _ e) in E1.
    + destruct E1 as [Hp Hl]. split; [exact Hp|lia].
    + intro x. destruct (end_time (add_entry now x e) <? timestamp e);
        cbn [set_end_time entries]; apply add_entry_entries.
  - destruct (update_first (extends (timestamp e)) _ blocks) as [l2|] eqn:E2.
    + apply (update_first_entries _ _ e) in E2.
      * destruct E2 as [Hp Hl]. split; [exact Hp|lia].
      * intro x. cbn [set_end_time entries]. apply add_entry_entries.
    + split.
      * rewrite (all_entries_perm _ _ (sort_blocks_perm _)).
        cbv beta. rewrite map_app, concat_app. cbn [map concat].
        rewrite add_entry_entries, app_nil_r. reflexivity.
      * rewrite (Permutation_length (sort_blocks_perm _)), length_app. cbn. lia.
Qed.

Lemma update_last_entries (f : SessionBlock -> SessionBlock) (l : list SessionBlock) :
  (forall x, entries (f x) = entries x) ->
  map entries (update_last f l) = map entries l /\ length (update_last f l) = length l.
Proof.
  intro Hf. unfold update_last. destruct (rev l) as [|x r] eqn:E; [split; reflexivity|].
  assert (El : l = rev r ++ [x]).
  { rewrite <- (rev_involutive l), E. reflexivity. }
  change (rev (f x :: r)) with (rev r ++ [f x]). rewrite El.
  rewrite !map_app, !length_app. cbn. rewrite Hf. split; reflexivity.
Qed.

(** X16: [_merge_new_entries] loses and duplicates nothing: the entries
    of the blocks afterwards are the entries before together with the new
    ones, and the number of blocks grows by at most one per new entry and
    never shrinks. *)
Theorem merge_new_entries_conserves (now : datetime) (blocks : list SessionBlock)
    (new_entries : list Entry) :
  let blocks' :=
    _merge_new_entries get_model_pricing session_duration_hours now blocks new_entries in
  Permutation (all_entries blocks') (all_entries blocks ++ new_entries)
  /\ (length blocks <= length blocks' <= length blocks + length new_entries)%nat.
Proof.
  cbv zeta. unfold _merge_new_entries.
  destruct (update_last_entries (update_active now)
              (fold_left (merge_entry get_model_pricing session_duration_hours now)
                         new_entries blocks)) as [Hm Hl].
  { intro x. unfold update_active.
    repeat match goal with
           | |- context [if ?c then _ else _] => destruct c
           end; reflexivity. }
  rewrite Hm, Hl. clear Hm Hl.
  revert blocks. induction new_entries as [|e es IH]; intro blocks; cbn [fold_left].
  - rewrite app_nil_r. cbn. split; [reflexivity|lia].
  - destruct (IH (merge_entry get_model_pricing session_duration_hours now blocks e))
      as [Hp Hl].
    destruct (merge_entry_conserves now blocks e) as [Hp1 Hl1].
    split.
    + rewrite Hp, Hp1, <- app_assoc. reflexivity.
    + cbn [length]. lia.
Qed.

End MergeFacts.

(** ** claude_code_reader.py: the history, the cache and the maximums *)

Section HistoryFacts.

Import Reader.

Variable get_model_pricing : string -> Pricing.
Variable session_duration_hours : Q.
Variable _blocks_cache_duration : Z.

Lemma filter_user_assistant (l : list Entry) :
  (length (filter is_user l) + length (filter is_assistant l) <= length l)%nat.
Proof.
  induction l as [|e l IH]; cbn [filter length]; [lia|].
  unfold is_user at 1, is_assistant at 1.
  destruct (String.eqb (entry_type e) "user") eqn:Eu;
    destruct (String.eqb (entry_type e) "assistant") eqn:Ea; cbn [length]; try lia.
  apply String.eqb_eq in Eu. apply String.eqb_eq in Ea. rewrite Eu in Ea. discriminate Ea.
Qed.

Lemma finalize_block_counts (now : datetime) (b : SessionBlock) :
  user_prompt_count (finalize_block now b) = user_prompt_count b
  /\ assistant_message_count (finalize_block now b) = assistant_message_count b.
Proof.
  unfold finalize_block. destruct (entries b); split; reflexivity.
Qed.

Lemma history_of_blocks (now : datetime) (l : list SessionBlock) :
  Forall (fun b => entries b <> [] /\ follows_entries b
                   /\ input_tokens b + output_tokens b = total_tokens b) l ->
  let history :=
    flat_map
      (fun block =>
         match entries block with
         | [] => []
         | _ =>
             [{| info_start_time := start_time block;
                 info_messages_sent :=
                   user_prompt_count block + assistant_message_count block;
                 info_entry_count := length (entries block) |}]
         end)
      (map (finalize_block now) l) in
  map info_start_time history = map start_time (map (finalize_block now) l)
  /\ fold_right (fun i n => info_entry_count i + n)%nat 0%nat history
     = length (concat (map entries l))
  /\ Forall (fun i => (0 < info_entry_count i)%nat
                      /\ 0 <= info_messages_sent i <= Z.of_nat (info_entry_count i))
            history.
Proof.
  cbv zeta.
  induction 1 as [|b l [Hne [[_ [_ [Hc Hu]]] _]] Hl [IH1 [IH2 IH3]]];
    [repeat split; constructor|].
  destruct (finalize_block_window now b) as [Hs [_ Hn]].
  destruct (finalize_block_counts now b) as [Hup Hac].
  cbn [map flat_map concat]. rewrite Hn, Hs, Hup, Hac, length_app.
  destruct (entries b) as [|e0 es] eqn:E; [contradiction|].
  cbn [app map fold_right info_start_time info_entry_count].
  rewrite IH1, IH2. repeat split.
  constructor; [|exact IH3].
  cbn [info_entry_count info_messages_sent].
  pose proof (filter_user_assistant (e0 :: es)). cbn [length] in *. lia.
Qed.

(** X17: [get_session_history] reports every rebuilt block, in order (the
    test for empty blocks never skips one); the [entry_count] fields are
    positive and add up to the number of loaded entries, and
    [messages_sent] lies between 0 and [entry_count]. *)
Theorem get_session_history_counts (now : datetime) (files : list (list Line))
    (days_back : Z) :
  let loaded := _load_usage_entries now files (Some (days_back * 24)) in
  let history :=
    get_session_history get_model_pricing session_duration_hours now files days_back in
  map info_start_time history
  = map start_time
      (_create_session_blocks get_model_pricing session_duration_hours now loaded)
  /\ fold_right (fun i n => info_entry_count i + n)%nat 0%nat history = length loaded
  /\ Forall (fun i => (0 < info_entry_count i)%nat
                      /\ 0 <= info_messages_sent i <= Z.of_nat (info_entry_count i))
            history.
Proof.
  cbv zeta. unfold get_session_history, _create_session_blocks.
  set (loaded := _load_usage_entries now files (Some (days_back * 24))).
  pose proof (create_loop_entries get_model_pricing session_duration_hours now loaded
                [] None) as He.
  cbn [map concat app] in He.
  destruct (history_of_blocks now _
              (create_loop_follows get_model_pricing session_duration_hours now loaded))
    as [H1 [H2 H3]].
  rewrite He in H2. repeat split; assumption.
Qed.

(** X18: a refresh that is not forced and comes less than the cache
    duration after a forced one changes nothing, whatever the log files
    hold by then. *)
Theorem update_session_blocks_cached (r : ClaudeCodeReader) (now now' : datetime)
    (files files' : list (list Line)) (hours_back : option Z) :
  now' - now < _blocks_cache_duration ->
  let refreshed :=
    _update_session_blocks get_model_pricing session_duration_hours
      _blocks_cache_duration r now files true hours_back in
  _update_session_blocks get_model_pricing session_duration_hours
    _blocks_cache_duration refreshed now' files' false None = refreshed.
Proof.
  intro H. apply Z.ltb_lt in H. cbv zeta.
  assert (E : _blocks_last_updated
                (_update_session_blocks get_model_pricing session_duration_hours
                   _blocks_cache_duration r now files true hours_back) = Some now).
  { unfold _update_session_blocks. cbn [negb andb].
    destruct hours_back; [reflexivity|].
    destruct (negb (_full_data_loaded r)); reflexivity. }
  set (refreshed := _update_session_blocks get_model_pricing session_duration_hours
                      _blocks_cache_duration r now files true hours_back) in *.
  unfold _update_session_blocks. cbn [negb andb is_some].
  rewrite E, H. reflexivity.
Qed.

Lemma scan_maximums_bounds (days_back : Z) (blocks : list SessionBlock) :
  forall acc : SessionMaximums,
    let m :=
      fold_left
        (fun acc block =>
           if is_active block || is_gap block then acc
           else
             {| hist_max_tokens := Zpy_max (hist_max_tokens acc) (total_tokens block);
                hist_max_messages :=
                  Zpy_max (hist_max_messages acc) (sent_messages_count block);
                hist_max_prompts := Zpy_max (hist_max_prompts acc) (user_prompt_count block);
                hist_days_analyzed := days_back;
                hist_sessions_analyzed := hist_sessions_analyzed acc + 1 |})
        blocks acc in
    hist_max_tokens acc <= hist_max_tokens m
    /\ hist_max_messages acc <= hist_max_messages m
    /\ hist_max_prompts acc <= hist_max_prompts m
    /\ hist_sessions_analyzed m
       = hist_sessions_analyzed acc
         + Z.of_nat (length (filter (fun b => negb (is_active b || is_gap b)) blocks))
    /\ Forall (fun b => is_active b || is_gap b = false ->
                        total_tokens b <= hist_max_tokens m
                        /\ sent_messages_count b <= hist_max_messages m
                        /\ user_prompt_count b <= hist_max_prompts m) blocks.
Proof.
  induction blocks as [|b blocks IH]; intro acc; cbn [fold_left filter].
  - cbv zeta. cbn. repeat split; try lia. constructor.
  - cbv zeta. destruct (is_active b || is_gap b) eqn:E; cbn [negb].
    + destruct (IH acc) as [H1 [H2 [H3 [H4 H5]]]].
      repeat split; try assumption.
      constructor; [cbv beta; rewrite E; discriminate|exact H5].
    + match goal with
      | |- context [fold_left _ blocks ?a] => destruct (IH a) as [H1 [H2 [H3 [H4 H5]]]]
      end.
      cbn [hist_max_tokens hist_max_messages hist_max_prompts hist_sessions_analyzed]
        in H1, H2, H3, H4.
      unfold Zpy_max in *.
      destruct (Z.ltb_spec (hist_max_tokens acc) (total_tokens b));
        destruct (Z.ltb_spec (hist_max_messages acc) (sent_messages_count b));
        destruct (Z.ltb_spec (hist_max_prompts acc) (user_prompt_count b));
        (repeat split; [lia|lia|lia|cbn [length]; lia|]);
        (constructor; [intros _; lia|exact H5]).
Qed.

(** X19: [get_historical_session_maximums] puts the previous blocks back
    but keeps the new cache timestamp; the maximums are not negative,
    bound the tokens, messages and prompts of every completed session of
    the period, and [sessions_analyzed] counts exactly those sessions. *)
Theorem get_historical_session_maximums_bounds (r : ClaudeCodeReader) (now : datetime)
    (files : list (list Line)) (days_back : Z) :
  let rebuilt :=
    _create_session_blocks get_model_pricing session_duration_hours now
      (_load_usage_entries now files (Some (days_back * 24))) in
  let result :=
    get_historical_session_maximums get_model_pricing session_duration_hours
      _blocks_cache_duration r now files days_back in
  _session_blocks (snd result) = _session_blocks r
  /\ _blocks_last_updated (snd result) = Some now
  /\ 0 <= hist_max_tokens (fst result)
  /\ 0 <= hist_max_messages (fst result)
  /\ 0 <= hist_max_prompts (fst result)
  /\ hist_sessions_analyzed (fst result)
     = Z.of_nat (length (filter (fun b => negb (is_active b || is_gap b)) rebuilt))
  /\ Forall (fun b => is_active b || is_gap b = false ->
                      total_tokens b <= hist_max_tokens (fst result)
                      /\ sent_messages_count b <= hist_max_messages (fst result)
                      /\ user_prompt_count b <= hist_max_prompts (fst result)) rebuilt.
Proof.
  cbv zeta. unfold get_historical_session_maximums, _update_session_blocks.
  cbn [negb andb fst snd _session_blocks _blocks_last_updated].
  unfold scan_maximums.
  match goal with
  | |- context [fold_left _ ?bs ?a] =>
      destruct (scan_maximums_bounds days_back bs a) as [H1 [H2 [H3 [H4 H5]]]]
  end.
  cbn [hist_max_tokens hist_max_messages hist_max_prompts hist_sessions_analyzed]
    in H1, H2, H3, H4.
  repeat split; assumption.
Qed.

End HistoryFacts.

Section HistoryWitnesses.

Import Reader.

(** X18: the witness, a forced refresh at noon on an empty directory and
    a call ten seconds later when the two-minute log has appeared. *)
Lemma update_session_blocks_cached_witness :
  _update_session_blocks sample_pricing 5 (30 * SECOND)
    (_update_session_blocks sample_pricing 5 (30 * SECOND) init noon [] true None)
    (noon + 10 * SECOND) [two_minute_log] false None
  = _update_session_blocks sample_pricing 5 (30 * SECOND) init noon [] true None.
Proof.
  apply (update_session_blocks_cached sample_pricing 5 (30 * SECOND) init noon
           (noon + 10 * SECOND) [] [two_minute_log] None).
  vm_compute. reflexivity.
Defined.

End HistoryWitnesses.

(** ** claude_code_reader.py: the books of a block *)

Section AccountFacts.

Import Reader.

Variable get_model_pricing : string -> Pricing.
Variable session_duration_hours : Q.
Variable _blocks_cache_duration : Z.

Local Abbreviation add_entry := (_add_entry_to_block get_model_pricing).

(** *** Invariants of the blocks of a reader *)

Section BlockInvariant.

Variable P : SessionBlock -> Prop.

Hypothesis P_new : forall s e i, P (new_block s e i).
Hypothesis P_add : forall now b e, P b -> P (add_entry now b e).
Hypothesis P_end : forall b t, P b -> P (set_end_time b t).
Hypothesis P_active : forall b a, P b -> P (set_is_active b a).
Hypothesis P_final : forall now b, P b -> P (finalize_block now b).

Lemma create_session_blocks_invariant (now : datetime) (es : list Entry) :
  Forall P (_create_session_blocks get_model_pricing session_duration_hours now es).
Proof.
  unfold _create_session_blocks. apply Forall_map.
  eapply Forall_impl; [intros b Hb; apply P_final, Hb|].
  apply create_loop_Forall.
  - intro e. apply P_add, P_new.
  - intros b e Hb _. apply P_add, Hb.
  - constructor.
  - intros b Hb. discriminate Hb.
Qed.

Lemma merge_new_entries_invariant (now : datetime) (new_entries : list Entry) :
  forall blocks,
    Forall P blocks ->
    Forall P (_merge_new_entries get_model_pricing session_duration_hours now blocks
                new_entries).
Proof.
  intros blocks Hb. unfold _merge_new_entries.
  apply update_last_Forall.
  { intros x Hx. unfold update_active.
    repeat match goal with
           | |- context [if ?c then _ else _] => destruct c
           end; auto. }
  revert blocks Hb. induction new_entries as [|e es IH]; intros blocks Hb; cbn;
    [exact Hb|].
  apply IH. unfold merge_entry.
  destruct (update_first (belongs_to (timestamp e)) _ blocks) as [l1|] eqn:E1.
  - eapply update_first_Forall; [|exact Hb|exact E1].
    intros x Hx. cbv beta.
    destruct (end_time (add_entry now x e) <? timestamp e); auto.
  - destruct (update_first (extends (timestamp e)) _ blocks) as [l2|] eqn:E2.
    + eapply update_first_Forall; [|exact Hb|exact E2].
      intros x Hx. cbv beta. apply P_end, P_add, Hx.
    + apply sort_blocks_Forall, Forall_app. split; [exact Hb|].
      constructor; [|constructor]. apply P_add, P_new.
Qed.

Lemma reachable_invariant (r : ClaudeCodeReader) :
  reachable get_model_pricing session_duration_hours _blocks_cache_duration r ->
  Forall P (_session_blocks r).
Proof.
  induction 1 as [|r now files force hours_back Hr IH|r now Hr IH];
    [constructor| |exact IH].
  unfold _update_session_blocks.
  destruct (_ && _ && _); [exact IH|].
  destruct hours_back as [h|]; cbn [_session_blocks].
  - apply create_session_blocks_invariant.
  - destruct (negb (_full_data_loaded r)); cbn [_session_blocks].
    + apply create_session_blocks_invariant.
    + match goal with
      | |- Forall _ (match ?n with [] => _ | _ => _ end) => destruct n eqn:En
      end.
      * apply filter_Forall, IH.
      * apply merge_new_entries_invariant, filter_Forall, IH.
Qed.

End BlockInvariant.

(** *** The per-model dictionaries *)

Lemma update_stats_keys (key : string) (f : ModelStats -> ModelStats)
    (d : list (string * ModelStats)) :
  map fst (update_stats key f d)
  = if mem_string key (map fst d) then map fst d else map fst d ++ [key].
Proof.
  induction d as [|[k v] d IH]; [reflexivity|].
  cbn [update_stats map fst]. unfold mem_string in *. cbn [existsb].
  rewrite (String.eqb_sym key k).
  destruct (String.eqb k key); cbn [orb map fst]; [reflexivity|].
  rewrite IH. destruct (existsb (String.eqb key) (map fst d)); reflexivity.
Qed.

Lemma update_stats_sum (g : ModelStats -> Z) (key : string)
    (f : ModelStats -> ModelStats) (delta : Z) (d : list (string * ModelStats)) :
  (forall s, g (f s) = g s + delta) -> g empty_stats = 0 ->
  sum_stats g (update_stats key f d) = sum_stats g d + delta.
Proof.
  intros Hf H0. unfold sum_stats.
  induction d as [|[k v] d IH]; cbn [update_stats fold_right snd].
  - rewrite Hf, H0. lia.
  - destruct (String.eqb k key); cbn [fold_right snd]; [rewrite Hf|rewrite IH]; lia.
Qed.

Lemma update_breakdown_sum (g : ModelBreakdown -> Z) (key : string)
    (f : ModelBreakdown -> ModelBreakdown) (delta : Z)
    (d : list (string * ModelBreakdown)) :
  (forall m, g (f m) = g m + delta) -> g empty_breakdown = 0 ->
  sum_breakdown g (update_breakdown key f d) = sum_breakdown g d + delta.
Proof.
  intros Hf H0. unfold sum_breakdown.
  induction d as [|[k v] d IH]; cbn [update_breakdown fold_right snd].
  - rewrite Hf, H0. lia.
  - destruct (String.eqb k key); cbn [fold_right snd]; [rewrite Hf|rewrite IH]; lia.
Qed.

Lemma merge_breakdown_sum (g : ModelBreakdown -> Z) (gs : ModelStats -> Z) :
  (forall s m, g (add_breakdown s m) = g m + gs s) -> g empty_breakdown = 0 ->
  forall (blocks : list SessionBlock) (d : list (string * ModelBreakdown)),
    sum_breakdown g (fold_left merge_breakdown blocks d)
    = sum_breakdown g d
      + sum_blocks (fun b => sum_stats gs (per_model_stats b)) blocks.
Proof.
  intros Hg H0.
  assert (Hone : forall (l : list (string * ModelStats)) d,
             sum_breakdown g
               (fold_left (fun d ms => update_breakdown (fst ms) (add_breakdown (snd ms)) d)
                          l d)
             = sum_breakdown g d + sum_stats gs l).
  { induction l as [|a l IH]; intro d; cbn [fold_left].
    - unfold sum_stats. cbn. lia.
    - rewrite IH, (update_breakdown_sum g _ _ (gs (snd a))); [|intro m; apply Hg|exact H0].
      unfold sum_stats. cbn [fold_right]. lia. }
  induction blocks as [|b blocks IH]; intro d; cbn [fold_left].
  - unfold sum_blocks. cbn. lia.
  - rewrite IH. unfold merge_breakdown. rewrite Hone.
    unfold sum_blocks. cbn [fold_right]. lia.
Qed.

Lemma fold_left_sum (f : SessionBlock -> Z) (blocks : list SessionBlock) :
  forall acc, fold_left (fun acc b => acc + f b) blocks acc = acc + sum_blocks f blocks.
Proof.
  unfold sum_blocks.
  induction blocks as [|b blocks IH]; intro acc; cbn [fold_left fold_right]; [lia|].
  rewrite IH. lia.
Qed.

Lemma sum_blocks_ext (f g : SessionBlock -> Z) (blocks : list SessionBlock) :
  Forall (fun b => f b = g b) blocks -> sum_blocks f blocks = sum_blocks g blocks.
Proof.
  unfold sum_blocks. induction 1 as [|b l Hb Hl IH]; cbn [fold_right]; [reflexivity|].
  rewrite Hb, IH. reflexivity.
Qed.

(** *** The books balance in every block *)

Lemma aggregate_usage_accounts (b : SessionBlock) (e : Entry) :
  block_accounts b -> block_accounts (aggregate_usage get_model_pricing b e).
Proof.
  intros [Ht [Hp [Hk [Hn [Hi [Ho [Hcc Hcr]]]]]]].
  unfold aggregate_usage. destruct (usage_empty (usage e));
    [repeat split; assumption|].
  unfold block_accounts. cbn -[update_stats mem_string sum_stats].
  split; [reflexivity|]. split; [exact Hp|].
  split; [rewrite update_stats_keys, Hk; reflexivity|].
  split.
  { destruct (mem_string (model e) (models b)) eqn:Em; [exact Hn|].
    apply NoDup_app; [exact Hn|constructor; [intros []|constructor]|].
    intros a Ha [Hb|[]]. subst a. apply mem_string_In in Ha. congruence. }
  repeat split;
    match goal with
    | |- sum_stats ?g (update_stats _ _ _) = _ + ?d =>
        rewrite (update_stats_sum g _ _ d); [congruence|intro s; reflexivity|reflexivity]
    end.
Qed.

Lemma add_entry_accounts (now : datetime) (b : SessionBlock) (e : Entry) :
  block_accounts b -> block_accounts (add_entry now b e).
Proof.
  intro Hb. unfold _add_entry_to_block.
  assert (Ha : block_accounts (append_entry b e)) by exact Hb.
  assert (Hc : block_accounts (count_assistant (append_entry b e))) by exact Hb.
  assert (Hp : block_accounts (count_prompt (append_entry b e) (timestamp e))).
  { destruct Hb as [Ht [Hp Hrest]]. split; [exact Ht|]. split; [|exact Hrest].
    cbn [count_prompt append_entry prompt_timestamps user_prompt_count].
    rewrite length_app. cbn [length]. lia. }
  repeat match goal with
         | |- context [if ?c then _ else _] => destruct c
         end;
    try apply aggregate_usage_accounts; assumption.
Qed.

Lemma finalize_block_accounts (now : datetime) (b : SessionBlock) :
  block_accounts b -> block_accounts (finalize_block now b).
Proof.
  intro Hb. unfold finalize_block. destruct (entries b); exact Hb.
Qed.

(** X21: in every state the reader can reach, the books of every block
    balance: [total_tokens] is [input_tokens + output_tokens], there is
    one prompt timestamp per counted prompt, [models] lists the keys of
    [per_model_stats] in order and without repetition, and the per-model
    token counters add up to the counters of the block. *)
Theorem reachable_blocks_account (r : ClaudeCodeReader) :
  reachable get_model_pricing session_duration_hours _blocks_cache_duration r ->
  Forall block_accounts (_session_blocks r).
Proof.
  apply reachable_invariant.
  - intros s e i. unfold block_accounts. cbn. repeat split; constructor.
  - intros now b e. apply add_entry_accounts.
  - intros b t Hb. exact Hb.
  - intros b a Hb. exact Hb.
  - intros now b. apply finalize_block_accounts.
Qed.

Lemma aggregate_blocks_breakdown (blocks : list SessionBlock)
    (since_date : option datetime) :
  Forall block_accounts blocks ->
  let d := aggregate_blocks blocks since_date in
  sum_breakdown mb_input_tokens (model_breakdown d) = total_input_tokens d
  /\ sum_breakdown mb_output_tokens (model_breakdown d) = total_output_tokens d
  /\ sum_breakdown mb_cache_creation_tokens (model_breakdown d)
     = total_cache_creation_tokens d
  /\ sum_breakdown mb_cache_read_tokens (model_breakdown d) = total_cache_read_tokens d
  /\ data_total_tokens d = sum_blocks total_tokens blocks.
Proof.
  intro Hb. cbv zeta. unfold aggregate_blocks.
  cbn [model_breakdown total_input_tokens total_output_tokens
       total_cache_creation_tokens total_cache_read_tokens data_total_tokens].
  rewrite !fold_left_sum.
  rewrite (merge_breakdown_sum mb_input_tokens ms_input_tokens);
    [|intros; reflexivity|reflexivity].
  rewrite (merge_breakdown_sum mb_output_tokens ms_output_tokens);
    [|intros; reflexivity|reflexivity].
  rewrite (merge_breakdown_sum mb_cache_creation_tokens ms_cache_creation_tokens);
    [|intros; reflexivity|reflexivity].
  rewrite (merge_breakdown_sum mb_cache_read_tokens ms_cache_read_tokens);
    [|intros; reflexivity|reflexivity].
  repeat split;
    try (unfold sum_breakdown at 1; cbn [fold_right];
         apply sum_blocks_ext; eapply Forall_impl; [|exact Hb];
         intros b Hacc; apply Hacc).
  cbn [Z.add].
  clear - Hb. unfold sum_blocks.
  induction Hb as [|b l [Ht _] Hl IH]; cbn [fold_right] in *; [reflexivity|].
  rewrite Ht. lia.
Qed.

(** X22: on a reader the program can reach, the [model_breakdown] of
    [get_usage_data] adds up to the totals it reports, for input, output,
    cache creation and cache read tokens, and [total_tokens] is the sum of
    the [total_tokens] of the blocks that were aggregated. *)
Theorem get_usage_data_breakdown (r : ClaudeCodeReader) (now : datetime)
    (files : list (list Line)) (since_date : option datetime) :
  reachable get_model_pricing session_duration_hours _blocks_cache_duration r ->
  let result :=
    get_usage_data get_model_pricing session_duration_hours _blocks_cache_duration
      r now files since_date in
  let d := fst result in
  let blocks :=
    match since_date with
    | Some since =>
        filter (fun b => (since <=? end_time b) || is_active b)
               (_session_blocks (snd result))
    | None => _session_blocks (snd result)
    end in
  sum_breakdown mb_input_tokens (model_breakdown d) = total_input_tokens d
  /\ sum_breakdown mb_output_tokens (model_breakdown d) = total_output_tokens d
  /\ sum_breakdown mb_cache_creation_tokens (model_breakdown d)
     = total_cache_creation_tokens d
  /\ sum_breakdown mb_cache_read_tokens (model_breakdown d) = total_cache_read_tokens d
  /\ data_total_tokens d = sum_blocks total_tokens blocks.
Proof.
  intro Hr. cbv zeta. unfold get_usage_data.
  assert (Hacc : forall force hours_back,
             Forall block_accounts
               (_session_blocks
                  (_update_session_blocks get_model_pricing session_duration_hours
                     _blocks_cache_duration r now files force hours_back))).
  { intros force hours_back. apply reachable_invariant.
    - intros s e i. unfold block_accounts. cbn. repeat split; constructor.
    - intros now' b e. apply add_entry_accounts.
    - intros b t Hb. exact Hb.
    - intros b a Hb. exact Hb.
    - intros now' b. apply finalize_block_accounts.
    - apply reachable_refresh, Hr. }
  destruct since_date as [since|]; cbn [fst snd].
  - apply aggregate_blocks_breakdown, filter_Forall, Hacc.
  - apply aggregate_blocks_breakdown, Hacc.
Qed.

End AccountFacts.

Section AccountWitnesses.

Import Reader.

(** X21: the witness, the reader started at 09:00 on the morning log. *)
Lemma reachable_blocks_account_witness :
  Forall block_accounts (_session_blocks reader_at_nine).
Proof.
  apply (reachable_blocks_account sample_pricing 5 (30 * SECOND) reader_at_nine).
  apply reachable_refresh, reachable_init.
Defined.

(** X22: the witness, the usage of that reader at noon once the
    two-minute log has appeared. *)
Lemma get_usage_data_breakdown_witness :
  let result :=
    get_usage_data sample_pricing 5 (30 * SECOND) reader_at_nine noon
      [two_minute_log] None in
  sum_breakdown mb_input_tokens (model_breakdown (fst result))
  = total_input_tokens (fst result)
  /\ sum_breakdown mb_output_tokens (model_breakdown (fst result))
     = total_output_tokens (fst result)
  /\ sum_breakdown mb_cache_creation_tokens (model_breakdown (fst result))
     = total_cache_creation_tokens (fst result)
  /\ sum_breakdown mb_cache_read_tokens (model_breakdown (fst result))
     = total_cache_read_tokens (fst result)
  /\ data_total_tokens (fst result)
     = sum_blocks total_tokens (_session_blocks (snd result)).
Proof.
  apply (get_usage_data_breakdown sample_pricing 5 (30 * SECOND) reader_at_nine noon
           [two_minute_log] None).
  apply reachable_refresh, reachable_init.
Defined.

End AccountWitnesses.

(** ** claude_code_reader.py: the order of the blocks *)

Section OrderFacts.

Import Reader.

Variable get_model_pricing : string -> Pricing.
Variable session_duration_hours : Q.
Variable _blocks_cache_duration : Z.

Local Abbreviation add_entry := (_add_entry_to_block get_model_pricing).
Local Abbreviation windowed :=
  (fun b => start_time b mod HOUR = 0
            /\ end_time b = start_time b + timedelta_of_hours session_duration_hours).
Local Abbreviation starts_sorted :=
  (fun blocks => StronglySorted Z.le (map start_time blocks)).

Lemma starts_sorted_by_start_time (blocks : list SessionBlock) :
  starts_sorted blocks -> StronglySorted by_start_time blocks.
Proof.
  cbv beta. induction blocks as [|b l IH]; cbn [map]; intro H; [constructor|].
  inversion H as [|x l' Hl Hx]; subst. constructor; [apply IH, Hl|].
  rewrite Forall_map in Hx. exact Hx.
Qed.

Lemma insert_block_starts (b : SessionBlock) (l : list SessionBlock) :
  starts_sorted l -> starts_sorted (insert_block b l).
Proof.
  cbv beta. induction l as [|x l IH]; cbn [insert_block map]; intro H.
  - constructor; constructor.
  - inversion H as [|y l' Hl Hx]; subst.
    destruct (Z.leb_spec (start_time b) (start_time x)); cbn [map].
    + constructor; [exact H|]. constructor; [assumption|].
      eapply Forall_impl; [|exact Hx]. cbv beta. intros a Ha. lia.
    + constructor; [apply IH, Hl|].
      rewrite Forall_map. apply insert_block_Forall; [lia|].
      rewrite Forall_map in Hx. exact Hx.
Qed.

Lemma sort_blocks_starts (l : list SessionBlock) : starts_sorted (sort_blocks l).
Proof.
  induction l as [|x l IH]; cbn; [constructor|]. apply insert_block_starts, IH.
Qed.

Lemma update_first_starts (p : SessionBlock -> bool) (f : SessionBlock -> SessionBlock) :
  (forall x, start_time (f x) = start_time x) ->
  forall l l', update_first p f l = Some l' -> map start_time l' = map start_time l.
Proof.
  intros Hf. induction l as [|x l IH]; intros l' H; cbn in H; [discriminate H|].
  destruct (p x).
  - inversion H; subst. cbn. rewrite Hf. reflexivity.
  - destruct (update_first p f l) as [r|]; [|discriminate H].
    inversion H; subst. cbn. rewrite (IH r eq_refl). reflexivity.
Qed.

Lemma update_last_starts (f : SessionBlock -> SessionBlock) (l : list SessionBlock) :
  (forall x, start_time (f x) = start_time x) ->
  map start_time (update_last f l) = map start_time l.
Proof.
  intro Hf. unfold update_last. destruct (rev l) as [|x r] eqn:E; [reflexivity|].
  assert (El : l = rev r ++ [x]).
  { rewrite <- (rev_involutive l), E. reflexivity. }
  change (rev (f x :: r)) with (rev r ++ [f x]). rewrite El.
  rewrite !map_app. cbn. rewrite Hf. reflexivity.
Qed.

Lemma filter_starts (p : SessionBlock -> bool) (l : list SessionBlock) :
  starts_sorted l -> starts_sorted (filter p l).
Proof.
  cbv beta. induction l as [|x l IH]; cbn [filter map]; intro H; [constructor|].
  inversion H as [|y l' Hl Hx]; subst.
  destruct (p x); cbn [map]; [|apply IH, Hl].
  constructor; [apply IH, Hl|].
  rewrite Forall_map. apply filter_Forall. rewrite Forall_map in Hx. exact Hx.
Qed.

Lemma merge_new_entries_starts (now : datetime) (new_entries : list Entry) :
  forall blocks,
    starts_sorted blocks ->
    starts_sorted (_merge_new_entries get_model_pricing session_duration_hours now
                     blocks new_entries).
Proof.
  intros blocks Hb. cbv beta. unfold _merge_new_entries.
  rewrite update_last_starts.
  2:{ intro x. unfold update_active.
      repeat match goal with
             | |- context [if ?c then _ else _] => destruct c
             end; reflexivity. }
  revert blocks Hb. induction new_entries as [|e es IH]; intros blocks Hb; cbn;
    [exact Hb|].
  apply IH. unfold merge_entry.
  destruct (update_first (belongs_to (timestamp e)) _ blocks) as [l1|] eqn:E1.
  - apply update_first_starts in E1; [rewrite E1; exact Hb|].
    intro x. cbv beta. destruct (add_entry_window get_model_pricing now x e) as [Hs _].
    destruct (end_time (add_entry now x e) <? timestamp e); exact Hs.
  - destruct (update_first (extends (timestamp e)) _ blocks) as [l2|] eqn:E2.
    + apply update_first_starts in E2; [rewrite E2; exact Hb|].
      intro x. cbv beta. destruct (add_entry_window get_model_pricing now x e) as [Hs _].
      exact Hs.
    + apply sort_blocks_starts.
Qed.

Lemma starts_sorted_snoc (blocks : list SessionBlock) (b : SessionBlock) :
  starts_sorted blocks -> Forall (fun a => start_time a <= start_time b) blocks ->
  starts_sorted (blocks ++ [b]).
Proof.
  cbv beta. induction blocks as [|x l IH]; cbn [map app]; intros Hs Hb.
  - constructor; constructor.
  - inversion Hs as [|y l' Hl Hx]; subst. inversion Hb as [|y l' Hxb Hlb]; subst.
    constructor; [apply IH; assumption|].
    rewrite map_app. apply Forall_app. split; [exact Hx|].
    constructor; [exact Hxb|constructor].
Qed.

(** The loop of the rebuild keeps the blocks in the order of their
    starts, whatever the session duration is, as long as it is not
    negative. *)
Lemma create_loop_starts (now : datetime) (es : list Entry) :
  0 <= timedelta_of_hours session_duration_hours ->
  forall (blocks : list SessionBlock) (cur : SessionBlock),
    starts_sorted blocks ->
    Forall (fun a => start_time a <= start_time cur) blocks ->
    windowed cur ->
    starts_sorted
      (create_loop get_model_pricing session_duration_hours now es blocks (Some cur)).
Proof.
  intro Hh. induction es as [|e es IH]; intros blocks cur Hs Hb Hc;
    cbn [create_loop].
  - apply starts_sorted_snoc; assumption.
  - cbv zeta. destruct (timestamp e >=? end_time cur) eqn:E.
    + apply Z.geb_le in E. destruct Hc as [Hc1 Hc2].
      assert (Hle : start_time cur <= _round_to_hour (timestamp e))
        by (apply round_to_hour_ge; [exact Hc1|lia]).
      destruct (add_entry_window get_model_pricing now
        (new_block (_round_to_hour (timestamp e))
           (_round_to_hour (timestamp e) + timedelta_of_hours session_duration_hours)
           (_round_to_hour (timestamp e))) e) as [Hst _].
      apply IH.
      * apply starts_sorted_snoc; assumption.
      * rewrite Hst. cbn [new_block start_time]. apply Forall_app. split.
        -- eapply Forall_impl; [|exact Hb]. cbv beta. intros a Ha. lia.
        -- constructor; [exact Hle|constructor].
      * apply (fresh_block_windowed get_model_pricing session_duration_hours).
    + destruct (add_entry_window get_model_pricing now cur e) as [Hst [Hen _]].
      apply IH; [exact Hs| |].
      * rewrite Hst. exact Hb.
      * rewrite Hst, Hen. exact Hc.
Qed.

Lemma create_session_blocks_starts (now : datetime) (es : list Entry) :
  (0 <= session_duration_hours)%Q ->
  starts_sorted (_create_session_blocks get_model_pricing session_duration_hours now es).
Proof.
  intro Hh. apply timedelta_of_hours_nonneg in Hh.
  cbv beta. unfold _create_session_blocks. rewrite map_map.
  rewrite (map_ext _ start_time) by (intro b; apply finalize_block_window).
  destruct es as [|e es]; [constructor|]. cbn [create_loop]. cbv zeta.
  apply create_loop_starts; [exact Hh|constructor|constructor|].
  apply (fresh_block_windowed get_model_pricing session_duration_hours).
Qed.

(** X23: when the session duration is not negative, the blocks of every
    reader the program can reach are sorted by start time. *)
Theorem reachable_blocks_sorted (r : ClaudeCodeReader) :
  (0 <= session_duration_hours)%Q ->
  reachable get_model_pricing session_duration_hours _blocks_cache_duration r ->
  StronglySorted by_start_time (_session_blocks r).
Proof.
  intros Hh Hr. apply starts_sorted_by_start_time.
  induction Hr as [|r now files force hours_back Hr IH|r now Hr IH];
    [constructor| |exact IH].
  unfold _update_session_blocks.
  destruct (_ && _ && _); [exact IH|].
  destruct hours_back as [h|]; cbn [_session_blocks].
  - apply create_session_blocks_starts, Hh.
  - destruct (negb (_full_data_loaded r)); cbn [_session_blocks].
    + apply create_session_blocks_starts, Hh.
    + match goal with
      | |- StronglySorted _ (map _ (match ?n with [] => _ | _ => _ end)) =>
          destruct n eqn:En
      end.
      * apply filter_starts, IH.
      * apply merge_new_entries_starts, filter_starts, IH.
Qed.

End OrderFacts.

Section OrderWitnesses.

Import Reader.

(** X23: the witness, a reader whose log holds two sessions, at 02:00 and
    at 10:00. *)
Lemma reachable_blocks_sorted_witness :
  StronglySorted by_start_time (_session_blocks reader_two_sessions).
Proof.
  apply (reachable_blocks_sorted sample_pricing 5 (30 * SECOND) reader_two_sessions).
  - discriminate.
  - apply reachable_refresh, reachable_init.
Defined.

End OrderWitnesses.

(** ** claude_code_reader.py: the current session and the historical rate *)

Section SessionFacts.

Import Reader.

Variable get_model_pricing : string -> Pricing.
Variable session_duration_hours : Q.
Variable _blocks_cache_duration : Z.

Local Abbreviation add_entry := (_add_entry_to_block get_model_pricing).
Local Abbreviation counts_follow :=
  (fun b =>
     assistant_message_count b = Z.of_nat (length (filter is_assistant (entries b)))
     /\ 0 <= user_prompt_count b <= Z.of_nat (length (filter is_user (entries b)))).

Lemma add_entry_counts (now : datetime) (b : SessionBlock) (e : Entry) :
  counts_follow b -> counts_follow (add_entry now b e).
Proof.
  intros [Hc Hu].
  pose proof (filter_snoc_length is_assistant (entries b) e) as Fa.
  pose proof (filter_snoc_length is_user (entries b) e) as Fu.
  unfold is_assistant, is_user in *.
  cbv beta zeta delta [_add_entry_to_block aggregate_usage].
  destruct (String.eqb (entry_type e) "user") eqn:Eu;
    [|destruct (String.eqb (entry_type e) "assistant") eqn:Eas];
    try (apply String.eqb_eq in Eu; rewrite Eu in *; cbn in Fa);
    repeat match goal with
           | |- context [if ?c then _ else _] => destruct c eqn:?
           end;
    cbn -[filter Z.of_nat]; rewrite ?Fa, ?Fu; split; lia.
Qed.

Lemma reachable_counts_follow (r : ClaudeCodeReader) :
  reachable get_model_pricing session_duration_hours _blocks_cache_duration r ->
  Forall counts_follow (_session_blocks r).
Proof.
  apply reachable_invariant.
  - intros s e i. cbn. split; lia.
  - intros now b e. apply add_entry_counts.
  - intros b t Hb. exact Hb.
  - intros b a Hb. exact Hb.
  - intros now b Hb. unfold finalize_block. destruct (entries b) eqn:E;
      [rewrite E; exact Hb|].
    cbn [assistant_message_count user_prompt_count entries]. exact Hb.
Qed.

(** X24: on a reader the program can reach, [get_current_session_prompts]
    reports the first block whose window contains the current time:
    [messages_sent] is the number of its assistant entries and
    [prompts_used] lies between 0 and the number of its user entries;
    without such a block it reports zeros and the pattern ['unknown']. *)
Theorem get_current_session_prompts_counts (r : ClaudeCodeReader) (now : datetime)
    (files : list (list Line)) :
  reachable get_model_pricing session_duration_hours _blocks_cache_duration r ->
  let result :=
    get_current_session_prompts get_model_pricing session_duration_hours
      _blocks_cache_duration r now files in
  match current_block (_session_blocks (snd result)) now with
  | Some b =>
      In b (_session_blocks (snd result))
      /\ start_time b <= now < end_time b
      /\ messages_sent (fst result)
         = Z.of_nat (length (filter is_assistant (entries b)))
      /\ prompts_used (fst result) = user_prompt_count b
      /\ 0 <= prompts_used (fst result)
         <= Z.of_nat (length (filter is_user (entries b)))
      /\ sp_pattern (fst result) <> None
  | None =>
      prompts_used (fst result) = 0 /\ messages_sent (fst result) = 0
      /\ sp_multiplication_factor (fst result) = 0%Q
      /\ sp_pattern (fst result) = None
  end.
Proof.
  intro Hr. cbv zeta.
  unfold get_current_session_prompts, _get_current_block.
  set (r' := _update_session_blocks get_model_pricing session_duration_hours
               _blocks_cache_duration r now files false None).
  assert (Hc : Forall counts_follow (_session_blocks r'))
    by (apply reachable_counts_follow, reachable_refresh, Hr).
  unfold current_block.
  destruct (find _ (_session_blocks r')) as [b|] eqn:E; cbn [fst snd];
    rewrite E; [|repeat split].
  apply find_some in E. destruct E as [Hin Hw].
  apply andb_true_iff in Hw. destruct Hw as [H1 H2].
  apply Z.leb_le in H1. apply Z.ltb_lt in H2.
  rewrite Forall_forall in Hc. destruct (Hc b Hin) as [Ha Hu].
  cbn [prompts_used messages_sent sp_pattern].
  repeat split; try assumption; try lia. discriminate.
Qed.

Lemma historical_totals_prompts (float_add float_div : Q -> Q -> Q)
    (cutoff : datetime) (blocks : list SessionBlock) :
  forall acc : Z * Q,
    (0 <= fst acc /\ (fst acc = 0 -> snd acc = 0%Q)) ->
    let totals :=
      fold_left
        (fun (acc : Z * Q) block =>
           let '(total_prompts, total_hours) := acc in
           if (cutoff <=? start_time block) && negb (is_gap block) then
             let user_prompts := Z.of_nat (length (filter raw_user (entries block))) in
             if 0 <? user_prompts then
               let duration_hours :=
                 float_div (total_seconds (effective_end block - start_time block)) 3600%Q in
               (total_prompts + user_prompts, float_add total_hours duration_hours)
             else acc
           else acc)
        blocks acc in
    0 <= fst totals /\ (fst totals = 0 -> snd totals = 0%Q).
Proof.
  induction blocks as [|b blocks IH]; intros [p h] Hacc; cbn [fold_left];
    [exact Hacc|].
  apply IH. cbn [fst snd] in *.
  destruct ((cutoff <=? start_time b) && negb (is_gap b)); [|exact Hacc].
  cbv zeta. destruct (Z.ltb_spec 0 (Z.of_nat (length (filter raw_user (entries b)))));
    [|exact Hacc].
  cbn [fst snd]. split; [lia|]. intro H0. lia.
Qed.

Lemma historical_totals_counted (float_add float_div : Q -> Q -> Q)
    (cutoff : datetime) (blocks : list SessionBlock) :
  forall acc : Z * Q,
    let totals :=
      fold_left
        (fun (acc : Z * Q) block =>
           let '(total_prompts, total_hours) := acc in
           if (cutoff <=? start_time block) && negb (is_gap block) then
             let user_prompts := Z.of_nat (length (filter raw_user (entries block))) in
             if 0 <? user_prompts then
               let duration_hours :=
                 float_div (total_seconds (effective_end block - start_time block)) 3600%Q in
               (total_prompts + user_prompts, float_add total_hours duration_hours)
             else acc
           else acc)
        blocks acc in
    totals = acc
    \/ exists b, In b blocks /\ cutoff <= start_time b /\ is_gap b = false
                 /\ filter raw_user (entries b) <> [].
Proof.
  induction blocks as [|b blocks IH]; intros [p h]; cbn [fold_left]; [left; reflexivity|].
  destruct (cutoff <=? start_time b) eqn:E1; cbn [andb].
  - destruct (is_gap b) eqn:E2; cbn [negb].
    + destruct (IH (p, h)) as [H|[x [Hin Hx]]]; [left; exact H|].
      right. exists x. split; [right; exact Hin|exact Hx].
    + cbv zeta.
      destruct (Z.ltb_spec 0 (Z.of_nat (length (filter raw_user (entries b))))) as [H|H].
      * right. exists b. split; [left; reflexivity|].
        apply Z.leb_le in E1. split; [exact E1|]. split; [exact E2|].
        intro H0. rewrite H0 in H. cbn in H. lia.
      * destruct (IH (p, h)) as [H'|[x [Hin Hx]]]; [left; exact H'|].
        right. exists x. split; [right; exact Hin|exact Hx].
  - destruct (IH (p, h)) as [H|[x [Hin Hx]]]; [left; exact H|].
    right. exists x. split; [right; exact Hin|exact Hx].
Qed.

(** X25: [calculate_historical_prompt_rate] never divides by zero, however
    the sums and quotients of doubles are rounded: nothing is assumed of
    the addition, and of the division only that the quotient of a count of
    at least 1 by a total above 0.5 is positive.  A rate is returned only
    when some session of the period holds a user entry; the prompt total is
    then positive, and so is the rate.  When no session of the period holds
    a user entry the answer is [None]. *)
Theorem calculate_historical_prompt_rate_positive (float_add float_div : Q -> Q -> Q)
    (r : ClaudeCodeReader) (now : datetime) (hours_back : Z) :
  (forall a b : Q, (1 <= a)%Q -> (1 # 2 < b)%Q -> (0 < float_div a b)%Q) ->
  let cutoff := now - timedelta_hours hours_back in
  let totals := historical_totals float_add float_div cutoff (_session_blocks r) in
  let counted (b : SessionBlock) :=
    cutoff <= start_time b /\ is_gap b = false /\ filter raw_user (entries b) <> [] in
  match calculate_historical_prompt_rate float_add float_div r now hours_back with
  | Some rate =>
      (0 < rate)%Q /\ 0 < fst totals /\ (1 # 2 < snd totals)%Q
      /\ rate = float_div (inject_Z (fst totals)) (snd totals)
      /\ exists b, In b (_session_blocks r) /\ counted b
  | None => (snd totals <= 1 # 2)%Q
  end
  /\ ((forall b, In b (_session_blocks r) -> ~ counted b) ->
      calculate_historical_prompt_rate float_add float_div r now hours_back = None).
Proof.
  intro Hdiv. cbv zeta. unfold calculate_historical_prompt_rate.
  pose proof (historical_totals_prompts float_add float_div
                (now - timedelta_hours hours_back) (_session_blocks r) (0, 0%Q)) as H.
  pose proof (historical_totals_counted float_add float_div
                (now - timedelta_hours hours_back) (_session_blocks r) (0, 0%Q)) as Hc.
  cbv zeta in H, Hc.
  fold (historical_totals float_add float_div (now - timedelta_hours hours_back)
          (_session_blocks r)) in H, Hc.
  destruct H as [Hp Hz]; [cbn; split; [lia|reflexivity]|].
  destruct (historical_totals float_add float_div (now - timedelta_hours hours_back)
              (_session_blocks r)) as [p h].
  cbn [fst snd] in *.
  destruct (Qltb 0.5 h) eqn:E.
  - apply Qltb_lt in E.
    assert (Hpos : 0 < p).
    { destruct (Z.eq_dec p 0) as [H0|H0]; [|lia].
      specialize (Hz H0). rewrite Hz in E. exfalso. revert E. apply Qle_not_lt.
      discriminate. }
    assert (HP : (1 <= inject_Z p)%Q)
      by (change 1%Q with (inject_Z 1); rewrite <- Zle_Qle; lia).
    assert (Hh : (1 # 2 < h)%Q) by lra.
    destruct Hc as [Hc|Hc]; [inversion Hc; lia|].
    split.
    + split; [apply Hdiv; assumption|]. split; [exact Hpos|]. split; [exact Hh|].
      split; [reflexivity|exact Hc].
    + intro Hn. destruct Hc as [b [Hin Hb]]. exfalso. exact (Hn b Hin Hb).
  - apply Qltb_ge in E. split; [lra|reflexivity].
Qed.

End SessionFacts.

Section SessionWitnesses.

Import Reader.

(** X24: the witness, the reader started at 09:00 asked again at noon. *)
Lemma get_current_session_prompts_counts_witness :
  let result :=
    get_current_session_prompts sample_pricing 5 (30 * SECOND) reader_at_nine noon
      [morning_log] in
  match current_block (_session_blocks (snd result)) noon with
  | Some b =>
      In b (_session_blocks (snd result))
      /\ start_time b <= noon < end_time b
      /\ messages_sent (fst result)
         = Z.of_nat (length (filter is_assistant (entries b)))
      /\ prompts_used (fst result) = user_prompt_count b
      /\ 0 <= prompts_used (fst result)
         <= Z.of_nat (length (filter is_user (entries b)))
      /\ sp_pattern (fst result) <> None
  | None =>
      prompts_used (fst result) = 0 /\ messages_sent (fst result) = 0
      /\ sp_multiplication_factor (fst result) = 0%Q
      /\ sp_pattern (fst result) = None
  end.
Proof.
  apply (get_current_session_prompts_counts sample_pricing 5 (30 * SECOND)
           reader_at_nine noon [morning_log]).
  apply reachable_refresh, reachable_init.
Defined.

(** X25: the witness, the busy hour with the exact sum and quotient: six
    prompts in the 55 minutes and 3 seconds the session lasted so far. *)
Lemma calculate_historical_prompt_rate_positive_witness :
  let cutoff := noon - timedelta_hours 24 in
  let totals := historical_totals Qplus Qdiv cutoff (_session_blocks reader_busy) in
  let counted (b : SessionBlock) :=
    cutoff <= start_time b /\ is_gap b = false /\ filter raw_user (entries b) <> [] in
  match calculate_historical_prompt_rate Qplus Qdiv reader_busy noon 24 with
  | Some rate =>
      (0 < rate)%Q /\ 0 < fst totals /\ (1 # 2 < snd totals)%Q
      /\ rate = Qdiv (inject_Z (fst totals)) (snd totals)
      /\ exists b, In b (_session_blocks reader_busy) /\ counted b
  | None => (snd totals <= 1 # 2)%Q
  end
  /\ ((forall b, In b (_session_blocks reader_busy) -> ~ counted b) ->
      calculate_historical_prompt_rate Qplus Qdiv reader_busy noon 24 = None).
Proof.
  apply (calculate_historical_prompt_rate_positive Qplus Qdiv reader_busy noon 24).
  intros a b Ha Hb. apply Qlt_shift_div_l; lra.
Defined.

End SessionWitnesses.

(** ** claude_code_reader.py: feeding the bounds calculator *)

Section CalculatorFacts.

Import Reader.

Variable get_model_pricing : string -> Pricing.
Variable session_duration_hours : Q.
Variable _blocks_cache_duration : Z.

Lemma count_messages_fold (es : list Entry) :
  forall (calc : AdaptiveBounds.AdaptiveBoundsCalculator) (current_messages : Z),
    count_messages calc current_messages es
    = fold_left AdaptiveBounds.add_prompt (prompt_message_counts current_messages es) calc.
Proof.
  induction es as [|e es IH]; intros calc cur; cbn [count_messages prompt_message_counts].
  - destruct (0 <? cur); reflexivity.
  - destruct (String.eqb (entry_type e) "user").
    + destruct (negb (is_tool_result (msg_content (raw_message (raw e)))) && (0 <? cur));
        rewrite IH; reflexivity.
    + destruct (String.eqb (entry_type e) "assistant"); apply IH.
Qed.

Lemma update_bounds_calculator_fold (r : ClaudeCodeReader) (now : datetime) :
  _bounds_calculator (update_bounds_calculator r now)
  = fold_left AdaptiveBounds.add_prompt (recorded_counts now (_session_blocks r))
              (_bounds_calculator r).
Proof.
  unfold update_bounds_calculator, recorded_counts. cbn [_bounds_calculator].
  generalize (filter (fun b => now - timedelta_hours 24 <=? start_time b)
                     (_session_blocks r)).
  intro l. generalize (_bounds_calculator r).
  induction l as [|b l IH]; intro c; cbn [fold_left flat_map]; [reflexivity|].
  rewrite fold_left_app, IH, count_messages_fold. reflexivity.
Qed.

Lemma reachable_observed (r : ClaudeCodeReader) :
  reachable get_model_pricing session_duration_hours _blocks_cache_duration r ->
  exists seen, _bounds_calculator r = AdaptiveBounds.observed 30 seen.
Proof.
  induction 1 as [|r now files force hours_back Hr [seen IH]|r now Hr [seen IH]].
  - exists []. reflexivity.
  - exists seen. rewrite <- IH. unfold _update_session_blocks.
    destruct (_ && _ && _); [reflexivity|].
    destruct hours_back; [reflexivity|].
    destruct (negb (_full_data_loaded r)); reflexivity.
  - exists (seen ++ recorded_counts now (_session_blocks r)).
    rewrite update_bounds_calculator_fold, IH. unfold AdaptiveBounds.observed.
    rewrite fold_left_app. reflexivity.
Qed.

Lemma prompt_message_counts_positive (es : list Entry) :
  forall current_messages : Z,
    0 <= current_messages ->
    Forall (fun x => 1 <= x) (prompt_message_counts current_messages es).
Proof.
  induction es as [|e es IH]; intros cur Hcur; cbn [prompt_message_counts].
  - destruct (Z.ltb_spec 0 cur); constructor; [lia|constructor].
  - destruct (String.eqb (entry_type e) "user").
    + destruct (negb (is_tool_result (msg_content (raw_message (raw e)))));
        cbn [andb]; [|apply IH; exact Hcur].
      destruct (Z.ltb_spec 0 cur); [|apply IH; exact Hcur].
      constructor; [lia|apply IH; lia].
    + destruct (String.eqb (entry_type e) "assistant"); apply IH; lia.
Qed.

Lemma prompt_message_counts_sum (es : list Entry) :
  forall current_messages : Z,
    0 <= current_messages ->
    fold_right Z.add 0 (prompt_message_counts current_messages es)
    = current_messages + Z.of_nat (length (filter is_assistant es)).
Proof.
  induction es as [|e es IH]; intros cur Hcur;
    cbn [prompt_message_counts filter length].
  - destruct (Z.ltb_spec 0 cur); cbn [fold_right]; lia.
  - unfold is_assistant at 1.
    destruct (String.eqb (entry_type e) "user") eqn:Eu.
    + apply String.eqb_eq in Eu. rewrite Eu. cbn [String.eqb Ascii.eqb Bool.eqb andb].
      destruct (negb (is_tool_result (msg_content (raw_message (raw e)))));
        cbn [andb]; [|apply IH; exact Hcur].
      destruct (Z.ltb_spec 0 cur); [|apply IH; exact Hcur].
      cbn [fold_right]. rewrite IH; lia.
    + destruct (String.eqb (entry_type e) "assistant"); cbn [length];
        rewrite IH; lia.
Qed.

Lemma prompt_message_counts_length (es : list Entry) :
  forall current_messages : Z,
    (length (prompt_message_counts current_messages es)
     <= length (filter real_prompt es) + 1)%nat.
Proof.
  induction es as [|e es IH]; intro cur; cbn [prompt_message_counts filter length].
  - destruct (0 <? cur); cbn [length]; lia.
  - unfold real_prompt at 1.
    destruct (String.eqb (entry_type e) "user"); cbn [andb].
    + destruct (negb (is_tool_result (msg_content (raw_message (raw e)))));
        cbn [andb length]; [|apply IH].
      destruct (0 <? cur); cbn [length]; [specialize (IH 0)|specialize (IH cur)]; lia.
    + destruct (String.eqb (entry_type e) "assistant"); apply IH.
Qed.

Lemma recorded_counts_facts (now : datetime) (blocks : list SessionBlock) :
  let recent := filter (fun b => now - timedelta_hours 24 <=? start_time b) blocks in
  let counts := recorded_counts now blocks in
  Forall (fun x => 1 <= x) counts
  /\ fold_right Z.add 0 counts
     = Z.of_nat (length (filter is_assistant (flat_map entries recent)))
  /\ (length counts
      <= length (filter real_prompt (flat_map entries recent)) + length recent)%nat.
Proof.
  cbv zeta. unfold recorded_counts.
  generalize (filter (fun b => now - timedelta_hours 24 <=? start_time b) blocks).
  intro l. induction l as [|b l [IH1 [IH2 IH3]]]; cbn [flat_map filter length fold_right].
  - split; [constructor|]. split; [reflexivity|lia].
  - split; [|split].
    + apply Forall_app. split; [apply prompt_message_counts_positive; lia|exact IH1].
    + assert (Happ : forall c d : list Z,
                 fold_right Z.add 0 (c ++ d)
                 = fold_right Z.add 0 c + fold_right Z.add 0 d).
      { intros c d. induction c as [|x c IHc]; cbn [app fold_right]; lia. }
      rewrite Happ, IH2, prompt_message_counts_sum by lia.
      rewrite filter_app, length_app. lia.
    + rewrite filter_app, !length_app.
      pose proof (prompt_message_counts_length (entries b) 0). lia.
Qed.

(** X26: the bounds calculator of a reachable reader is the fresh
    calculator of window 30 fed with a sequence of message counts.
    [update_bounds_calculator] feeds it the counts of the blocks started in
    the last 24 hours: every count is at least 1, the counts add up to the
    number of assistant entries of those blocks (each response is counted
    once), and there are at most as many counts as these blocks hold user
    prompts that are no tool results, plus one per block.  A second call
    feeds the same counts once more. *)
Theorem update_bounds_calculator_appends (r : ClaudeCodeReader) (now : datetime) :
  reachable get_model_pricing session_duration_hours _blocks_cache_duration r ->
  let recent :=
    filter (fun b => now - timedelta_hours 24 <=? start_time b) (_session_blocks r) in
  let counts := recorded_counts now (_session_blocks r) in
  (exists seen,
      _bounds_calculator r = AdaptiveBounds.observed 30 seen
      /\ _bounds_calculator (update_bounds_calculator r now)
         = AdaptiveBounds.observed 30 (seen ++ counts)
      /\ _bounds_calculator (update_bounds_calculator (update_bounds_calculator r now) now)
         = AdaptiveBounds.observed 30 (seen ++ counts ++ counts))
  /\ Forall (fun x => 1 <= x) counts
  /\ fold_right Z.add 0 counts
     = Z.of_nat (length (filter is_assistant (flat_map entries recent)))
  /\ (length counts
      <= length (filter real_prompt (flat_map entries recent)) + length recent)%nat.
Proof.
  intro Hr. cbv zeta. split; [|apply recorded_counts_facts].
  destruct (reachable_observed r Hr) as [seen Hs].
  exists seen. split; [exact Hs|].
  rewrite !update_bounds_calculator_fold. cbn [update_bounds_calculator _session_blocks].
  rewrite Hs. unfold AdaptiveBounds.observed. rewrite !fold_left_app. split; reflexivity.
Qed.

End CalculatorFacts.

Section CalculatorWitnesses.

Import Reader.

(** X26: the witness, the busy hour: six prompts with 2, 3, 2, 4, 2 and 3
    responses, sixteen responses in all. *)
Lemma update_bounds_calculator_appends_witness :
  let recent :=
    filter (fun b => noon - timedelta_hours 24 <=? start_time b)
           (_session_blocks reader_busy) in
  let counts := recorded_counts noon (_session_blocks reader_busy) in
  ((exists seen,
       _bounds_calculator reader_busy = AdaptiveBounds.observed 30 seen
       /\ _bounds_calculator (update_bounds_calculator reader_busy noon)
          = AdaptiveBounds.observed 30 (seen ++ counts)
       /\ _bounds_calculator
            (update_bounds_calculator (update_bounds_calculator reader_busy noon) noon)
          = AdaptiveBounds.observed 30 (seen ++ counts ++ counts))
   /\ Forall (fun x => 1 <= x) counts
   /\ fold_right Z.add 0 counts
      = Z.of_nat (length (filter is_assistant (flat_map entries recent)))
   /\ (length counts
       <= length (filter real_prompt (flat_map entries recent)) + length recent)%nat)
  /\ counts = [2; 3; 2; 4; 2; 3].
Proof.
  cbv zeta. split; [|vm_compute; reflexivity].
  apply (update_bounds_calculator_appends sample_pricing 5 (30 * SECOND) reader_busy noon).
  apply reachable_refresh, reachable_init.
Defined.

(** The counts are not one per prompt: responses before and after a single
    prompt give two counts, and two prompts followed by one response give
    one count. *)
Lemma prompt_message_counts_not_per_prompt :
  prompt_message_counts 0
    (_load_usage_entries noon
       [[assistant_line (noon - 3 * MINUTE); user_line (noon - 2 * MINUTE) "Go on";
         assistant_line (noon - MINUTE)]] None)
  = [1; 1]
  /\ prompt_message_counts 0
       (_load_usage_entries noon
          [[user_line (noon - 3 * MINUTE) "Wait"; user_line (noon - 2 * MINUTE) "Go on";
            assistant_line (noon - MINUTE)]] None)
     = [1].
Proof.
  split; vm_compute; reflexivity.
Qed.

End CalculatorWitnesses.

(** ** claude_code_reader.py: the moving average of a block *)

Section MovingAverageFacts.

Import Reader.

Lemma insert_time_Forall (P : datetime -> Prop) (t : datetime) (l : list datetime) :
  P t -> Forall P l -> Forall P (insert_time t l).
Proof.
  intros Ht. induction 1 as [|x l Hx Hl IH]; cbn.
  - constructor; [exact Ht|constructor].
  - destruct (t <=? x); constructor; try assumption. constructor; assumption.
Qed.

Lemma insert_time_sorted (t : datetime) (l : list datetime) :
  StronglySorted Z.le l -> StronglySorted Z.le (insert_time t l).
Proof.
  induction 1 as [|x l Hl IH Hx]; cbn.
  - constructor; constructor.
  - destruct (Z.leb_spec t x).
    + constructor; [constructor; assumption|].
      constructor; [exact H|]. eapply Forall_impl; [|exact Hx]. cbv beta. intros a Ha. lia.
    + constructor; [exact IH|]. apply insert_time_Forall; [lia|exact Hx].
Qed.

Lemma sort_times_sorted (l : list datetime) : StronglySorted Z.le (sort_times l).
Proof.
  induction l as [|x l IH]; cbn; [constructor|]. apply insert_time_sorted, IH.
Qed.

Lemma insert_time_perm (t : datetime) (l : list datetime) :
  Permutation (insert_time t l) (t :: l).
Proof.
  induction l as [|x l IH]; cbn; [reflexivity|].
  destruct (t <=? x); [reflexivity|]. rewrite IH. apply perm_swap.
Qed.

Lemma sort_times_perm (l : list datetime) : Permutation (sort_times l) l.
Proof.
  induction l as [|x l IH]; cbn; [reflexivity|].
  rewrite insert_time_perm, IH. reflexivity.
Qed.

(** Two sorted lists with the same elements are equal. *)
Lemma sorted_perm_eq (l1 : list datetime) :
  forall l2,
    StronglySorted Z.le l1 -> StronglySorted Z.le l2 -> Permutation l1 l2 -> l1 = l2.
Proof.
  induction l1 as [|a l1 IH]; intros l2 H1 H2 Hp.
  - apply Permutation_nil in Hp. subst. reflexivity.
  - destruct l2 as [|b l2]; [symmetry in Hp; apply Permutation_nil in Hp; discriminate Hp|].
    inversion H1 as [|x l Hs1 Ha]; subst. inversion H2 as [|x l Hs2 Hb]; subst.
    rewrite Forall_forall in Ha, Hb.
    assert (Hab : a = b).
    { assert (Hin1 : In a (b :: l2)) by (apply (Permutation_in _ Hp); left; reflexivity).
      assert (Hin2 : In b (a :: l1))
        by (apply (Permutation_in _ (Permutation_sym Hp)); left; reflexivity).
      destruct Hin1 as [E|Hin1]; [symmetry; exact E|].
      destruct Hin2 as [E|Hin2]; [exact E|].
      pose proof (Ha b Hin2). pose proof (Hb a Hin1). lia. }
    subst b. f_equal. apply IH; try assumption.
    apply Permutation_cons_inv in Hp. exact Hp.
Qed.

Lemma sort_times_canonical (l1 l2 : list datetime) :
  Permutation l1 l2 -> sort_times l1 = sort_times l2.
Proof.
  intro Hp. apply sorted_perm_eq; try apply sort_times_sorted.
  rewrite !sort_times_perm. exact Hp.
Qed.

(** X27: [get_moving_average_prompt_rate] does not depend on the order
    in which the prompt timestamps were recorded; a rate it returns is
    positive and needs at least two timestamps, and a window of one
    prompt gives [None]. *)
Theorem moving_average_prompt_rate (b b' : SessionBlock) (window_size : Z) :
  Permutation (prompt_timestamps b) (prompt_timestamps b') ->
  get_moving_average_prompt_rate b window_size
  = get_moving_average_prompt_rate b' window_size
  /\ (forall rate,
         get_moving_average_prompt_rate b window_size = Some rate ->
         (0 < rate)%Q /\ (2 <= length (prompt_timestamps b))%nat)
  /\ (window_size = 1 -> get_moving_average_prompt_rate b window_size = None).
Proof.
  intro Hp. split; [|split].
  - unfold get_moving_average_prompt_rate.
    rewrite (Permutation_length Hp), (sort_times_canonical _ _ Hp). reflexivity.
  - intros rate H. unfold get_moving_average_prompt_rate in H.
    destruct (Nat.ltb_spec (length (prompt_timestamps b)) 2); [discriminate H|].
    split; [|assumption].
    set (recent := slice_last window_size (sort_times (prompt_timestamps b))) in *.
    destruct (Nat.ltb_spec (length recent) 2); [discriminate H|].
    cbv zeta in H.
    set (span := (total_seconds (last recent 0%Z - hd 0%Z recent) / 3600)%Q) in *.
    destruct (Qle_bool span 0) eqn:E; [discriminate H|].
    inversion H; subst rate; clear H.
    assert (Hs : (0 < span)%Q).
    { apply Qnot_le_lt. intro Hle. apply Qle_bool_iff in Hle. congruence. }
    apply Qlt_shift_div_l; [exact Hs|].
    assert (Hn : (0 < inject_Z (Z.of_nat (length recent)))%Q)
      by (change 0%Q with (inject_Z 0); rewrite <- Zlt_Qlt; lia).
    lra.
  - intro Hw. subst window_size. unfold get_moving_average_prompt_rate.
    destruct (length (prompt_timestamps b) <? 2)%nat; [reflexivity|].
    assert (Hl : (length (slice_last 1 (sort_times (prompt_timestamps b))) <= 1)%nat).
    { unfold slice_last. cbn [Z.ltb Z.compare Z.to_nat Pos.to_nat Pos.iter_op Nat.add].
      unfold last_n. rewrite length_skipn. lia. }
    destruct (Nat.ltb_spec
                (length (slice_last 1 (sort_times (prompt_timestamps b)))) 2);
      [reflexivity|lia].
Qed.

End MovingAverageFacts.

Section MovingAverageWitnesses.

Import Reader.

(** X27: the witness, two prompts at 11:00 and at noon, recorded in
    either order. *)
Lemma moving_average_prompt_rate_witness :
  let b := count_prompt (count_prompt (new_block 0 0 0) (noon - HOUR)) noon in
  let b' := count_prompt (count_prompt (new_block 0 0 0) noon) (noon - HOUR) in
  get_moving_average_prompt_rate b 20 = get_moving_average_prompt_rate b' 20
  /\ (forall rate,
         get_moving_average_prompt_rate b 20 = Some rate ->
         (0 < rate)%Q /\ (2 <= length (prompt_timestamps b))%nat)
  /\ (20 = 1 -> get_moving_average_prompt_rate b 20 = None).
Proof.
  apply (moving_average_prompt_rate
           (count_prompt (count_prompt (new_block 0 0 0) (noon - HOUR)) noon)
           (count_prompt (count_prompt (new_block 0 0 0) noon) (noon - HOUR)) 20).
  cbn. apply perm_swap.
Defined.

End MovingAverageWitnesses.
